(** * To-Do List Manager: the task and reminder engine of [Main.py]

    A shallow embedding of the engine inside [ToDoApp]: the task list
    ([self.tasks], a list of dict objects), its JSON mirror on disk
    ([tasks.json]), the operations bound to the buttons and the periodic
    [check_reminders] tick.

    Conventions of the embedding.
    - A Python [str] is a [string]; a character stands for the code point
      of the same number (code points above 255 are not modelled).
    - A task is a Python dict with string keys: [gmap string pyval].  The
      values are what JSON can carry: [None], booleans, integers, floats
      (by their bits), strings, lists and dicts.
    - The dicts of [self.tasks] are mutable objects that closures keep a
      reference to ([save_edit]); each carries its identity ([ref]).
    - Exceptions are values ([exn]); an operation is a function from the
      application state to the new state and either a result or the
      exception that left it.
    - [datetime.strptime], [datetime.fromisoformat], [json.load] and
      [json.dump] belong to the interpreter: they are parameters of the
      development.  The clock ([datetime.now()], [time.time()]) and what
      the user typed or selected are arguments of the operations.
    - A [datetime] carries its [tzinfo], as the offset from UTC; the
      comparison of a datetime that has one with a datetime that has
      none raises [TypeError].
    - [tasks.json] is bytes that do not decode, or text; [json.load]
      refuses the text or turns it into a value, which need not be a
      list of objects.  Failures of the disk itself are not modelled.
    - The arithmetic of [datetime] ([deadline - timedelta(...)]) follows
      the day-number functions of the [datetime] module. *)

From Stdlib Require Import ZArith String Ascii List Bool Lia DecimalString Sorted.
From stdpp Require Import gmap strings list.

Local Open Scope string_scope.
Local Open Scope Z_scope.

Set Warnings "-register-all".

(** ** Python values and exceptions *)

(** The values [json.load] returns.  A float is its 64 bits. *)
Inductive pyval : Type :=
| PNone
| PBool (b : bool)
| PInt (n : Z)
| PFloat (bits : Z)
| PStr (s : string)
| PList (l : list pyval)
| PDict (d : gmap string pyval).

Abbreviation dict := (gmap string pyval).

Inductive exn : Type :=
| ValueError
| KeyError (key : string)
| TypeError
| OverflowError
| AttributeError
| JSONDecodeError       (* a subclass of ValueError *)
| UnicodeDecodeError.   (* a subclass of ValueError *)

(** [except ValueError] catches the exception. *)
Definition is_ValueError (e : exn) : bool :=
  match e with
  | ValueError | JSONDecodeError | UnicodeDecodeError => true
  | _ => false
  end.

Inductive result (A : Type) : Type :=
| Ok (a : A)
| Raise (e : exn).
Arguments Ok {A} a.
Arguments Raise {A} e.

(** [bool(v)]: the truth value Python gives a value.  A float is false
    when it is one of the two zeros (all bits but the sign are 0). *)
Definition truthy (v : pyval) : bool :=
  match v with
  | PNone => false
  | PBool b => b
  | PInt n => negb (n =? 0)
  | PFloat bits => negb (Z.land bits (2 ^ 63 - 1) =? 0)
  | PStr s => negb (String.eqb s "")
  | PList l => match l with [] => false | _ :: _ => true end
  | PDict d => negb (bool_decide (d = ∅))
  end.

(** [d[k]] *)
Definition getitem (d : dict) (k : string) : result pyval :=
  match d !! k with
  | Some v => Ok v
  | None => Raise (KeyError k)
  end.

(** [d.get(k, default)] *)
Definition get_default (d : dict) (k : string) (default : pyval) : pyval :=
  match d !! k with
  | Some v => v
  | None => default
  end.

(** ** Strings *)

(** [needle in s] for two strings: [needle] occurs in [s]. *)
Fixpoint contains (needle s : string) : bool :=
  String.prefix needle s
  || match s with
     | EmptyString => false
     | String _ s' => contains needle s'
     end.

(** [text in l] for a string and a list: an element equals the string. *)
Definition member (text : string) (l : list pyval) : bool :=
  existsb (fun v => match v with PStr s => String.eqb text s | _ => false end) l.

(** [str.isspace] on one character (code points below 256). *)
Definition is_space (c : ascii) : bool :=
  let n := nat_of_ascii c in
  ((9 <=? n) && (n <=? 13) || (28 <=? n) && (n <=? 32)
   || (n =? 133) || (n =? 160))%nat.

Fixpoint lstrip (s : string) : string :=
  match s with
  | EmptyString => EmptyString
  | String c s' => if is_space c then lstrip s' else s
  end.

Fixpoint rstrip (s : string) : string :=
  match s with
  | EmptyString => EmptyString
  | String c s' =>
      match rstrip s' with
      | EmptyString => if is_space c then EmptyString else String c EmptyString
      | t => String c t
      end
  end.

(** [s.strip()] *)
Definition strip (s : string) : string := rstrip (lstrip s).

(** [str(n)] for an [int]. *)
Definition str_of_int (n : Z) : string := NilZero.string_of_int (Z.to_int n).

Definition digit_char (d : Z) : ascii := ascii_of_nat (48 + Z.to_nat d).

(** The last [k] decimal digits of [n], most significant first: what
    ["%0kd" % n] prints when [0 <= n < 10^k]. *)
Fixpoint zfill_acc (k : nat) (n : Z) (acc : string) : string :=
  match k with
  | O => acc
  | S k' => zfill_acc k' (n / 10) (String (digit_char (n mod 10)) acc)
  end.

Definition zfill (k : nat) (n : Z) : string := zfill_acc k n "".

(** ** Datetimes *)

(** A [datetime]; [tzinfo] is [None] for a naive one, else the offset
    from UTC, in microseconds. *)
Record datetime : Type := mkdatetime_tz {
  year : Z; month : Z; day : Z;
  hour : Z; minute : Z; second : Z; microsecond : Z;
  tzinfo : option Z
}.

(** [datetime(y, m, d, h, mi, s, us)]: a naive datetime. *)
Abbreviation mkdatetime y m d h mi s us := (mkdatetime_tz y m d h mi s us None).

(** [timedelta(hours=h, minutes=m)], in seconds. *)
Definition timedelta (hours minutes : Z) : Z := hours * 3600 + minutes * 60.

(** The calendar helpers of the [datetime] module. *)
Definition is_leap (y : Z) : bool :=
  (y mod 4 =? 0) && (negb (y mod 100 =? 0) || (y mod 400 =? 0)).

Definition days_before_year (y : Z) : Z :=
  let y1 := y - 1 in y1 * 365 + y1 / 4 - y1 / 100 + y1 / 400.

Definition DAYS_IN_MONTH (m : Z) : Z :=
  match m with
  | 1 => 31 | 2 => 28 | 3 => 31 | 4 => 30 | 5 => 31 | 6 => 30
  | 7 => 31 | 8 => 31 | 9 => 30 | 10 => 31 | 11 => 30 | 12 => 31
  | _ => -1
  end.

Definition DAYS_BEFORE_MONTH (m : Z) : Z :=
  match m with
  | 1 => 0 | 2 => 31 | 3 => 59 | 4 => 90 | 5 => 120 | 6 => 151
  | 7 => 181 | 8 => 212 | 9 => 243 | 10 => 273 | 11 => 304 | 12 => 334
  | _ => -1
  end.

Definition days_in_month (y m : Z) : Z :=
  if (m =? 2) && is_leap y then 29 else DAYS_IN_MONTH m.

Definition days_before_month (y m : Z) : Z :=
  DAYS_BEFORE_MONTH m + (if (2 <? m) && is_leap y then 1 else 0).

Definition ymd2ord (y m d : Z) : Z :=
  days_before_year y + days_before_month y m + d.

Definition DI400Y : Z := 146097.
Definition DI100Y : Z := 36524.
Definition DI4Y : Z := 1461.
Definition MAXORDINAL : Z := 3652059.

(** The last part of [_ord2ymd]: month and day of day [n] (from 0) of a
    year; the month is estimated, [(n + 50) >> 5], and corrected. *)
Definition month_day (leapyear : bool) (n : Z) : Z * Z :=
  let m := Z.shiftr (n + 50) 5 in
  let preceding :=
    DAYS_BEFORE_MONTH m + (if (2 <? m) && leapyear then 1 else 0) in
  if n <? preceding then
    let m := m - 1 in
    let preceding :=
      preceding
      - (DAYS_IN_MONTH m + (if (m =? 2) && leapyear then 1 else 0)) in
    (m, n - preceding + 1)
  else (m, n - preceding + 1).

Definition ord2ymd (n : Z) : Z * Z * Z :=
  let n := n - 1 in
  let n400 := n / DI400Y in
  let n := n mod DI400Y in
  let y := n400 * 400 + 1 in
  let n100 := n / DI100Y in
  let n := n mod DI100Y in
  let n4 := n / DI4Y in
  let n := n mod DI4Y in
  let n1 := n / 365 in
  let n := n mod 365 in
  let y := y + n100 * 100 + n4 * 4 + n1 in
  if (n1 =? 4) || (n100 =? 4) then (y - 1, 12, 31)
  else
    let leapyear := (n1 =? 3) && (negb (n4 =? 24) || (n100 =? 3)) in
    let '(m, d) := month_day leapyear n in
    (y, m, d).

(** [datetime.toordinal] *)
Definition toordinal (d : datetime) : Z := ymd2ord (year d) (month d) (day d).

(** [d - td] for a timedelta of [td] whole seconds: [datetime.__add__]
    on the negated delta; the result keeps the [tzinfo]. *)
Definition dt_sub (d : datetime) (td : Z) : result datetime :=
  let total :=
    toordinal d * 86400 + hour d * 3600 + minute d * 60 + second d - td in
  let days := total / 86400 in
  let secs := total mod 86400 in
  if (0 <? days) && (days <=? MAXORDINAL) then
    let '(y, m, dd) := ord2ymd days in
    Ok (mkdatetime_tz y m dd (secs / 3600) (secs mod 3600 / 60)
          (secs mod 3600 mod 60) (microsecond d) (tzinfo d))
  else Raise OverflowError.

(** Seconds since the start of day 0 of the proleptic calendar: the
    position of a datetime on the time line of its own offset. *)
Definition timeline (d : datetime) : Z :=
  toordinal d * 86400 + hour d * 3600 + minute d * 60 + second d.

(** Comparison of the tuples of the fields. *)
Definition tuple_compare (a b : datetime) : comparison :=
  match year a ?= year b with
  | Eq =>
    match month a ?= month b with
    | Eq =>
      match day a ?= day b with
      | Eq =>
        match hour a ?= hour b with
        | Eq =>
          match minute a ?= minute b with
          | Eq =>
            match second a ?= second b with
            | Eq => microsecond a ?= microsecond b
            | c => c
            end
          | c => c
          end
        | c => c
        end
      | c => c
      end
    | c => c
    end
  | c => c
  end.

(** [datetime._cmp]: two naive datetimes, or two with the same offset,
    compare as the tuples of their fields; two with different offsets
    by the sign of their difference, which takes the offsets into
    account; a naive one and one with an offset do not compare. *)
Definition dt_compare (a b : datetime) : result comparison :=
  match tzinfo a, tzinfo b with
  | None, None => Ok (tuple_compare a b)
  | Some myoff, Some otoff =>
      if myoff =? otoff then Ok (tuple_compare a b)
      else
        Ok ((timeline a * 1000000 + microsecond a - myoff)
            ?= (timeline b * 1000000 + microsecond b - otoff))
  | _, _ => Raise TypeError
  end.

(** [a <= b] *)
Definition dt_leb (a b : datetime) : result bool :=
  match dt_compare a b with
  | Ok Gt => Ok false
  | Ok _ => Ok true
  | Raise e => Raise e
  end.

(** The offset as [isoformat] writes it: sign, hours and minutes, and
    the seconds and microseconds when there are any. *)
Definition format_offset (off : Z) : string :=
  let sign := if off <? 0 then "-" else "+" in
  let off := Z.abs off in
  let hh := off / 3600000000 in
  let mm := off mod 3600000000 / 60000000 in
  let ss := off mod 60000000 / 1000000 in
  let us := off mod 1000000 in
  sign +:+ zfill 2 hh +:+ ":" +:+ zfill 2 mm
  +:+ (if (ss =? 0) && (us =? 0) then ""
       else ":" +:+ zfill 2 ss
            +:+ (if us =? 0 then "" else "." +:+ zfill 6 us)).

(** [d.isoformat()] *)
Definition isoformat (d : datetime) : string :=
  zfill 4 (year d) +:+ "-" +:+ zfill 2 (month d) +:+ "-" +:+ zfill 2 (day d)
  +:+ "T" +:+ zfill 2 (hour d) +:+ ":" +:+ zfill 2 (minute d)
  +:+ ":" +:+ zfill 2 (second d)
  +:+ (if microsecond d =? 0 then "" else "." +:+ zfill 6 (microsecond d))
  +:+ match tzinfo d with
      | None => ""
      | Some off => format_offset off
      end.

(** [d.strftime("%d/%m %H:%M")] *)
Definition strftime_dm_HM (d : datetime) : string :=
  zfill 2 (day d) +:+ "/" +:+ zfill 2 (month d) +:+ " "
  +:+ zfill 2 (hour d) +:+ ":" +:+ zfill 2 (minute d).

(** What the constructor of [datetime] accepts. *)
Definition valid_datetime (d : datetime) : Prop :=
  1 <= year d <= 9999 /\ 1 <= month d <= 12
  /\ 1 <= day d <= days_in_month (year d) (month d)
  /\ 0 <= hour d < 24 /\ 0 <= minute d < 60 /\ 0 <= second d < 60
  /\ 0 <= microsecond d < 1000000.

Definition valid_datetimeb (d : datetime) : bool :=
  (1 <=? year d) && (year d <=? 9999) && (1 <=? month d) && (month d <=? 12)
  && (1 <=? day d) && (day d <=? days_in_month (year d) (month d))
  && (0 <=? hour d) && (hour d <? 24) && (0 <=? minute d) && (minute d <? 60)
  && (0 <=? second d) && (second d <? 60)
  && (0 <=? microsecond d) && (microsecond d <? 1000000).

(** Checks run over the days of one year, from which the facts about
    [month_day] below follow.  [all_from k n f]: [f] holds at [n],
    [n+1], ..., [n+k-1]. *)
Fixpoint all_from (k : nat) (n : Z) (f : Z -> bool) : bool :=
  match k with
  | O => true
  | S k' => f n && all_from k' (n + 1) f
  end.

(** Day [n] of the year falls on a day that its month has, and is as far
    into the year as the months before and the day say. *)
Definition month_day_ok (leapyear : bool) (n : Z) : bool :=
  let '(m, d) := month_day leapyear n in
  (1 <=? m) && (m <=? 12) && (1 <=? d)
  && (d <=? DAYS_IN_MONTH m + (if (m =? 2) && leapyear then 1 else 0))
  && (DAYS_BEFORE_MONTH m + (if (2 <? m) && leapyear then 1 else 0) + d
      =? n + 1).

(** The day [d] of month [m], when the month has it, is one of the days
    of the year and is found again from its place in the year (the last
    day of a leap year is the one day [month_day] is not asked about). *)
Definition day_of_month_ok (leapyear : bool) (m d : Z) : bool :=
  let n := DAYS_BEFORE_MONTH m + (if (2 <? m) && leapyear then 1 else 0)
           + d - 1 in
  (DAYS_IN_MONTH m + (if (m =? 2) && leapyear then 1 else 0) <? d)
  || ((0 <=? n) && (n <=? 364 + (if leapyear then 1 else 0))
      && (if n =? 365 then (m =? 12) && (d =? 31)
          else match month_day leapyear n with
               | (m', d') => (m' =? m) && (d' =? d)
               end)).

(** ** Reference parsers

    Instances of the two interpreter parsers on the spellings this
    program itself reads and writes; they serve to run the model on
    concrete inputs. *)

Definition digit_val (c : ascii) : option Z :=
  let n := nat_of_ascii c in
  if ((48 <=? n) && (n <=? 57))%nat then Some (Z.of_nat n - 48) else None.

(** Exactly [k] digits. *)
Fixpoint read_digits (k : nat) (acc : Z) (s : string) : option (Z * string) :=
  match k with
  | O => Some (acc, s)
  | S k' =>
      match s with
      | String c s' =>
          match digit_val c with
          | Some d => read_digits k' (acc * 10 + d) s'
          | None => None
          end
      | EmptyString => None
      end
  end.

(** One or two digits, as many as there are. *)
Definition read_1or2 (s : string) : option (Z * string) :=
  match s with
  | String c s' =>
      match digit_val c with
      | Some d =>
          match s' with
          | String c2 s'' =>
              match digit_val c2 with
              | Some d2 => Some (d * 10 + d2, s'')
              | None => Some (d, s')
              end
          | EmptyString => Some (d, s')
          end
      | None => None
      end
  | EmptyString => None
  end.

Definition expect (c : ascii) (s : string) : option string :=
  match s with
  | String c' s' => if Ascii.eqb c c' then Some s' else None
  | EmptyString => None
  end.

(** One or more white space characters ([\s+]). *)
Definition skip_spaces1 (s : string) : option string :=
  match s with
  | String c s' => if is_space c then Some (lstrip s') else None
  | EmptyString => None
  end.

(** [datetime.strptime(s, "%Y %d/%m %H:%M")]: four digits of year, white
    space, day (1-31, one or two digits), [/], month (1-12), white space,
    hour (0-23), [:], minute (0-59), end of input; then the date has to
    exist.  Any other format is refused. *)
Definition strptime_ref (s fmt : string) : option datetime :=
  if negb (String.eqb fmt "%Y %d/%m %H:%M") then None else
  '(y, s) ← read_digits 4 0 s;
  s ← skip_spaces1 s;
  '(d, s) ← read_1or2 s;
  s ← expect "/" s;
  '(m, s) ← read_1or2 s;
  s ← skip_spaces1 s;
  '(hh, s) ← read_1or2 s;
  s ← expect ":" s;
  '(mi, s) ← read_1or2 s;
  if negb (String.eqb s "") then None else
  let r := mkdatetime y m d hh mi 0 0 in
  if valid_datetimeb r then Some r else None.

(** The offset at the end of an ISO text: nothing, or a sign, two
    digits of hours, [:] and two digits of minutes. *)
Definition read_offset (s : string) : option (option Z) :=
  match s with
  | EmptyString => Some None
  | String c s' =>
      sign ← (if Ascii.eqb c "+" then Some 1
              else if Ascii.eqb c "-" then Some (-1) else None);
      '(hh, s) ← read_digits 2 0 s';
      s ← expect ":" s;
      '(mm, s) ← read_digits 2 0 s;
      if negb (String.eqb s "") then None
      else if (hh <? 24) && (mm <? 60)
           then Some (Some (sign * (hh * 3600 + mm * 60) * 1000000))
           else None
  end.

(** [datetime.fromisoformat] on what [isoformat] writes:
    [YYYY-MM-DDTHH:MM:SS], with [.ffffff] after it or not, and with an
    offset [+HH:MM] or [-HH:MM] after that or not. *)
Definition fromisoformat_ref (s : string) : option datetime :=
  '(y, s) ← read_digits 4 0 s;
  s ← expect "-" s;
  '(m, s) ← read_digits 2 0 s;
  s ← expect "-" s;
  '(d, s) ← read_digits 2 0 s;
  s ← expect "T" s;
  '(hh, s) ← read_digits 2 0 s;
  s ← expect ":" s;
  '(mi, s) ← read_digits 2 0 s;
  s ← expect ":" s;
  '(ss, s) ← read_digits 2 0 s;
  '(us, s) ← match s with
             | String c s' =>
                 if Ascii.eqb c "." then read_digits 6 0 s' else Some (0, s)
             | EmptyString => Some (0, s)
             end;
  tz ← read_offset s;
  let r := mkdatetime_tz y m d hh mi ss us tz in
  if valid_datetimeb r then Some r else None.

(** ** A reference [json]

    An instance of [json.dump(value, f, indent=4)] and of [json.load] on
    the texts it writes (floats apart), to run the model on concrete
    inputs. *)

Definition quote : ascii := ascii_of_nat 34.
Definition backslash : ascii := ascii_of_nat 92.

Definition hex_char (n : nat) : ascii :=
  if (n <? 10)%nat then ascii_of_nat (48 + n) else ascii_of_nat (87 + n).

(** One character inside a JSON string ([ensure_ascii]). *)
Definition json_escape_char (c : ascii) : string :=
  let n := nat_of_ascii c in
  if (n =? 34)%nat then String backslash (String quote "")
  else if (n =? 92)%nat then String backslash (String backslash "")
  else if (n =? 10)%nat then String backslash "n"
  else if (n =? 13)%nat then String backslash "r"
  else if (n =? 9)%nat then String backslash "t"
  else if (n =? 8)%nat then String backslash "b"
  else if (n =? 12)%nat then String backslash "f"
  else if ((32 <=? n) && (n <=? 126))%nat then String c ""
  else String backslash
         ("u00" +:+ String (hex_char (n / 16)) (String (hex_char (n mod 16)) "")).

Fixpoint json_escape (s : string) : string :=
  match s with
  | EmptyString => EmptyString
  | String c s' => json_escape_char c +:+ json_escape s'
  end.

Definition json_string (s : string) : string :=
  String quote (json_escape s +:+ String quote "").

Fixpoint spaces (n : nat) : string :=
  match n with
  | O => EmptyString
  | S n' => String " " (spaces n')
  end.

Definition newline_indent (level : nat) : string :=
  String (ascii_of_nat 10) (spaces (4 * level)).

Fixpoint join (sep : string) (l : list string) : string :=
  match l with
  | [] => ""
  | [x] => x
  | x :: l' => x +:+ sep +:+ join sep l'
  end.

Fixpoint json_encode (level : nat) (v : pyval) {struct v} : string :=
  match v with
  | PNone => "null"
  | PBool b => if b then "true" else "false"
  | PInt n => str_of_int n
  | PFloat _ => "NaN"
  | PStr s => json_string s
  | PList l =>
      match l with
      | [] => "[]"
      | _ :: _ =>
          "[" +:+ newline_indent (S level)
          +:+ join ("," +:+ newline_indent (S level))
                (map (json_encode (S level)) l)
          +:+ newline_indent level +:+ "]"
      end
  | PDict d =>
      match map_fold (fun k x acc =>
                        (json_string k +:+ ": " +:+ json_encode (S level) x)
                        :: acc) [] d with
      | [] => "{}"
      | members =>
          "{" +:+ newline_indent (S level)
          +:+ join ("," +:+ newline_indent (S level)) members
          +:+ newline_indent level +:+ "}"
      end
  end.

Definition json_dump_ref (v : pyval) : string := json_encode 0 v.

Definition is_json_space (c : ascii) : bool :=
  let n := nat_of_ascii c in
  ((n =? 32) || (n =? 9) || (n =? 10) || (n =? 13))%nat.

Fixpoint skip_json_space (s : string) : string :=
  match s with
  | EmptyString => EmptyString
  | String c s' => if is_json_space c then skip_json_space s' else s
  end.

Definition hex_val (c : ascii) : option nat :=
  let n := nat_of_ascii c in
  if ((48 <=? n) && (n <=? 57))%nat then Some (n - 48)%nat
  else if ((97 <=? n) && (n <=? 102))%nat then Some (n - 87)%nat
  else if ((65 <=? n) && (n <=? 70))%nat then Some (n - 55)%nat
  else None.

(** The rest of a JSON string, from after its opening quote. *)
Fixpoint read_json_string (s : string) : option (string * string) :=
  match s with
  | EmptyString => None
  | String c s' =>
      if Ascii.eqb c quote then Some ("", s')
      else if Ascii.eqb c backslash then
        match s' with
        | String e s'' =>
            let n := nat_of_ascii e in
            if (n =? 117)%nat then
              match s'' with
              | String h1 (String h2 (String h3 (String h4 rest))) =>
                  a ← hex_val h1; b ← hex_val h2;
                  c ← hex_val h3; d ← hex_val h4;
                  if ((a =? 0) && (b =? 0))%nat then
                    '(t, r) ← read_json_string rest;
                    Some (String (ascii_of_nat (c * 16 + d)) t, r)
                  else None
              | _ => None
              end
            else
              ch ← (if (n =? 110)%nat then Some (ascii_of_nat 10)
                    else if (n =? 114)%nat then Some (ascii_of_nat 13)
                    else if (n =? 116)%nat then Some (ascii_of_nat 9)
                    else if (n =? 98)%nat then Some (ascii_of_nat 8)
                    else if (n =? 102)%nat then Some (ascii_of_nat 12)
                    else if ((n =? 34) || (n =? 92) || (n =? 47))%nat
                         then Some e
                         else None);
              '(t, r) ← read_json_string s'';
              Some (String ch t, r)
        | EmptyString => None
        end
      else
        '(t, r) ← read_json_string s';
        Some (String c t, r)
  end.

Fixpoint read_json_digits (s : string) (acc : Z) : Z * string :=
  match s with
  | EmptyString => (acc, s)
  | String c s' =>
      match digit_val c with
      | Some d => read_json_digits s' (acc * 10 + d)
      | None => (acc, s)
      end
  end.

(** An integer; a number with a fraction or an exponent is refused. *)
Definition read_json_int (s : string) : option (Z * string) :=
  let '(negative, s) :=
    match s with
    | String c s' => if Ascii.eqb c "-" then (true, s') else (false, s)
    | EmptyString => (false, s)
    end in
  match s with
  | String c _ =>
      match digit_val c with
      | Some _ =>
          let '(n, r) := read_json_digits s 0 in
          match r with
          | String c' _ =>
              if Ascii.eqb c' "." || Ascii.eqb c' "e" || Ascii.eqb c' "E"
              then None
              else Some (if negative then - n else n, r)
          | EmptyString => Some (if negative then - n else n, r)
          end
      | None => None
      end
  | EmptyString => None
  end.

Fixpoint drop_prefix (p s : string) : option string :=
  match p with
  | EmptyString => Some s
  | String c p' =>
      match s with
      | String c' s' => if Ascii.eqb c c' then drop_prefix p' s' else None
      | EmptyString => None
      end
  end.

Fixpoint read_json_value (fuel : nat) (s : string) : option (pyval * string) :=
  match fuel with
  | O => None
  | S fuel =>
      match skip_json_space s with
      | EmptyString => None
      | String c s' =>
          if Ascii.eqb c quote then
            '(t, r) ← read_json_string s'; Some (PStr t, r)
          else if Ascii.eqb c "[" then
            match skip_json_space s' with
            | String c' r =>
                if Ascii.eqb c' "]" then Some (PList [], r)
                else '(l, r) ← read_json_items fuel s'; Some (PList l, r)
            | EmptyString => None
            end
          else if Ascii.eqb c "{" then
            match skip_json_space s' with
            | String c' r =>
                if Ascii.eqb c' "}" then Some (PDict ∅, r)
                else '(d, r) ← read_json_members fuel s'; Some (PDict d, r)
            | EmptyString => None
            end
          else
            match drop_prefix "null" (String c s') with
            | Some r => Some (PNone, r)
            | None =>
                match drop_prefix "true" (String c s') with
                | Some r => Some (PBool true, r)
                | None =>
                    match drop_prefix "false" (String c s') with
                    | Some r => Some (PBool false, r)
                    | None =>
                        '(n, r) ← read_json_int (String c s'); Some (PInt n, r)
                    end
                end
            end
      end
  end
with read_json_items (fuel : nat) (s : string)
  : option (list pyval * string) :=
  match fuel with
  | O => None
  | S fuel =>
      '(v, r) ← read_json_value fuel s;
      match skip_json_space r with
      | String c r' =>
          if Ascii.eqb c "," then
            '(vs, r'') ← read_json_items fuel r'; Some (v :: vs, r'')
          else if Ascii.eqb c "]" then Some ([v], r')
          else None
      | EmptyString => None
      end
  end
with read_json_members (fuel : nat) (s : string)
  : option (gmap string pyval * string) :=
  match fuel with
  | O => None
  | S fuel =>
      match skip_json_space s with
      | String q s' =>
          if Ascii.eqb q quote then
            '(k, r) ← read_json_string s';
            match skip_json_space r with
            | String c r' =>
                if Ascii.eqb c ":" then
                  '(v, r) ← read_json_value fuel r';
                  match skip_json_space r with
                  | String c r' =>
                      if Ascii.eqb c "," then
                        '(d, r'') ← read_json_members fuel r';
                        (* of two members with one key the later stays *)
                        Some (match d !! k with
                              | Some _ => d
                              | None => <[k := v]> d
                              end, r'')
                      else if Ascii.eqb c "}" then Some ({[k := v]}, r')
                      else None
                  | EmptyString => None
                  end
                else None
            | EmptyString => None
            end
          else None
      | EmptyString => None
      end
  end.

Definition json_load_ref (s : string) : option pyval :=
  '(v, r) ← read_json_value (2 * String.length s + 2) s;
  if String.eqb (skip_json_space r) "" then Some v else None.

(** ** The application state *)

(** A dict object of [self.tasks]: its identity and its content. *)
Record obj : Type := mkobj { ref : nat; fields : dict }.

(** The content of [tasks.json]: bytes that do not decode as text in
    the encoding [open] uses, or text. *)
Inductive file_content : Type :=
| Undecodable
| Text (text : string).

(** What [self.tasks] is: a list of dicts, or one of the two other
    values that [load_tasks] returns and with which the constructor
    returns, the empty dict and the empty string. *)
Inductive tasks_type : Type :=
| IsList
| IsEmptyDict
| IsEmptyStr.

(** What the program shows or asks of its collaborators. *)
Inductive event : Type :=
| ShowWarning (title message : string)
| ShowError (title message : string)
| ShowInfo (title message : string)
(* the channels of [trigger_reminder]: alarm thread, popup, desktop
   notification, for the task object [task] *)
| Reminder (task : nat) (task_name : pyval) (deadline : string)
(* [self.after(ms, self.check_reminders)] *)
| After (ms : Z).

(** A row of the tree view. *)
Record row : Type := mkrow {
  row_task : pyval; row_deadline : string; row_reminder_time : string;
  row_status : string; row_struck : bool
}.

Record App : Type := mkApp {
  tasks : list obj;               (* the dicts of self.tasks *)
  next_ref : nat;                 (* the next fresh object identity *)
  task_file : option file_content;  (* tasks.json; None: no such file *)
  task_tree : list row;           (* self.task_tree *)
  log : list event;               (* shown so far, oldest first *)
  tasks_is : tasks_type           (* what self.tasks is *)
}.

Definition set_tasks (l : list obj) (st : App) : App :=
  mkApp l (next_ref st) (task_file st) (task_tree st) (log st) (tasks_is st).
Definition set_next_ref (n : nat) (st : App) : App :=
  mkApp (tasks st) n (task_file st) (task_tree st) (log st) (tasks_is st).
Definition set_task_file (f : option file_content) (st : App) : App :=
  mkApp (tasks st) (next_ref st) f (task_tree st) (log st) (tasks_is st).
Definition set_task_tree (t : list row) (st : App) : App :=
  mkApp (tasks st) (next_ref st) (task_file st) t (log st) (tasks_is st).
Definition add_log (es : list event) (st : App) : App :=
  mkApp (tasks st) (next_ref st) (task_file st) (task_tree st) (log st ++ es)
    (tasks_is st).
Definition set_tasks_is (t : tasks_type) (st : App) : App :=
  mkApp (tasks st) (next_ref st) (task_file st) (task_tree st) (log st) t.

(** The value of [self.tasks]. *)
Definition stored (st : App) : pyval :=
  match tasks_is st with
  | IsList => PList (map PDict (map fields (tasks st)))
  | IsEmptyDict => PDict ∅
  | IsEmptyStr => PStr ""
  end.

(** The process before [ToDoApp()] runs, with [f] on disk. *)
Definition boot (f : option file_content) : App :=
  mkApp [] 0%nat f [] [] IsList.

(** ** Operations: state and exceptions *)

Definition M (A : Type) : Type := App -> App * result A.

Definition ret {A} (a : A) : M A := fun st => (st, Ok a).
Definition raise {A} (e : exn) : M A := fun st => (st, Raise e).
Definition bind {A B} (m : M A) (k : A -> M B) : M B :=
  fun st =>
    match m st with
    | (st', Ok a) => k a st'
    | (st', Raise e) => (st', Raise e)
    end.
Definition lift {A} (r : result A) : M A := fun st => (st, r).
Definition get_state : M App := fun st => (st, Ok st).
Definition modify (f : App -> App) : M unit := fun st => (f st, Ok tt).
Definition emit (e : event) : M unit := modify (add_log [e]).

Definition rbind {A B} (r : result A) (k : A -> result B) : result B :=
  match r with
  | Ok a => k a
  | Raise e => Raise e
  end.

Declare Scope app_scope.
Delimit Scope app_scope with app.
Notation "'let*' x := c1 'in' c2" := (bind c1 (fun x => c2))
  (at level 10, x name, c1 at level 100, c2 at level 200) : app_scope.
Notation "c1 ;; c2" := (bind c1 (fun _ => c2))
  (at level 100, c2 at level 200, right associativity) : app_scope.
Declare Scope result_scope.
Delimit Scope result_scope with res.
Notation "'let*' x := c1 'in' c2" := (rbind c1 (fun x => c2))
  (at level 10, x name, c1 at level 100, c2 at level 200) : result_scope.

(** Some of the keys are naive and some have an offset: a sort of the
    list has to compare two that do not compare. *)
Definition mixed (keys : list datetime) : bool :=
  existsb (fun k => match tzinfo k with None => true | Some _ => false end) keys
  && existsb (fun k => match tzinfo k with None => false | Some _ => true end)
       keys.

(** [a <= b] between keys that compare. *)
Definition key_leb (a b : datetime) : bool :=
  match dt_leb a b with
  | Ok false => false
  | _ => true
  end.

(** [l.sort(key=...)] on a list already paired with its keys, which
    compare: stable, ascending.  [insert_keyed] puts an element before
    the first one whose key is not smaller. *)
Fixpoint insert_keyed {A} (x : datetime * A) (l : list (datetime * A))
  : list (datetime * A) :=
  match l with
  | [] => [x]
  | y :: l' =>
      if key_leb (fst x) (fst y) then x :: y :: l'
      else y :: insert_keyed x l'
  end.

Fixpoint sort_keyed {A} (l : list (datetime * A)) : list (datetime * A) :=
  match l with
  | [] => []
  | x :: l' => insert_keyed x (sort_keyed l')
  end.

(** [d[k] = v] on the object [o] *)
Definition setitem (o : obj) (k : string) (v : pyval) : obj :=
  mkobj (ref o) (<[k := v]> (fields o)).

(** The repair [load_tasks] applies to the record at index [i]; [ms] is
    [int(time.time() * 1000)] at that moment. *)
Definition backfill (ms : Z) (i : nat) (task : dict) : dict :=
  let task :=
    match task !! "reminded" with
    | None => <["reminded" := PBool false]> task
    | Some _ => task
    end in
  match task !! "id" with
  | None =>
      <["id" := PStr ("legacy_" +:+ str_of_int (Z.of_nat i) +:+ "_"
                       +:+ str_of_int ms)]> task
  | Some _ => task
  end.

(** What the loop of [load_tasks] does with the element at index [i] of
    a list: a dict is repaired; on a string, or a list, that holds both
    [reminded] and [id] the two tests pass and nothing is written; on
    any other value the test or the write raises [TypeError]. *)
Definition repair_item (ms : Z) (i : nat) (task : pyval) : result pyval :=
  match task with
  | PDict d => Ok (PDict (backfill ms i d))
  | PStr s =>
      if contains "reminded" s && contains "id" s then Ok task
      else Raise TypeError
  | PList l =>
      if member "reminded" l && member "id" l then Ok task
      else Raise TypeError
  | _ => Raise TypeError
  end.

Fixpoint repair_items (clock : nat -> Z) (i : nat) (l : list pyval)
  : result (list pyval) :=
  match l with
  | [] => Ok []
  | task :: l' =>
      match repair_item (clock i) i task with
      | Ok task' =>
          match repair_items clock (S i) l' with
          | Ok l'' => Ok (task' :: l'')
          | Raise e => Raise e
          end
      | Raise e => Raise e
      end
  end.

(** The loop of [load_tasks] over the value [json.load] returned: over
    the elements of a list; over the keys of a dict and the characters
    of a string, which are strings; a value of another type is not
    iterable. *)
Definition repair (clock : nat -> Z) (loaded : pyval) : result pyval :=
  match loaded with
  | PList l =>
      match repair_items clock 0 l with
      | Ok l' => Ok (PList l')
      | Raise e => Raise e
      end
  | PDict d =>
      if forallb (fun k => contains "reminded" k && contains "id" k)
           (map fst (map_to_list d))
      then Ok loaded else Raise TypeError
  | PStr s => if String.eqb s "" then Ok loaded else Raise TypeError
  | _ => Raise TypeError
  end.

(** The elements of a list when all are dicts. *)
Fixpoint dicts_of (l : list pyval) : option (list dict) :=
  match l with
  | [] => Some []
  | PDict d :: l' =>
      match dicts_of l' with
      | Some ds => Some (d :: ds)
      | None => None
      end
  | _ :: _ => None
  end.

(** The dicts a list starts with. *)
Fixpoint leading_dicts (l : list pyval) : list dict :=
  match l with
  | PDict d :: l' => d :: leading_dicts l'
  | _ => []
  end.

(** [json.load] hands out new dict objects: identities from [n] on. *)
Definition allocate (n : nat) (ds : list dict) : list obj :=
  imap (fun i d => mkobj (n + i) d) ds.

(** The dict [add_task] builds. *)
Definition new_task (task_id task_text : string)
    (deadline reminder_time : datetime) : dict :=
  <["id" := PStr task_id]>
  (<["task" := PStr task_text]>
  (<["deadline" := PStr (isoformat deadline)]>
  (<["reminder_time" := PStr (isoformat reminder_time)]>
  (<["completed" := PBool false]>
  (<["reminded" := PBool false]> ∅))))).

(** A sort that, when a comparison raises, leaves the list as it
    found it. *)
Definition sort_interrupted_ref (l : list (datetime * obj))
  : { l' | Permutation l' l } :=
  exist _ l (Permutation_refl l).

(** ** Sample data, for the scenarios and the concrete runs *)

(** Two clock readings. *)
Definition new_years_eve : datetime := mkdatetime 2025 12 31 12 0 0 0.
Definition half_past_eight : datetime := mkdatetime 2026 1 1 8 30 0 0.

(** Two tasks, reminders one hour ahead. *)
Definition task_later : dict :=
  new_task "1767225600000" "Write report"
    (mkdatetime 2026 1 2 10 0 0 0) (mkdatetime 2026 1 2 9 0 0 0).
Definition task_sooner : dict :=
  new_task "1767225660000" "Call the bank"
    (mkdatetime 2026 1 1 9 0 0 0) (mkdatetime 2026 1 1 8 0 0 0).

(** The application started on new year's eve on a file that holds the
    two tasks, the later deadline first. *)
Definition started : App :=
  mkApp [mkobj 0 task_later; mkobj 1 task_sooner] 2
    (Some (Text (json_dump_ref (PList [PDict task_later; PDict task_sooner]))))
    [mkrow (PStr "Write report") "02/01 10:00" "02/01 09:00" "Pending" false;
     mkrow (PStr "Call the bank") "01/01 09:00" "01/01 08:00" "Pending" false]
    [After 1000] IsList.

(** The same after the tick of 08:30 on 1 January. *)
Definition after_tick : App :=
  mkApp [mkobj 0 task_later;
         mkobj 1 (<["reminded" := PBool true]> task_sooner)] 2
    (Some (Text (json_dump_ref
                   (PList [PDict task_later;
                           PDict (<["reminded" := PBool true]> task_sooner)]))))
    [mkrow (PStr "Write report") "02/01 10:00" "02/01 09:00" "Pending" false;
     mkrow (PStr "Call the bank") "01/01 09:00" "01/01 08:00" "Reminded" false]
    [After 1000; Reminder 1 (PStr "Call the bank") "01/01 09:00"; After 1000]
    IsList.

(** The application started without a file (its first tick has written
    the empty list). *)
Definition started_empty : App :=
  mkApp [] 0 (Some (Text (json_dump_ref (PList [])))) [] [After 1000] IsList.

(** The text of a file that holds the dicts [l]. *)
Definition file_of (l : list dict) : option file_content :=
  Some (Text (json_dump_ref (PList (map PDict l)))).

(** Tasks as a file edited by hand could hold them: one without its
    [completed] field, one without its text, one whose reminder time
    and one whose deadline is no timestamp; and a record written before
    the [id] and [reminded] fields existed. *)
Definition task_no_completed : dict := delete "completed" task_later.
Definition task_no_text : dict := delete "task" task_later.
Definition task_bad_reminder : dict :=
  <["reminder_time" := PStr "soon"]> task_later.
Definition task_bad_deadline : dict :=
  <["deadline" := PStr "tomorrow"]> task_sooner.
Definition task_legacy : dict := delete "id" (delete "reminded" task_sooner).

(** [started] with other tasks in its list (the tree still shows the
    two rows). *)
Definition holding (l : list dict) : App := set_tasks (allocate 0 l) started.

Section ToDoApp.

(** [datetime.strptime(text, format)] and [datetime.fromisoformat(text)];
    [None] is [ValueError]. *)
Variable strptime : string -> string -> option datetime.
Variable fromisoformat : string -> option datetime.

(** [json.load] on the text of a file ([None] is [JSONDecodeError]) and
    the text [json.dump(value, f, indent=4)] writes. *)
Variable json_load : string -> option pyval.
Variable json_dump : pyval -> string.

(** The order in which [list.sort] leaves the elements when a comparison
    of two keys raises: all of them, in an order that is the business of
    the sorting algorithm. *)
Variable sort_interrupted :
  forall l : list (datetime * obj),
    { l' : list (datetime * obj) | Permutation l' l }.

(** [datetime.fromisoformat(v)] on a value read from a dict. *)
Definition parse_iso (v : pyval) : result datetime :=
  match v with
  | PStr s =>
      match fromisoformat s with
      | Some d => Ok d
      | None => Raise ValueError
      end
  | _ => Raise TypeError
  end.

(** [save_tasks]: the text of the whole of [self.tasks] replaces the
    file. *)
Definition save_tasks : M unit :=
  modify (fun st => set_task_file (Some (Text (json_dump (stored st)))) st).

(** [load_tasks]; [clock i] is [int(time.time() * 1000)] when the record
    at index [i] is repaired. *)
Definition load_tasks (clock : nat -> Z) : M pyval :=
  fun st =>
    match task_file st with
    | Some Undecodable => (st, Raise UnicodeDecodeError)
    | Some (Text text) =>
        match json_load text with
        | Some loaded => (st, repair clock loaded)
        | None => (st, Raise JSONDecodeError)
        end
    | None => (st, Ok (PList []))
    end.

(** The row [refresh_task_list] computes for one task. *)
Definition row_of (task : dict) : result row :=
  (let* completed := getitem task "completed" in
   let status :=
     if truthy completed then "Completed"
     else if truthy (get_default task "reminded" (PBool false))
          then "Reminded" else "Pending" in
   let* name := getitem task "task" in
   let* dl := getitem task "deadline" in
   let* deadline := parse_iso dl in
   let* rt := getitem task "reminder_time" in
   let* reminder_time := parse_iso rt in
   Ok (mkrow name (strftime_dm_HM deadline) (strftime_dm_HM reminder_time)
         status (truthy completed)))%res.

Fixpoint insert_rows (l : list obj) (tree : list row)
  : list row * result unit :=
  match l with
  | [] => (tree, Ok tt)
  | task :: l' =>
      match row_of (fields task) with
      | Ok r => insert_rows l' (tree ++ [r])
      | Raise e => (tree, Raise e)
      end
  end.

(** [refresh_task_list]: empties the tree, then one row per task. *)
Definition refresh_task_list : M unit :=
  fun st =>
    let '(tree, r) := insert_rows (tasks st) [] in
    (set_task_tree tree st, r).

(** The [try] block of [add_task]. *)
Definition parse_deadline (now : datetime) (deadline_text : string)
    (reminder_hours reminder_minutes : Z) : result (datetime * datetime) :=
  let current_year := year now in
  let deadline_with_year := str_of_int current_year +:+ " " +:+ deadline_text in
  match strptime deadline_with_year "%Y %d/%m %H:%M" with
  | None => Raise ValueError
  | Some deadline =>
      (let* reminder_time :=
         dt_sub deadline (timedelta reminder_hours reminder_minutes) in
       Ok (deadline, reminder_time))%res
  end.

(** [add_task].  [task_entry] and [deadline_entry] are the texts of the
    two entry widgets, [reminder_hours] and [reminder_minutes] the
    numbers chosen in the two menus, [now] is [datetime.now()] and
    [time_ms] is [int(time.time() * 1000)]. *)
Definition add_task (task_entry deadline_entry : string)
    (reminder_hours reminder_minutes : Z) (now : datetime) (time_ms : Z)
  : M unit :=
  (let task_text := strip task_entry in
   let deadline_text := strip deadline_entry in
   if String.eqb task_text "" then
     emit (ShowWarning "Input Error" "Task description cannot be empty.")
   else
     match parse_deadline now deadline_text reminder_hours reminder_minutes with
     | Raise e =>
         if is_ValueError e then
           emit (ShowWarning "Input Error"
                   "Invalid deadline format. Please use DD/MM HH:MM.")
         else raise e
     | Ok (deadline, reminder_time) =>
         let task_id := str_of_int time_ms in
         let* st := get_state in
         match tasks_is st with
         | IsList =>
             modify (fun st =>
               set_next_ref (S (next_ref st))
                 (set_tasks
                    (tasks st ++ [mkobj (next_ref st)
                       (new_task task_id task_text deadline reminder_time)])
                    st));;
             save_tasks;;
             refresh_task_list;;
             emit (ShowInfo "Task Added" "Task successfully added!")
         | _ => raise AttributeError      (* no [append] *)
         end
     end)%app.

(** The part the button handlers share: from the selected row of the
    tree ([None]: nothing selected) to an index into [self.tasks]. *)
Definition selected_index (what : string) (selection : option nat)
  : M (option nat) :=
  (let* st := get_state in
   match selection with
   | None =>
       emit (ShowWarning "Selection Error"
               ("Please select a task to " +:+ what +:+ "."));;
       ret None
   | Some i =>
       if (length (task_tree st) <=? i)%nat then
         emit (ShowError "Error" "Could not find the selected task.");;
         ret None
       else if (length (tasks st) <=? i)%nat then
         emit (ShowError "Error" "Selected task index is out of range.");;
         ret None
       else ret (Some i)
   end)%app.

(** [edit_task] up to the opening of the edit window: the task text is
    read for the entry ([KeyError] when there is none); the result is
    the task object the [save_edit] closure holds. *)
Definition edit_task (selection : option nat) : M (option nat) :=
  (let* i := selected_index "edit" selection in
   let* st := get_state in
   match i with
   | None => ret None
   | Some i =>
       match tasks st !! i with
       | None => ret None
       | Some selected_task =>
           let* original_task_text :=
             lift (getitem (fields selected_task) "task") in
           ret (Some (ref selected_task))
       end
   end)%app.

(** [save_edit], the Save button of the edit window opened on the object
    [selected_task]; [new_task_entry] is the text of its entry. *)
Definition save_edit (selected_task : nat) (new_task_entry : string)
  : M unit :=
  (let new_text := strip new_task_entry in
   if negb (String.eqb new_text "") then
     modify (fun st =>
       set_tasks
         (map (fun o =>
                 if (ref o =? selected_task)%nat
                 then setitem o "task" (PStr new_text) else o)
              (tasks st)) st);;
     save_tasks;;
     refresh_task_list;;
     emit (ShowInfo "Success" "Task updated successfully!")
   else
     emit (ShowWarning "Input Error" "Task cannot be empty."))%app.

(** [reset_reminder] *)
Definition reset_reminder (selection : option nat) : M unit :=
  (let* i := selected_index "reset reminder" selection in
   let* st := get_state in
   match i with
   | None => ret tt
   | Some i =>
       match tasks st !! i with
       | None => ret tt
       | Some selected_task =>
           if truthy (get_default (fields selected_task) "reminded"
                        (PBool false)) then
             modify (set_tasks
               (<[i := setitem selected_task "reminded" (PBool false)]>
                  (tasks st)));;
             save_tasks;;
             refresh_task_list;;
             emit (ShowInfo "Reminder Reset"
                     "Reminder status has been reset. You will be reminded again when the time comes.")
           else
             emit (ShowInfo "No Action Needed"
                     "This task hasn't been reminded yet.")
       end
   end)%app.

(** The key of [sort_tasks] for one task. *)
Definition deadline_key (task : obj) : result datetime :=
  (let* dl := getitem (fields task) "deadline" in parse_iso dl)%res.

Fixpoint with_keys (l : list obj) : result (list (datetime * obj)) :=
  match l with
  | [] => Ok []
  | task :: l' =>
      (let* k := deadline_key task in
       let* ks := with_keys l' in
       Ok ((k, task) :: ks))%res
  end.

(** [sort_tasks]: the keys are computed first; an exception among them
    leaves the list as it was.  Then the list is sorted; when some keys
    are naive and some have an offset, a comparison raises [TypeError]
    and the sort is left with the list rearranged. *)
Definition sort_tasks : M unit :=
  (let* st := get_state in
   match tasks_is st with
   | IsList =>
       let* keyed := lift (with_keys (tasks st)) in
       if mixed (map fst keyed) then
         modify (set_tasks (map snd (proj1_sig (sort_interrupted keyed))));;
         raise TypeError
       else
         modify (set_tasks (map snd (sort_keyed keyed)));;
         refresh_task_list;;
         emit (ShowInfo "Tasks Sorted"
                 "Tasks have been sorted by their deadline.")
   | _ => raise AttributeError        (* no [sort] *)
   end)%app.

(** [trigger_reminder]: the task name and the deadline are read first,
    then the channels fire. *)
Definition trigger_reminder (task : obj) : result event :=
  (let* task_name := getitem (fields task) "task" in
   let* dl := getitem (fields task) "deadline" in
   let* deadline := parse_iso dl in
   Ok (Reminder (ref task) task_name (strftime_dm_HM deadline)))%res.

(** One turn of the loop of [check_reminders]: the task afterwards and
    what was fired, or the exception that leaves the loop. *)
Definition remind_one (now : datetime) (task : obj)
  : result (obj * list event) :=
  (let* completed := getitem (fields task) "completed" in
   if negb (truthy completed)
      && negb (truthy (get_default (fields task) "reminded" (PBool false)))
   then
     match
       (let* rt := getitem (fields task) "reminder_time" in
        let* reminder_time := parse_iso rt in
        let* has_come := dt_leb reminder_time now in
        if has_come then
          let* ev := trigger_reminder task in
          Ok (setitem task "reminded" (PBool true), [ev])
        else Ok (task, []))
     with
     | Raise e =>
         if is_ValueError e then Ok (task, [])   (* except ValueError: continue *)
         else Raise e
     | r => r
     end
   else Ok (task, []))%res.

Fixpoint remind_all (now : datetime) (l : list obj)
  : list obj * list event * result unit :=
  match l with
  | [] => ([], [], Ok tt)
  | task :: l' =>
      match remind_one now task with
      | Ok (task', evs) =>
          let '(l'', evs', r) := remind_all now l' in
          (task' :: l'', (evs ++ evs')%list, r)
      | Raise e => (task :: l', [], Raise e)
      end
  end.

(** [check_reminders]; [now] is [datetime.now()]. *)
Definition check_reminders (now : datetime) : M unit :=
  (let* _ := (fun st =>
      let '(l, evs, r) := remind_all now (tasks st) in
      (add_log evs (set_tasks l st), r)) in
   save_tasks;;
   refresh_task_list;;
   emit (After 1000))%app.

(** [self.tasks = ...] with a list of dicts, new objects. *)
Definition install (records : list dict) (st : App) : App :=
  set_next_ref (next_ref st + length records)
    (set_tasks (allocate (next_ref st) records) st).

(** [ToDoApp.__init__], from [boot].  When what [load_tasks] returned is
    not a list of dicts, nor empty, [refresh_task_list] comes to an
    element, a key or a character that is no dict, and is left by
    [TypeError] at its subscript; the process ends there, and of such a
    list the state keeps the dicts before that element. *)
Definition init (clock : nat -> Z) (now : datetime) : M unit :=
  (let* loaded := load_tasks clock in
   match loaded with
   | PList l =>
       match dicts_of l with
       | Some records =>
           modify (install records);;
           refresh_task_list;;
           check_reminders now
       | None =>
           modify (install (leading_dicts l));;
           refresh_task_list;;
           raise TypeError
       end
   | PDict d =>
       if bool_decide (d = ∅) then
         modify (set_tasks_is IsEmptyDict);;
         refresh_task_list;;
         check_reminders now
       else refresh_task_list;; raise TypeError
   | PStr s =>
       if String.eqb s "" then
         modify (set_tasks_is IsEmptyStr);;
         refresh_task_list;;
         check_reminders now
       else refresh_task_list;; raise TypeError
   | _ => refresh_task_list;; raise TypeError
   end)%app.

(** [mark_completed]: the flag is read first ([KeyError] when the task
    has none), negated and written back. *)
Definition mark_completed (selection : option nat) : M unit :=
  (let* i := selected_index "mark as completed" selection in
   let* st := get_state in
   match i with
   | None => ret tt
   | Some i =>
       match tasks st !! i with
       | None => ret tt
       | Some selected_task =>
           let* completed := lift (getitem (fields selected_task) "completed") in
           let toggled := negb (truthy completed) in
           modify (set_tasks
             (<[i := setitem selected_task "completed" (PBool toggled)]>
                (tasks st)));;
           save_tasks;;
           refresh_task_list;;
           emit (ShowInfo "Success"
                   ("Task marked as "
                    +:+ (if toggled then "completed" else "pending") +:+ "!"))
       end
   end)%app.

(** [delete_task]; [confirmed] is the answer to the "Confirm Delete"
    question (the question itself is not kept in the log).  The task
    text is read for the question first ([KeyError] when there is
    none). *)
Definition delete_task (selection : option nat) (confirmed : bool) : M unit :=
  (let* i := selected_index "delete" selection in
   let* st := get_state in
   match i with
   | None => ret tt
   | Some i =>
       match tasks st !! i with
       | None => ret tt
       | Some selected_task =>
           let* task_text := lift (getitem (fields selected_task) "task") in
           if confirmed then
             modify (set_tasks (delete i (tasks st)));;
             save_tasks;;
             refresh_task_list;;
             emit (ShowInfo "Success" "Task deleted successfully!")
           else ret tt
       end
   end)%app.

(** [get_selected_task]: the task of the selected row, or [None]; it
    shows nothing and raises nothing. *)
Definition get_selected_task (selection : option nat) (st : App) : option obj :=
  match selection with
  | None => None
  | Some i =>
      if (length (task_tree st) <=? i)%nat then None
      else if (i <? length (tasks st))%nat then tasks st !! i
      else None
  end.

(** What the event loop runs: a button pressed, the Save button of an
    edit window (on the object the window holds), or the timer. *)
Inductive action : Type :=
| AddTask (task_entry deadline_entry : string)
    (reminder_hours reminder_minutes : Z) (now : datetime) (time_ms : Z)
| EditTask (selection : option nat)
| SaveEdit (selected_task : nat) (new_task_entry : string)
| DeleteTask (selection : option nat) (confirmed : bool)
| MarkCompleted (selection : option nat)
| ResetReminder (selection : option nat)
| SortTasks
| Tick (now : datetime).

(** One turn of the event loop: an exception that leaves a handler is
    reported and the loop goes on with the state as the handler left
    it. *)
Definition run (a : action) (st : App) : App :=
  match a with
  | AddTask task_entry deadline_entry reminder_hours reminder_minutes now
      time_ms =>
      fst (add_task task_entry deadline_entry reminder_hours reminder_minutes
             now time_ms st)
  | EditTask selection => fst (edit_task selection st)
  | SaveEdit selected_task new_task_entry =>
      fst (save_edit selected_task new_task_entry st)
  | DeleteTask selection confirmed => fst (delete_task selection confirmed st)
  | MarkCompleted selection => fst (mark_completed selection st)
  | ResetReminder selection => fst (reset_reminder selection st)
  | SortTasks => fst (sort_tasks st)
  | Tick now => fst (check_reminders now st)
  end.

(** The states the application goes through once its constructor has
    returned. *)
Inductive reachable : App -> Prop :=
| reachable_init f clock now st :
    init clock now (boot f) = (st, Ok tt) -> reachable st
| reachable_run st a : reachable st -> reachable (run a st).

(** The exception a turn of the event loop reports, if any. *)
Definition exn_of {A} (r : result A) : option exn :=
  match r with
  | Ok _ => None
  | Raise e => Some e
  end.

Definition raised (a : action) (st : App) : option exn :=
  match a with
  | AddTask task_entry deadline_entry reminder_hours reminder_minutes now
      time_ms =>
      exn_of (snd (add_task task_entry deadline_entry reminder_hours
                     reminder_minutes now time_ms st))
  | EditTask selection => exn_of (snd (edit_task selection st))
  | SaveEdit selected_task new_task_entry =>
      exn_of (snd (save_edit selected_task new_task_entry st))
  | DeleteTask selection confirmed =>
      exn_of (snd (delete_task selection confirmed st))
  | MarkCompleted selection => exn_of (snd (mark_completed selection st))
  | ResetReminder selection => exn_of (snd (reset_reminder selection st))
  | SortTasks => exn_of (snd (sort_tasks st))
  | Tick now => exn_of (snd (check_reminders now st))
  end.

(** [o'] is [o] after at most one write to one of the three fields the
    handlers write. *)
Definition field_written (o o' : obj) : Prop :=
  o' = o
  \/ exists k v,
       (k = "completed" \/ k = "reminded" \/ k = "task")
       /\ o' = setitem o k v.

(** What the turn [a] of the event loop may have written to the object
    [o], giving [o']: nothing; or its [completed] field or its text; or
    [True] to its [reminded] field; or [False] to it, by
    [reset_reminder]. *)
Definition written_by (a : action) (o o' : obj) : Prop :=
  o' = o
  \/ (exists v, o' = setitem o "completed" v)
  \/ (exists v, o' = setitem o "task" v)
  \/ o' = setitem o "reminded" (PBool true)
  \/ (o' = setitem o "reminded" (PBool false)
      /\ exists selection, a = ResetReminder selection).

(** The task can be shown: [refresh_task_list] computes its row. *)
Definition readable (task : dict) : Prop := exists r, row_of task = Ok r.

(** The file mirrors the list: it holds the text of [self.tasks]. *)
Definition synced (st : App) : Prop :=
  task_file st = Some (Text (json_dump (stored st))).

(** ** The data model *)

(** A Task of the data model: the six fields, the four texts as strings,
    the two flags as booleans, a deadline that reads as a timestamp, and
    a reminder time that, when it reads as a timestamp, has no offset
    (the clock has none). *)
Definition is_task (task : dict) : Prop :=
  (exists s, task !! "id" = Some (PStr s))
  /\ (exists s, task !! "task" = Some (PStr s))
  /\ (exists s d, task !! "deadline" = Some (PStr s) /\ fromisoformat s = Some d)
  /\ (exists s, task !! "reminder_time" = Some (PStr s)
                /\ forall d, fromisoformat s = Some d -> tzinfo d = None)
  /\ (exists b, task !! "completed" = Some (PBool b))
  /\ (exists b, task !! "reminded" = Some (PBool b)).

(** The text under [k], where it reads as a timestamp, has no offset. *)
Definition naive_time (k : string) (task : dict) : Prop :=
  forall s d,
    task !! k = Some (PStr s) -> fromisoformat s = Some d -> tzinfo d = None.

(** The two timestamps of the task, where they read as such, have no
    offset. *)
Definition naive_times (task : dict) : Prop :=
  naive_time "deadline" task /\ naive_time "reminder_time" task.

(** The task is due at [now]: not completed, not reminded yet, and its
    reminder time, read as a timestamp, has come. *)
Definition due (now : datetime) (task : dict) : Prop :=
  task !! "completed" = Some (PBool false)
  /\ task !! "reminded" = Some (PBool false)
  /\ exists s reminder_time,
       task !! "reminder_time" = Some (PStr s)
       /\ fromisoformat s = Some reminder_time
       /\ dt_leb reminder_time now = Ok true.

(** The objects of [self.tasks] are distinct and older than the next
    identity handed out. *)
Definition refs_fresh (st : App) : Prop :=
  NoDup (map ref (tasks st))
  /\ Forall (fun r => (r < next_ref st)%nat) (map ref (tasks st)).

(** The reminders among some events, as the objects they are for. *)
Definition reminded_objects (es : list event) : list nat :=
  flat_map (fun e => match e with Reminder r _ _ => [r] | _ => [] end) es.

(** * Properties *)

(** ** The plumbing: what [save_tasks] and [refresh_task_list] touch *)

Lemma refresh_task_list_frame st :
  exists tree r,
    refresh_task_list st = (set_task_tree tree st, r).
Proof.
  unfold refresh_task_list.
  destruct (insert_rows (tasks st) []) as [tree r]. eauto.
Qed.

Lemma save_tasks_eq st :
  save_tasks st
  = (set_task_file (Some (Text (json_dump (stored st)))) st, Ok tt).
Proof. reflexivity. Qed.

(** What [self.tasks] is worth depends on the list and on what it is. *)
Lemma stored_eq st st' :
  tasks st' = tasks st -> tasks_is st' = tasks_is st -> stored st' = stored st.
Proof. unfold stored. by intros -> ->. Qed.

(** A mutation followed by [save_tasks], [refresh_task_list] and a
    message: whatever the refresh does, the list is the mutated one, the
    file mirrors it, and nothing is taken from the log. *)
Lemma mutate_save_refresh (f : App -> App) (e : event) st :
  let st' := fst ((modify f;; save_tasks;; refresh_task_list;; emit e)%app st) in
  tasks st' = tasks (f st)
  /\ next_ref st' = next_ref (f st)
  /\ task_file st' = Some (Text (json_dump (stored st')))
  /\ exists es, log st' = (log (f st) ++ es)%list.
Proof.
  unfold bind, modify, save_tasks, emit; simpl.
  destruct (refresh_task_list_frame
              (set_task_file (Some (Text (json_dump (stored (f st))))) (f st)))
    as (tree & r & ->).
  destruct r; simpl; repeat split; eauto.
  exists []. by rewrite app_nil_r.
Qed.

Lemma mutate_save_refresh_is (f : App -> App) (e : event) st :
  tasks_is (fst ((modify f;; save_tasks;; refresh_task_list;; emit e)%app st))
  = tasks_is (f st).
Proof.
  unfold bind, modify, save_tasks, emit; simpl.
  destruct (refresh_task_list_frame
              (set_task_file (Some (Text (json_dump (stored (f st))))) (f st)))
    as (tree & r & ->).
  by destruct r.
Qed.

(** ** The calendar *)

Lemma all_from_spec k f : forall n,
  all_from k n f = true ->
  forall i, n <= i < n + Z.of_nat k -> f i = true.
Proof.
  induction k as [| k IH]; simpl; intros n H i Hi; [lia |].
  apply andb_true_iff in H as [H1 H2].
  destruct (Z.eq_dec i n) as [-> | Hne]; [done |].
  apply (IH (n + 1)); [done | lia].
Qed.

Lemma month_day_checked leapyear :
  all_from 365 0 (month_day_ok leapyear) = true.
Proof. destruct leapyear; vm_compute; reflexivity. Qed.

Lemma day_of_month_checked leapyear :
  all_from 12 1 (fun m => all_from 31 1 (day_of_month_ok leapyear m)) = true.
Proof. destruct leapyear; vm_compute; reflexivity. Qed.

(** The year [400a + 100b + 4c + e + 1]: the days before it, and whether
    it is a leap year. *)
Lemma days_before_year_digits a b c e :
  0 <= b <= 3 -> 0 <= c <= 24 -> 0 <= e <= 3 ->
  days_before_year (400 * a + 100 * b + 4 * c + e + 1)
  = 146097 * a + 36524 * b + 1461 * c + 365 * e.
Proof.
  intros Hb Hc He. unfold days_before_year. cbv zeta.
  Z.div_mod_to_equations. lia.
Qed.

Lemma is_leap_digits a b c e :
  0 <= b <= 3 -> 0 <= c <= 24 -> 0 <= e <= 3 ->
  is_leap (400 * a + 100 * b + 4 * c + e + 1)
  = (e =? 3) && (negb (c =? 24) || (b =? 3)).
Proof.
  intros Hb Hc He. unfold is_leap.
  destruct (Z.eqb_spec e 3), (Z.eqb_spec c 24), (Z.eqb_spec b 3);
    repeat match goal with
    | |- context [?x mod ?k =? 0] => destruct (Z.eqb_spec (x mod k) 0)
    end; simpl; try reflexivity;
    exfalso; Z.div_mod_to_equations; lia.
Qed.

Lemma days_in_month_alt y m :
  days_in_month y m
  = DAYS_IN_MONTH m + (if (m =? 2) && is_leap y then 1 else 0).
Proof.
  unfold days_in_month. destruct (Z.eqb_spec m 2) as [-> |]; simpl; [| lia].
  destruct (is_leap y); reflexivity.
Qed.

Lemma month_day_spec leapyear r :
  0 <= r <= 364 ->
  exists m d,
    month_day leapyear r = (m, d)
    /\ 1 <= m <= 12
    /\ 1 <= d <= DAYS_IN_MONTH m + (if (m =? 2) && leapyear then 1 else 0)
    /\ DAYS_BEFORE_MONTH m + (if (2 <? m) && leapyear then 1 else 0) + d
       = r + 1.
Proof.
  intros Hr.
  pose proof (all_from_spec _ _ _ (month_day_checked leapyear) r ltac:(lia))
    as H.
  unfold month_day_ok in H. destruct (month_day leapyear r) as [m d].
  repeat (apply andb_true_iff in H as [H ?]).
  exists m, d. repeat split; lia.
Qed.

Lemma day_of_month_spec leapyear m d :
  1 <= m <= 12 ->
  1 <= d <= DAYS_IN_MONTH m + (if (m =? 2) && leapyear then 1 else 0) ->
  let r := DAYS_BEFORE_MONTH m + (if (2 <? m) && leapyear then 1 else 0)
           + d - 1 in
  0 <= r <= 364 + (if leapyear then 1 else 0)
  /\ (r = 365 -> m = 12 /\ d = 31)
  /\ (r <> 365 -> month_day leapyear r = (m, d)).
Proof.
  intros Hm Hd r.
  assert (d <= 31).
  { assert (DAYS_IN_MONTH m <= 31 /\ (m = 2 -> DAYS_IN_MONTH m = 28)) as [? ?].
    { assert (m = 1 \/ m = 2 \/ m = 3 \/ m = 4 \/ m = 5 \/ m = 6 \/ m = 7
              \/ m = 8 \/ m = 9 \/ m = 10 \/ m = 11 \/ m = 12) as Hc by lia.
      repeat destruct Hc as [-> | Hc]; try subst m; simpl; lia. }
    destruct (Z.eqb_spec m 2); destruct leapyear; simpl in Hd; lia. }
  pose proof (all_from_spec _ _ _ (day_of_month_checked leapyear) m ltac:(lia))
    as H1.
  pose proof (all_from_spec _ _ _ H1 d ltac:(lia)) as Hok.
  unfold day_of_month_ok in Hok. cbv zeta in Hok. fold r in Hok.
  apply orb_true_iff in Hok as [Hok | Hok]; [lia |].
  apply andb_true_iff in Hok as [Hok H3].
  apply andb_true_iff in Hok as [Hok H2].
  split; [lia |].
  destruct (Z.eqb_spec r 365).
  - split; [| done]. intros _. apply andb_true_iff in H3. lia.
  - split; [done |]. intros _. destruct (month_day leapyear r) as [m' d'].
    apply andb_true_iff in H3. f_equal; lia.
Qed.

(** [ord2ymd] at the day [r] (from 0, not the 366th) of the year
    [400a + 100b + 4c + e + 1]. *)
Lemma ord2ymd_digits a b c e r :
  0 <= b <= 3 -> 0 <= c <= 24 -> 0 <= e <= 3 -> 0 <= r <= 364 ->
  ord2ymd (146097 * a + 36524 * b + 1461 * c + 365 * e + r + 1)
  = (let '(m, d) := month_day ((e =? 3) && (negb (c =? 24) || (b =? 3))) r in
     (400 * a + 100 * b + 4 * c + e + 1, m, d)).
Proof.
  intros Hb Hc He Hr. unfold ord2ymd, DI400Y, DI100Y, DI4Y. cbv zeta.
  replace (146097 * a + 36524 * b + 1461 * c + 365 * e + r + 1 - 1)
    with (146097 * a + (36524 * b + 1461 * c + 365 * e + r)) by lia.
  rewrite <- (Z.div_unique_pos _ 146097 a (36524 * b + 1461 * c + 365 * e + r))
    by lia.
  rewrite <- (Z.mod_unique_pos _ 146097 a (36524 * b + 1461 * c + 365 * e + r))
    by lia.
  rewrite <- (Z.div_unique_pos (36524 * b + 1461 * c + 365 * e + r) 36524 b
                (1461 * c + 365 * e + r)) by lia.
  rewrite <- (Z.mod_unique_pos (36524 * b + 1461 * c + 365 * e + r) 36524 b
                (1461 * c + 365 * e + r)) by lia.
  rewrite <- (Z.div_unique_pos (1461 * c + 365 * e + r) 1461 c (365 * e + r))
    by lia.
  rewrite <- (Z.mod_unique_pos (1461 * c + 365 * e + r) 1461 c (365 * e + r))
    by lia.
  rewrite <- (Z.div_unique_pos (365 * e + r) 365 e r) by lia.
  rewrite <- (Z.mod_unique_pos (365 * e + r) 365 e r) by lia.
  destruct (Z.eqb_spec e 4); [lia |]. destruct (Z.eqb_spec b 4); [lia |].
  simpl orb. cbv iota.
  destruct (month_day _ r) as [m d]. do 2 f_equal. lia.
Qed.

(** [ord2ymd] at the 366th day of the leap year [400a + 100b + 4c + 4]. *)
Lemma ord2ymd_digits_last a b c :
  0 <= b <= 3 -> 0 <= c <= 24 -> c <> 24 \/ b = 3 ->
  ord2ymd (146097 * a + 36524 * b + 1461 * c + 365 * 3 + 365 + 1)
  = (400 * a + 100 * b + 4 * c + 3 + 1, 12, 31).
Proof.
  intros Hb Hc Hleap. unfold ord2ymd, DI400Y, DI100Y, DI4Y. cbv zeta.
  destruct (Z.eq_dec c 24) as [-> | Hc24].
  - assert (b = 3) as -> by lia.
    replace (146097 * a + 36524 * 3 + 1461 * 24 + 365 * 3 + 365 + 1 - 1)
      with (146097 * a + 146096) by lia.
    rewrite <- (Z.div_unique_pos _ 146097 a 146096) by lia.
    rewrite <- (Z.mod_unique_pos _ 146097 a 146096) by lia.
    change (146096 / 36524) with 4. simpl. do 2 f_equal.
    Z.div_mod_to_equations. lia.
  - replace (146097 * a + 36524 * b + 1461 * c + 365 * 3 + 365 + 1 - 1)
      with (146097 * a + (36524 * b + 1461 * c + 1460)) by lia.
    rewrite <- (Z.div_unique_pos _ 146097 a (36524 * b + 1461 * c + 1460))
      by lia.
    rewrite <- (Z.mod_unique_pos _ 146097 a (36524 * b + 1461 * c + 1460))
      by lia.
    rewrite <- (Z.div_unique_pos (36524 * b + 1461 * c + 1460) 36524 b
                  (1461 * c + 1460)) by lia.
    rewrite <- (Z.mod_unique_pos (36524 * b + 1461 * c + 1460) 36524 b
                  (1461 * c + 1460)) by lia.
    rewrite <- (Z.div_unique_pos (1461 * c + 1460) 1461 c 1460) by lia.
    rewrite <- (Z.mod_unique_pos (1461 * c + 1460) 1461 c 1460) by lia.
    change (1460 / 365) with 4. simpl. do 2 f_equal. lia.
Qed.

(** The place of a day in the calendar: every day number from 1 on is
    the day [r] (from 0) of a year [400a + 100b + 4c + e + 1]. *)
Lemma day_digits n :
  1 <= n ->
  exists a b c e r,
    n = 146097 * a + 36524 * b + 1461 * c + 365 * e + r + 1
    /\ 0 <= a /\ 0 <= b <= 3 /\ 0 <= c <= 24 /\ 0 <= e <= 3
    /\ (0 <= r <= 364 \/ (r = 365 /\ e = 3 /\ (c <> 24 \/ b = 3))).
Proof.
  intros Hn.
  set (a := (n - 1) / 146097). set (r1 := (n - 1) mod 146097).
  set (b := r1 / 36524). set (r2 := r1 mod 36524).
  set (c := r2 / 1461). set (r3 := r2 mod 1461).
  set (e := r3 / 365). set (r4 := r3 mod 365).
  assert (n - 1 = 146097 * a + r1 /\ 0 <= r1 < 146097 /\ 0 <= a) as (E1 & B1 & Ha).
  { subst a r1. Z.div_mod_to_equations. lia. }
  assert (r1 = 36524 * b + r2 /\ 0 <= r2 < 36524) as (E2 & B2).
  { subst b r2. Z.div_mod_to_equations. lia. }
  assert (r2 = 1461 * c + r3 /\ 0 <= r3 < 1461) as (E3 & B3).
  { subst c r3. Z.div_mod_to_equations. lia. }
  assert (r3 = 365 * e + r4 /\ 0 <= r4 < 365) as (E4 & B4).
  { subst e r4. Z.div_mod_to_equations. lia. }
  clearbody a r1 b r2 c r3 e r4.
  destruct (Z.eq_dec b 4) as [Hb4 | Hb4].
  { exists a, 3, 24, 3, 365. lia. }
  destruct (Z.eq_dec e 4) as [He4 | He4].
  { exists a, b, c, 3, 365. lia. }
  exists a, b, c, e, r4. lia.
Qed.

Lemma ord2ymd_at_digits a b c e r :
  0 <= b <= 3 -> 0 <= c <= 24 -> 0 <= e <= 3 ->
  0 <= r <= 364 \/ (r = 365 /\ e = 3 /\ (c <> 24 \/ b = 3)) ->
  let n := 146097 * a + 36524 * b + 1461 * c + 365 * e + r + 1 in
  let y := 400 * a + 100 * b + 4 * c + e + 1 in
  exists m d,
    ord2ymd n = (y, m, d)
    /\ 1 <= m <= 12 /\ 1 <= d <= days_in_month y m
    /\ ymd2ord y m d = n.
Proof.
  intros Hb Hc He Hr n y.
  pose proof (days_before_year_digits a b c e Hb Hc He) as Hdby.
  pose proof (is_leap_digits a b c e Hb Hc He) as Hleap.
  fold y in Hdby, Hleap.
  unfold ymd2ord, days_before_month. rewrite Hdby.
  setoid_rewrite days_in_month_alt. rewrite Hleap.
  destruct Hr as [Hr | (-> & -> & Hl)].
  - subst n. rewrite ord2ymd_digits by done.
    destruct (month_day_spec ((e =? 3) && (negb (c =? 24) || (b =? 3))) r Hr)
      as (m & d & -> & Hm & Hd & Hn).
    exists m, d. repeat split; lia.
  - subst n y. rewrite ord2ymd_digits_last by done.
    exists 12, 31.
    assert (negb (c =? 24) || (b =? 3) = true) as ->.
    { destruct (Z.eqb_spec c 24), (Z.eqb_spec b 3); simpl; try done. lia. }
    simpl. repeat split; lia.
Qed.

(** Day [n] of the calendar, [1 <= n <= MAXORDINAL], is a date that
    exists, and [ymd2ord] of it is [n]. *)
Lemma ord2ymd_valid n :
  1 <= n <= MAXORDINAL ->
  exists y m d,
    ord2ymd n = (y, m, d)
    /\ 1 <= y <= 9999 /\ 1 <= m <= 12 /\ 1 <= d <= days_in_month y m
    /\ ymd2ord y m d = n.
Proof.
  unfold MAXORDINAL. intros Hn.
  destruct (day_digits n ltac:(lia))
    as (a & b & c & e & r & En & Ha & Hb & Hc & He & Hr).
  destruct (ord2ymd_at_digits a b c e r Hb Hc He Hr)
    as (m & d & Ho & Hm & Hd & Hy).
  rewrite <- En in Ho, Hy.
  exists (400 * a + 100 * b + 4 * c + e + 1), m, d.
  repeat split; try done; lia.
Qed.

(** A date that exists has a day number between 1 and [MAXORDINAL], and
    [ord2ymd] of that number is the date. *)
Lemma ymd2ord_valid y m d :
  1 <= y <= 9999 -> 1 <= m <= 12 -> 1 <= d <= days_in_month y m ->
  1 <= ymd2ord y m d <= MAXORDINAL
  /\ ord2ymd (ymd2ord y m d) = (y, m, d).
Proof.
  unfold MAXORDINAL. intros Hy Hm Hd.
  set (a := (y - 1) / 400). set (ry := (y - 1) mod 400).
  set (b := ry / 100). set (rb := ry mod 100).
  set (c := rb / 4). set (e := rb mod 4).
  assert (y = 400 * a + 100 * b + 4 * c + e + 1
          /\ 0 <= a /\ 0 <= b <= 3 /\ 0 <= c <= 24 /\ 0 <= e <= 3)
    as (Ey & Ha & Hb & Hc & He).
  { subst a b c e rb ry. Z.div_mod_to_equations. lia. }
  clearbody a b c e. clear ry rb. subst y.
  pose proof (days_before_year_digits a b c e Hb Hc He) as Hdby.
  pose proof (is_leap_digits a b c e Hb Hc He) as Hleap.
  rewrite days_in_month_alt, Hleap in Hd.
  unfold ymd2ord, days_before_month. rewrite Hdby, Hleap.
  set (L := (e =? 3) && (negb (c =? 24) || (b =? 3))) in *.
  destruct (day_of_month_spec L m d Hm Hd) as (Hr & Hlast & Hmd).
  set (r := DAYS_BEFORE_MONTH m + (if (2 <? m) && L then 1 else 0) + d - 1) in *.
  assert (L = true -> e = 3 /\ (c <> 24 \/ b = 3)) as HL.
  { subst L. intros HL. apply andb_true_iff in HL as [H1 H2].
    apply orb_true_iff in H2 as [H2 | H2].
    - apply negb_true_iff in H2. lia.
    - lia. }
  replace (146097 * a + 36524 * b + 1461 * c + 365 * e
           + (DAYS_BEFORE_MONTH m + (if (2 <? m) && L then 1 else 0)) + d)
    with (146097 * a + 36524 * b + 1461 * c + 365 * e + r + 1)
    by (subst r; lia).
  split.
  - clear Hlast Hmd Hd Hleap Hdby. clearbody r L.
    assert (a <= 23 \/ a = 24) as [? | ->] by lia;
      [destruct L; lia |].
    assert (b <= 2 \/ b = 3) as [? | ->] by lia;
      [destruct L; lia |].
    assert (c <= 23 \/ c = 24) as [? | ->] by lia;
      [destruct L; lia |].
    destruct L; [specialize (HL eq_refl) |]; lia.
  - destruct (Z.eq_dec r 365) as [E | E].
    + destruct (Hlast E) as [-> ->].
      assert (L = true) as HLt by (destruct L; [done | lia]).
      destruct (HL HLt) as [-> Hcb]. rewrite E.
      by rewrite ord2ymd_digits_last.
    + assert (0 <= r <= 364) as Hr'
        by (clear -Hr E; clearbody r L; destruct L; lia).
      rewrite ord2ymd_digits by done. fold L. by rewrite (Hmd E).
Qed.

(** Subtraction of a delta that is not negative: when the result is not
    before day 1, it is a datetime that exists, exactly [td] seconds
    earlier on the time line, with the same microseconds. *)
Lemma dt_sub_spec d td :
  valid_datetime d -> 0 <= td -> 86400 <= timeline d - td ->
  exists r,
    dt_sub d td = Ok r
    /\ valid_datetime r
    /\ timeline r = timeline d - td
    /\ microsecond r = microsecond d.
Proof.
  intros (Hy & Hm & Hd & Hh & Hmi & Hs & Hus) Htd Hrange.
  destruct (ymd2ord_valid _ _ _ Hy Hm Hd) as [Hord _].
  unfold dt_sub. unfold timeline in *. fold (toordinal d) in Hord.
  remember (toordinal d * 86400 + hour d * 3600 + minute d * 60
            + second d - td) as total eqn:Htotal.
  assert (total = 86400 * (total / 86400) + total mod 86400
          /\ 0 <= total mod 86400 < 86400) as [Et Hsecs].
  { Z.div_mod_to_equations. lia. }
  remember (total / 86400) as days eqn:Hdays.
  remember (total mod 86400) as secs eqn:Hsecs'.
  assert (1 <= days <= MAXORDINAL) as Hrg by (unfold MAXORDINAL in *; lia).
  destruct (Z.ltb_spec 0 days); [| lia].
  destruct (Z.leb_spec days MAXORDINAL); [| lia]. simpl andb. cbv iota.
  destruct (ord2ymd_valid days Hrg)
    as (y & m & dd & -> & Hy' & Hm' & Hd' & Hn).
  eexists. split; [reflexivity |].
  unfold valid_datetime, toordinal. simpl.
  rewrite Hn. clear Hdays Hsecs' Hn Hord.
  repeat split; try lia; Z.div_mod_to_equations; lia.
Qed.

(** Whenever the subtraction gives a result, it is a datetime that
    exists, exactly [td] seconds earlier on the time line. *)
Lemma dt_sub_sound d td r :
  valid_datetime d -> dt_sub d td = Ok r ->
  valid_datetime r /\ timeline r = timeline d - td
  /\ microsecond r = microsecond d.
Proof.
  intros (Hy & Hm & Hd & Hh & Hmi & Hs & Hus). unfold dt_sub, timeline.
  remember (toordinal d * 86400 + hour d * 3600 + minute d * 60
            + second d - td) as total eqn:Htotal.
  assert (total = 86400 * (total / 86400) + total mod 86400
          /\ 0 <= total mod 86400 < 86400) as [Et Hsecs].
  { Z.div_mod_to_equations. lia. }
  remember (total / 86400) as days eqn:Hdays.
  remember (total mod 86400) as secs eqn:Hsecs'.
  destruct (Z.ltb_spec 0 days); simpl; [| done].
  destruct (Z.leb_spec days MAXORDINAL); simpl; [| done].
  destruct (ord2ymd_valid days ltac:(lia))
    as (y & m & dd & -> & Hy' & Hm' & Hd' & Hn).
  intros [= <-]. unfold valid_datetime, toordinal. simpl.
  rewrite Hn. clear Hdays Hsecs' Hn.
  repeat split; try lia; Z.div_mod_to_equations; lia.
Qed.

Lemma dt_sub_tzinfo d td r : dt_sub d td = Ok r -> tzinfo r = tzinfo d.
Proof.
  unfold dt_sub.
  destruct (_ && _); [| done]. destruct (ord2ymd _) as [[y m] dd].
  by intros [= <-].
Qed.


(** Scenario A, for every year: one hour before 09:00 on 25 December is
    08:00 on 25 December. *)
Lemma dt_sub_scenario_A y :
  1 <= y <= 9999 ->
  dt_sub (mkdatetime y 12 25 9 0 0 0) (timedelta 1 0)
  = Ok (mkdatetime y 12 25 8 0 0 0).
Proof.
  intros Hy.
  assert (1 <= 25 <= days_in_month y 12) as Hd
    by (rewrite days_in_month_alt; simpl; lia).
  destruct (ymd2ord_valid y 12 25 Hy ltac:(lia) Hd) as [Hord Hinv].
  unfold dt_sub, toordinal, timedelta. simpl year. simpl month. simpl day.
  simpl hour. simpl minute. simpl second. simpl microsecond.
  set (n := ymd2ord y 12 25) in *.
  replace (n * 86400 + 9 * 3600 + 0 * 60 + 0 - (1 * 3600 + 0 * 60))
    with (86400 * n + 28800) by lia.
  rewrite <- (Z.div_unique_pos (86400 * n + 28800) 86400 n 28800) by lia.
  rewrite <- (Z.mod_unique_pos (86400 * n + 28800) 86400 n 28800) by lia.
  destruct (Z.ltb_spec 0 n); [| lia].
  destruct (Z.leb_spec n MAXORDINAL); [| lia]. simpl andb. cbv iota.
  rewrite Hinv. reflexivity.
Qed.

(** ** Validation in [add_task] *)

(** C8. When the description is empty once trimmed, or the deadline text
    (with the current year in front) is refused by [strptime], [add_task]
    creates no task: the list and the file are as before, the handler
    returns, and the one thing that happened is an "Input Error" warning
    shown to the user. *)
Theorem add_task_invalid_input_unchanged
    (task_entry deadline_entry : string) (reminder_hours reminder_minutes : Z)
    (now : datetime) (time_ms : Z) (st : App) :
  strip task_entry = ""
  \/ strptime (str_of_int (year now) +:+ " " +:+ strip deadline_entry)
       "%Y %d/%m %H:%M" = None ->
  exists message,
    add_task task_entry deadline_entry reminder_hours reminder_minutes
      now time_ms st
    = (add_log [ShowWarning "Input Error" message] st, Ok tt)
    /\ tasks (add_log [ShowWarning "Input Error" message] st) = tasks st
    /\ task_file (add_log [ShowWarning "Input Error" message] st)
       = task_file st.
Proof.
  intros H. unfold add_task.
  destruct (String.eqb (strip task_entry) "") eqn:E.
  - eexists. split; [reflexivity | split; reflexivity].
  - destruct H as [H | H].
    + rewrite H in E. discriminate.
    + unfold parse_deadline. rewrite H.
      eexists. split; [reflexivity | split; reflexivity].
Qed.

(** ** [reset_reminder] *)

Lemma selected_index_in_range st what i :
  (i < length (task_tree st))%nat -> (i < length (tasks st))%nat ->
  selected_index what (Some i) st = (st, Ok (Some i)).
Proof.
  intros H1 H2. unfold selected_index, bind, get_state, ret.
  destruct (Nat.leb_spec (length (task_tree st)) i); [lia |].
  destruct (Nat.leb_spec (length (tasks st)) i); [lia |].
  reflexivity.
Qed.


(** ** Editing *)

(** The edit window opened on the selected row holds the object at that
    index of the list; no window opens on a task without a text. *)
Lemma edit_task_selected st i task :
  (i < length (task_tree st))%nat ->
  tasks st !! i = Some task ->
  edit_task (Some i) st
  = (st, match fields task !! "task" with
         | Some _ => Ok (Some (ref task))
         | None => Raise (KeyError "task")
         end).
Proof.
  intros Htree Hi. unfold edit_task.
  pose proof (lookup_lt_Some _ _ _ Hi) as Hlen.
  unfold bind at 1. rewrite (selected_index_in_range st _ i Htree Hlen).
  unfold bind, get_state, ret, lift, getitem. rewrite Hi.
  by destruct (fields task !! "task").
Qed.

(** C10. Saving an edit with a description that is not empty once
    trimmed: the list keeps its length and its objects in their places;
    the object the edit window holds gets the trimmed text as its
    description and keeps every other field; every other object is
    untouched. *)
Theorem save_edit_frame (st : App) (selected_task : nat) (new_task_entry : string) :
  strip new_task_entry <> "" ->
  let st' := fst (save_edit selected_task new_task_entry st) in
  length (tasks st') = length (tasks st)
  /\ forall (i : nat) (o : obj),
       tasks st !! i = Some o ->
       exists o',
         tasks st' !! i = Some o'
         /\ ref o' = ref o
         /\ (ref o <> selected_task -> o' = o)
         /\ (ref o = selected_task ->
             fields o' !! "task" = Some (PStr (strip new_task_entry)))
         /\ (forall k, k <> "task" -> fields o' !! k = fields o !! k).
Proof.
  intros Hne. unfold save_edit.
  destruct (String.eqb_spec (strip new_task_entry) ""); [contradiction |].
  cbv zeta. cbv beta iota delta [negb].
  match goal with
  | |- context [bind (modify ?f) _] =>
      destruct (mutate_save_refresh f
                  (ShowInfo "Success" "Task updated successfully!") st)
        as (Ht & _ & _ & _)
  end.
  simpl in Ht. rewrite Ht. split.
  - by rewrite length_map.
  - intros i o Hi. rewrite list_lookup_fmap, Hi. simpl.
    destruct (Nat.eqb_spec (ref o) selected_task) as [E | E].
    + eexists. split; [reflexivity |]. simpl.
      repeat split; try done.
      * intros _. apply lookup_insert_eq.
      * intros k Hk. by rewrite lookup_insert_ne.
    + eexists. split; [reflexivity |]. repeat split; try done.
Qed.

(** ** Loading and saving *)

Lemma backfill_id ms i (task : dict) :
  is_Some (task !! "id") -> is_Some (task !! "reminded") ->
  backfill ms i task = task.
Proof.
  intros [x Hx] [y Hy]. unfold backfill. by rewrite Hy, Hx.
Qed.

(** What the loop of [load_tasks] makes of a list of dicts. *)
Lemma repair_items_dicts clock (ds : list dict) : forall i,
  repair_items clock i (map PDict ds)
  = Ok (map PDict (imap (fun j d => backfill (clock (i + j)%nat) (i + j) d) ds)).
Proof.
  induction ds as [| d ds IH]; intros i; simpl; [done |].
  rewrite IH. rewrite Nat.add_0_r. do 3 f_equal.
  apply imap_ext. intros j x _. simpl. by rewrite Nat.add_succ_r.
Qed.

Lemma repair_dicts clock (ds : list dict) :
  repair clock (PList (map PDict ds))
  = Ok (PList (map PDict (imap (fun i d => backfill (clock i) i d) ds))).
Proof. simpl. by rewrite repair_items_dicts. Qed.

Lemma repair_stored clock st :
  Forall (fun o => is_Some (fields o !! "id")
                   /\ is_Some (fields o !! "reminded")) (tasks st) ->
  repair clock (stored st) = Ok (stored st).
Proof.
  intros H. unfold stored. destruct (tasks_is st); [| done | done].
  rewrite repair_dicts. do 3 f_equal. apply list_eq. intros i.
  rewrite list_lookup_imap, list_lookup_fmap.
  destruct (tasks st !! i) as [o |] eqn:Hi; [| done]. simpl.
  rewrite Forall_lookup in H. destruct (H i o Hi) as [H1 H2].
  by rewrite backfill_id.
Qed.

(** C7. [save_tasks], then [load_tasks] in a new process: given that
    [json.load] reads the value back from the text that [json.dump]
    wrote for it, the list read from the file is the list of dicts that
    was in memory (the same dicts, hence the same ids and fields, in the
    same order), for every list whose tasks have their [id] and
    [reminded] keys. *)
Theorem save_load_roundtrip (clock : nat -> Z) (st : App) :
  tasks_is st = IsList ->
  Forall (fun o => is_Some (fields o !! "id")
                   /\ is_Some (fields o !! "reminded")) (tasks st) ->
  json_load (json_dump (PList (map PDict (map fields (tasks st)))))
  = Some (PList (map PDict (map fields (tasks st)))) ->
  let restarted := boot (task_file (fst (save_tasks st))) in
  load_tasks clock restarted
  = (restarted, Ok (PList (map PDict (map fields (tasks st))))).
Proof.
  intros Hlist Hkeys Hjson restarted. subst restarted.
  pose proof (repair_stored clock st Hkeys) as Hrepair.
  rewrite save_tasks_eq. unfold load_tasks. simpl.
  unfold stored in *. rewrite Hlist in *. by rewrite Hjson, Hrepair.
Qed.


(** ** Adding *)

(** [add_task] on a description and a deadline it accepts, where
    [self.tasks] is a list. *)
Lemma add_task_accepted
    (task_entry deadline_entry : string) (reminder_hours reminder_minutes : Z)
    (now : datetime) (time_ms : Z) (st : App) (deadline reminder_time : datetime) :
  tasks_is st = IsList ->
  strip task_entry <> "" ->
  parse_deadline now (strip deadline_entry) reminder_hours reminder_minutes
  = Ok (deadline, reminder_time) ->
  add_task task_entry deadline_entry reminder_hours reminder_minutes
    now time_ms st
  = (modify (fun st =>
       set_next_ref (S (next_ref st))
         (set_tasks
            (tasks st ++ [mkobj (next_ref st)
               (new_task (str_of_int time_ms) (strip task_entry)
                  deadline reminder_time)])
            st));;
     save_tasks;;
     refresh_task_list;;
     emit (ShowInfo "Task Added" "Task successfully added!"))%app st.
Proof.
  intros Hlist Hne Hp. unfold add_task.
  destruct (String.eqb_spec (strip task_entry) ""); [contradiction |].
  cbv zeta. rewrite Hp. unfold bind at 1, get_state. by rewrite Hlist.
Qed.

(** Where [self.tasks] is no list, [add_task] is left at [append]. *)
Lemma add_task_no_list
    (task_entry deadline_entry : string) (reminder_hours reminder_minutes : Z)
    (now : datetime) (time_ms : Z) (st : App) (deadline reminder_time : datetime) :
  tasks_is st <> IsList ->
  strip task_entry <> "" ->
  parse_deadline now (strip deadline_entry) reminder_hours reminder_minutes
  = Ok (deadline, reminder_time) ->
  add_task task_entry deadline_entry reminder_hours reminder_minutes
    now time_ms st
  = (st, Raise AttributeError).
Proof.
  intros Hlist Hne Hp. unfold add_task.
  destruct (String.eqb_spec (strip task_entry) ""); [contradiction |].
  cbv zeta. rewrite Hp. unfold bind at 1, get_state.
  by destruct (tasks_is st).
Qed.

(** A successful [add_task]: one new object at the end of the list, whose
    id is the text of the clock reading, and the file mirrors the list. *)
Lemma add_task_appends
    (task_entry deadline_entry : string) (reminder_hours reminder_minutes : Z)
    (now : datetime) (time_ms : Z) (st : App) (deadline reminder_time : datetime) :
  tasks_is st = IsList ->
  strip task_entry <> "" ->
  parse_deadline now (strip deadline_entry) reminder_hours reminder_minutes
  = Ok (deadline, reminder_time) ->
  let st' := fst (add_task task_entry deadline_entry reminder_hours
                    reminder_minutes now time_ms st) in
  tasks st'
  = (tasks st ++ [mkobj (next_ref st)
       (new_task (str_of_int time_ms) (strip task_entry) deadline reminder_time)])%list
  /\ next_ref st' = S (next_ref st)
  /\ task_file st' = Some (Text (json_dump (stored st')))
  /\ exists es, log st' = (log st ++ es)%list.
Proof.
  intros Hlist Hne Hp st'. subst st'.
  rewrite (add_task_accepted _ _ _ _ _ _ _ _ _ Hlist Hne Hp).
  match goal with
  | |- context [bind (modify ?f) _] =>
      destruct (mutate_save_refresh f
                  (ShowInfo "Task Added" "Task successfully added!") st)
        as (Ht & Hn & Hf & Hl)
  end.
  rewrite Ht, Hn. simpl in *. auto.
Qed.

(** ** Sorting *)

Lemma tuple_compare_antisym a b :
  tuple_compare b a = CompOpp (tuple_compare a b).
Proof.
  unfold tuple_compare.
  rewrite (Z.compare_antisym (year a) (year b)),
    (Z.compare_antisym (month a) (month b)),
    (Z.compare_antisym (day a) (day b)),
    (Z.compare_antisym (hour a) (hour b)),
    (Z.compare_antisym (minute a) (minute b)),
    (Z.compare_antisym (second a) (second b)),
    (Z.compare_antisym (microsecond a) (microsecond b)).
  destruct (year a ?= year b); simpl; try reflexivity.
  destruct (month a ?= month b); simpl; try reflexivity.
  destruct (day a ?= day b); simpl; try reflexivity.
  destruct (hour a ?= hour b); simpl; try reflexivity.
  destruct (minute a ?= minute b); simpl; try reflexivity.
  destruct (second a ?= second b); simpl; reflexivity.
Qed.

Lemma dt_leb_total a b : dt_leb a b = Ok false -> dt_leb b a = Ok true.
Proof.
  unfold dt_leb, dt_compare.
  destruct (tzinfo a) as [oa |], (tzinfo b) as [ob |]; try done.
  - rewrite (Z.eqb_sym ob oa). destruct (oa =? ob).
    + rewrite (tuple_compare_antisym a b). by destruct (tuple_compare a b).
    + rewrite (Z.compare_antisym
                 (timeline a * 1000000 + microsecond a - oa)
                 (timeline b * 1000000 + microsecond b - ob)).
      by destruct (_ ?= _).
  - rewrite (tuple_compare_antisym a b). by destruct (tuple_compare a b).
Qed.

(** Between naive datetimes the comparison is that of the tuples. *)
Lemma dt_leb_naive a b :
  tzinfo a = None -> tzinfo b = None ->
  dt_leb a b = Ok (match tuple_compare a b with Gt => false | _ => true end).
Proof.
  intros Ha Hb. unfold dt_leb, dt_compare. rewrite Ha, Hb.
  by destruct (tuple_compare a b).
Qed.

(** Keys that are not [mixed] compare with one another. *)
Lemma mixed_false_comparable keys a b :
  mixed keys = false -> In a keys -> In b keys ->
  exists c, dt_leb a b = Ok c.
Proof.
  intros Hm Ha Hb. unfold mixed in Hm.
  apply andb_false_iff in Hm.
  unfold dt_leb, dt_compare.
  destruct (tzinfo a) as [oa |] eqn:Ea, (tzinfo b) as [ob |] eqn:Eb.
  - destruct (oa =? ob); [destruct (tuple_compare a b) | destruct (_ ?= _)];
      eauto.
  - exfalso. destruct Hm as [Hm | Hm].
    + assert (existsb (fun k => match tzinfo k with
                                | None => true | Some _ => false end) keys
              = true); [| congruence].
      apply existsb_exists. exists b. by rewrite Eb.
    + assert (existsb (fun k => match tzinfo k with
                                | None => false | Some _ => true end) keys
              = true); [| congruence].
      apply existsb_exists. exists a. by rewrite Ea.
  - exfalso. destruct Hm as [Hm | Hm].
    + assert (existsb (fun k => match tzinfo k with
                                | None => true | Some _ => false end) keys
              = true); [| congruence].
      apply existsb_exists. exists a. by rewrite Ea.
    + assert (existsb (fun k => match tzinfo k with
                                | None => false | Some _ => true end) keys
              = true); [| congruence].
      apply existsb_exists. exists b. by rewrite Eb.
  - destruct (tuple_compare a b); eauto.
Qed.

(** Keys that are all naive are not [mixed]. *)
Lemma naive_not_mixed keys :
  Forall (fun k => tzinfo k = None) keys -> mixed keys = false.
Proof.
  intros H. unfold mixed. apply andb_false_iff. right.
  apply not_true_is_false. intros Hex.
  apply existsb_exists in Hex as (k & Hk & Hz).
  rewrite Forall_forall in H. apply list_elem_of_In in Hk.
  by rewrite (H k Hk) in Hz.
Qed.

Lemma insert_keyed_perm {A} (x : datetime * A) l :
  Permutation (insert_keyed x l) (x :: l).
Proof.
  induction l as [| y l IH]; simpl; [done |].
  destruct (key_leb (fst x) (fst y)); [done |].
  rewrite IH. apply perm_swap.
Qed.

Lemma sort_keyed_perm {A} (l : list (datetime * A)) :
  Permutation (sort_keyed l) l.
Proof.
  induction l as [| x l IH]; simpl; [done |].
  rewrite insert_keyed_perm. by constructor.
Qed.

Lemma insert_keyed_sorted {A} (x : datetime * A) l :
  (forall y, In y l -> exists c, dt_leb (fst x) (fst y) = Ok c) ->
  Sorted (fun a b => dt_leb (fst a) (fst b) = Ok true) l ->
  Sorted (fun a b => dt_leb (fst a) (fst b) = Ok true) (insert_keyed x l).
Proof.
  induction l as [| y l IH]; simpl; intros Hc Hs.
  - repeat constructor.
  - assert (key_leb (fst x) (fst y) = true -> dt_leb (fst x) (fst y) = Ok true)
      as Hyes.
    { unfold key_leb. destruct (Hc y (or_introl eq_refl)) as [c ->].
      by destruct c. }
    assert (key_leb (fst x) (fst y) = false -> dt_leb (fst x) (fst y) = Ok false)
      as Hno.
    { unfold key_leb. by destruct (dt_leb (fst x) (fst y)) as [[] |]. }
    destruct (key_leb (fst x) (fst y)) eqn:E.
    + constructor; [done | constructor; auto].
    + inversion Hs as [| ? ? Hs' Hhd]; subst.
      constructor; [apply IH; auto |].
      destruct l as [| z l]; simpl.
      * constructor. apply dt_leb_total; auto.
      * destruct (key_leb (fst x) (fst z)).
        -- constructor. apply dt_leb_total; auto.
        -- constructor. by inversion Hhd.
Qed.

Lemma sort_keyed_sorted {A} (l : list (datetime * A)) :
  mixed (map fst l) = false ->
  Sorted (fun a b => dt_leb (fst a) (fst b) = Ok true) (sort_keyed l).
Proof.
  intros Hm.
  assert (forall x y, In x l -> In y l -> exists c, dt_leb (fst x) (fst y) = Ok c)
    as Hc.
  { intros x y Hx Hy.
    apply (mixed_false_comparable (map fst l)); [done | |]; by apply in_map. }
  clear Hm. induction l as [| x l IH]; simpl; [constructor |].
  apply insert_keyed_sorted.
  - intros y Hy. apply Hc; [by left | right].
    eapply Permutation_in; [apply sort_keyed_perm | exact Hy].
  - apply IH. intros a b Ha Hb. apply Hc; by right.
Qed.

Lemma with_keys_snd l keyed :
  with_keys l = Ok keyed ->
  map snd keyed = l /\ Forall (fun p => deadline_key (snd p) = Ok (fst p)) keyed.
Proof.
  revert keyed. induction l as [| o l IH]; simpl; intros keyed H.
  - by inversion H.
  - unfold rbind in H. destruct (deadline_key o) as [k |] eqn:Ek; [| done].
    destruct (with_keys l) as [ks |]; [| done].
    inversion H; subst. destruct (IH ks eq_refl) as [E HF].
    simpl. rewrite E. split; [done |]. by constructor.
Qed.

(** What [sort_tasks] does to a list: when every deadline reads as a
    timestamp and the timestamps compare, the list becomes a
    rearrangement of itself in which the deadlines ascend; when some are
    naive and some have an offset, [TypeError] leaves the list
    rearranged; when a deadline does not read, the exception leaves the
    list as it was. *)
Lemma sort_tasks_sorts (st : App) :
  tasks_is st = IsList ->
  let st' := fst (sort_tasks st) in
  match with_keys (tasks st) with
  | Ok keyed =>
      if mixed (map fst keyed) then
        snd (sort_tasks st) = Raise TypeError
        /\ Permutation (tasks st') (tasks st)
        /\ st' = set_tasks (tasks st') st
      else
        tasks st' = map snd (sort_keyed keyed)
        /\ Permutation (tasks st') (tasks st)
        /\ Sorted (fun a b => dt_leb (fst a) (fst b) = Ok true)
             (sort_keyed keyed)
        /\ Forall (fun p => deadline_key (snd p) = Ok (fst p))
             (sort_keyed keyed)
  | Raise e => st' = st
  end.
Proof.
  intros Hlist.
  unfold sort_tasks, bind, get_state, lift, modify, emit, raise.
  rewrite Hlist. simpl.
  destruct (with_keys (tasks st)) as [keyed | e] eqn:E; [| done].
  destruct (with_keys_snd _ _ E) as [Hs HF].
  destruct (mixed (map fst keyed)) eqn:Em.
  - simpl. split; [done |]. split; [| done].
    destruct (sort_interrupted keyed) as [l' Hl']. simpl.
    rewrite <- Hs. by apply Permutation_map.
  - destruct (refresh_task_list_frame
                (set_tasks (map snd (sort_keyed keyed)) st))
      as (tree & r & ->).
    assert (Permutation (map snd (sort_keyed keyed)) (tasks st)) as HP.
    { rewrite <- Hs. apply Permutation_map, sort_keyed_perm. }
    assert (Forall (fun p => deadline_key (snd p) = Ok (fst p))
              (sort_keyed keyed)).
    { rewrite Forall_forall in *. intros p Hp. apply HF.
      by rewrite <- (sort_keyed_perm keyed). }
    destruct r; simpl; auto using sort_keyed_sorted.
Qed.

(** Where [self.tasks] is no list, [sort_tasks] is left at once. *)
Lemma sort_tasks_no_list (st : App) :
  tasks_is st <> IsList -> sort_tasks st = (st, Raise AttributeError).
Proof.
  intros H. unfold sort_tasks, bind, get_state, raise.
  by destruct (tasks_is st).
Qed.

(** Whatever [sort_tasks] runs into, the list is a rearrangement of what
    it was. *)
Lemma sort_tasks_perm (st : App) :
  Permutation (tasks (fst (sort_tasks st))) (tasks st).
Proof.
  destruct (tasks_is st) eqn:Hlist.
  - pose proof (sort_tasks_sorts st Hlist) as H. cbv zeta in H.
    destruct (with_keys (tasks st)) as [keyed |]; [| by rewrite H].
    destruct (mixed (map fst keyed)); by destruct H as (_ & ? & _).
  - rewrite (sort_tasks_no_list st); [done | congruence].
  - rewrite (sort_tasks_no_list st); [done | congruence].
Qed.

(** [sort_tasks] never writes the file, and leaves what [self.tasks] is
    and the identities to come as they were. *)
Lemma sort_tasks_leaves_file (st : App) :
  task_file (fst (sort_tasks st)) = task_file st
  /\ tasks_is (fst (sort_tasks st)) = tasks_is st
  /\ next_ref (fst (sort_tasks st)) = next_ref st.
Proof.
  unfold sort_tasks, bind, get_state, lift, modify, emit, raise.
  destruct (tasks_is st) eqn:Ek; simpl; rewrite ?Ek; [| done | done].
  destruct (with_keys (tasks st)) as [keyed | e]; simpl; rewrite ?Ek; [| done].
  destruct (mixed (map fst keyed)); simpl; rewrite ?Ek; [done |].
  destruct (refresh_task_list_frame
              (set_tasks (map snd (sort_keyed keyed)) st)) as (tree & r & ->).
  by destruct r; simpl; rewrite ?Ek.
Qed.

(** ** The tick *)

(** One turn of the loop that is not left by an exception: the task is
    as it was and nothing fired, or everything the loop asks for held
    and the task got its reminder and its flag. *)
Lemma remind_one_fired now task task' evs :
  remind_one now task = Ok (task', evs) ->
  (task' = task /\ evs = [])
  \/ (exists c rs rt ev,
        fields task !! "completed" = Some c /\ truthy c = false
        /\ truthy (get_default (fields task) "reminded" (PBool false)) = false
        /\ fields task !! "reminder_time" = Some (PStr rs)
        /\ fromisoformat rs = Some rt /\ dt_leb rt now = Ok true
        /\ trigger_reminder task = Ok ev
        /\ task' = setitem task "reminded" (PBool true) /\ evs = [ev]).
Proof.
  unfold remind_one, rbind, getitem.
  destruct (fields task !! "completed") as [c |] eqn:Ec; [| done].
  destruct (truthy c) eqn:Tc; simpl; [intros [= <- <-]; by left |].
  destruct (truthy (get_default (fields task) "reminded" (PBool false)))
    eqn:Tr; simpl; [intros [= <- <-]; by left |].
  destruct (fields task !! "reminder_time") as [rt |] eqn:Er; simpl; [| done].
  unfold parse_iso. destruct rt as [| | | | rs | |]; simpl; try done.
  destruct (fromisoformat rs) as [d |] eqn:Ef; simpl;
    [| intros [= <- <-]; by left].
  destruct (dt_leb d now) as [[|] | e] eqn:El; simpl.
  - destruct (trigger_reminder task) as [ev | e] eqn:Et; simpl.
    + intros [= <- <-]. right. exists c, rs, d, ev. done.
    + destruct (is_ValueError e); [intros [= <- <-]; by left | done].
  - intros [= <- <-]. by left.
  - destruct (is_ValueError e); [intros [= <- <-]; by left | done].
Qed.

Lemma remind_one_again now task task' evs :
  remind_one now task = Ok (task', evs) ->
  remind_one now task' = Ok (task', []).
Proof.
  intros H.
  destruct (remind_one_fired _ _ _ _ H)
    as [[-> ->] | (c & rs & rt & ev & Hc & Tc & _ & _ & _ & _ & _ & -> & _)];
    [exact H |].
  unfold remind_one, rbind, setitem, getitem, get_default. simpl.
  rewrite lookup_insert_ne by done. rewrite lookup_insert_eq, Hc.
  simpl. by rewrite andb_false_r.
Qed.

Lemma remind_all_again now l l' evs r :
  remind_all now l = (l', evs, r) ->
  remind_all now l' = (l', [], r).
Proof.
  revert l' evs r. induction l as [| o l IH]; simpl; intros l' evs r H.
  - by inversion H.
  - destruct (remind_one now o) as [[o' e1] | e] eqn:E1.
    + destruct (remind_all now l) as [[l1 e2] r1] eqn:E2.
      inversion H; subst. simpl.
      rewrite (remind_one_again _ _ _ _ E1), (IH _ _ _ eq_refl). done.
    + inversion H; subst. simpl. by rewrite E1.
Qed.

(** What one tick adds to the log: the reminders of its loop, and the
    re-arming of the timer when nothing raised. *)
Lemma check_reminders_log now st :
  exists tail,
    log (fst (check_reminders now st))
    = (log st ++ snd (fst (remind_all now (tasks st))) ++ tail)%list
    /\ reminded_objects tail = []
    /\ tasks (fst (check_reminders now st)) = fst (fst (remind_all now (tasks st))).
Proof.
  unfold check_reminders, bind, save_tasks, modify, emit.
  destruct (remind_all now (tasks st)) as [[l evs] r]. simpl.
  destruct r as [[] | e]; simpl.
  - match goal with
    | |- context [refresh_task_list ?s] =>
        destruct (refresh_task_list_frame s) as (tree & r & ->)
    end.
    destruct r; simpl.
    + exists [After 1000]. by rewrite app_assoc.
    + exists []. by rewrite app_nil_r.
  - exists []. by rewrite app_nil_r.
Qed.

(** C6. Two ticks in immediate succession at the same clock reading: no
    task that the first tick sent a reminder for gets one from the
    second (the second sends no reminder at all). *)
Theorem check_reminders_twice (now : datetime) (st : App) :
  let st1 := fst (check_reminders now st) in
  let st2 := fst (check_reminders now st1) in
  exists first second,
    log st1 = (log st ++ first)%list
    /\ log st2 = (log st1 ++ second)%list
    /\ reminded_objects second = []
    /\ forall task, In task (reminded_objects first) ->
                    ~ In task (reminded_objects second).
Proof.
  intros st1 st2.
  destruct (check_reminders_log now st) as (t1 & Hl1 & Ht1 & Hk1).
  destruct (check_reminders_log now st1) as (t2 & Hl2 & Ht2 & Hk2).
  fold st1 in Hl1, Hk1. fold st2 in Hl2.
  destruct (remind_all now (tasks st)) as [[l evs] r] eqn:E.
  simpl in Hl1, Hk1. rewrite Hk1 in Hl2.
  rewrite (remind_all_again _ _ _ _ _ E) in Hl2. simpl in Hl2.
  exists (evs ++ t1)%list, t2.
  repeat split; try done. rewrite Ht2. intros task _ [].
Qed.


(** C5. Where [self.tasks] is a list: for every deadline text that
    [strptime] reads as a datetime
    [deadline] (one that exists) and every lead time that is not
    negative and does not reach back before day 1 of the calendar,
    [add_task] appends a task whose [deadline] field is the ISO text of
    [deadline] and whose [reminder_time] field is the ISO text of a
    datetime exactly the lead time earlier on the time line.  With
    09:00 on 25 December of the current year and one hour, that is 08:00
    on 25 December of the same year. *)
Theorem add_task_reminder_time_exact
    (task_entry deadline_entry : string) (reminder_hours reminder_minutes : Z)
    (now : datetime) (time_ms : Z) (st : App) (deadline : datetime) :
  tasks_is st = IsList ->
  strip task_entry <> "" ->
  strptime (str_of_int (year now) +:+ " " +:+ strip deadline_entry)
    "%Y %d/%m %H:%M" = Some deadline ->
  valid_datetime deadline ->
  0 <= reminder_hours -> 0 <= reminder_minutes ->
  86400 <= timeline deadline - timedelta reminder_hours reminder_minutes ->
  exists reminder_time task,
    tasks (fst (add_task task_entry deadline_entry reminder_hours
                  reminder_minutes now time_ms st))
    = (tasks st ++ [task])%list
    /\ fields task !! "deadline" = Some (PStr (isoformat deadline))
    /\ fields task !! "reminder_time" = Some (PStr (isoformat reminder_time))
    /\ valid_datetime reminder_time
    /\ timeline reminder_time
       = timeline deadline - timedelta reminder_hours reminder_minutes
    /\ microsecond reminder_time = microsecond deadline
    /\ (deadline = mkdatetime (year now) 12 25 9 0 0 0 ->
        reminder_hours = 1 -> reminder_minutes = 0 ->
        reminder_time = mkdatetime (year now) 12 25 8 0 0 0).
Proof.
  intros Hlist Hne Hparse Hvalid Hh Hm Hrange.
  assert (0 <= timedelta reminder_hours reminder_minutes) as Htd
    by (unfold timedelta; lia).
  destruct (dt_sub_spec deadline _ Hvalid Htd Hrange)
    as (reminder_time & Hsub & Hv & Ht & Hus).
  assert (parse_deadline now (strip deadline_entry) reminder_hours
            reminder_minutes = Ok (deadline, reminder_time)) as Hp.
  { unfold parse_deadline. rewrite Hparse, Hsub. reflexivity. }
  destruct (add_task_appends task_entry deadline_entry reminder_hours
              reminder_minutes now time_ms st deadline reminder_time
              Hlist Hne Hp)
    as (Htasks & _).
  eexists reminder_time, _. split; [exact Htasks |].
  split; [reflexivity |]. split; [reflexivity |].
  split; [done |]. split; [done |]. split; [done |].
  intros -> -> ->.
  destruct Hvalid as (Hy & _). simpl in Hy.
  rewrite (dt_sub_scenario_A (year now) Hy) in Hsub. congruence.
Qed.

(** ** Which tasks a tick reminds *)

Lemma remind_one_cases now (task : obj) :
  tzinfo now = None ->
  is_task (fields task) ->
  (due now (fields task)
   /\ exists name deadline,
        remind_one now task
        = Ok (setitem task "reminded" (PBool true),
              [Reminder (ref task) name deadline]))
  \/ (~ due now (fields task) /\ remind_one now task = Ok (task, [])).
Proof.
  intros Hnow (_ & (name & Hname) & (ds & dd & Hdl & Hdd)
               & (rs & Hrt & Hnaive) & (c & Hc) & (r & Hr)).
  unfold remind_one, trigger_reminder, rbind, getitem, get_default, due.
  rewrite Hc, Hr, Hrt, Hname, Hdl. simpl. rewrite Hdd.
  destruct c; simpl.
  { right. split; [| done]. intros (? & _). done. }
  destruct r; simpl.
  { right. split; [| done]. intros (_ & ? & _). done. }
  destruct (fromisoformat rs) as [rt |] eqn:Ers.
  2:{ right. split; [| done]. intros (_ & _ & s & rt & Hs & Hp & _).
      congruence. }
  rewrite (dt_leb_naive rt now (Hnaive rt eq_refl) Hnow).
  destruct (tuple_compare rt now) eqn:Ecmp; simpl.
  - left. split; [| eauto]. repeat split. exists rs, rt.
    by rewrite (dt_leb_naive rt now (Hnaive rt eq_refl) Hnow), Ecmp.
  - left. split; [| eauto]. repeat split. exists rs, rt.
    by rewrite (dt_leb_naive rt now (Hnaive rt eq_refl) Hnow), Ecmp.
  - right. split; [| done]. intros (_ & _ & s & rt' & Hs & Hp & Hle).
    assert (rt' = rt) as -> by congruence.
    rewrite (dt_leb_naive rt now (Hnaive rt eq_refl) Hnow), Ecmp in Hle.
    done.
Qed.

Lemma remind_all_tasks now l :
  tzinfo now = None ->
  Forall (fun o => is_task (fields o)) l ->
  exists l' evs,
    remind_all now l = (l', evs, Ok tt)
    /\ Forall2 (fun o o' =>
                  (due now (fields o) ->
                   o' = setitem o "reminded" (PBool true))
                  /\ (~ due now (fields o) -> o' = o)) l l'
    /\ forall x, In x (reminded_objects evs)
                 <-> exists o, In o l /\ ref o = x /\ due now (fields o).
Proof.
  intros Hnow.
  induction 1 as [| o l Ho Hl (l' & evs & E & HF & Hev)]; simpl.
  - exists [], []. repeat split; [constructor | done |].
    intros (o & [] & _).
  - rewrite E.
    destruct (remind_one_cases now o Hnow Ho)
      as [(Hd & n & d & ->) | (Hd & ->)].
    + eexists _, _. split; [reflexivity |]. split.
      * constructor; [| done]. split; [done | tauto].
      * intros x. simpl. rewrite Hev. split.
        -- intros [<- | (o' & Hin & Hx & Hdo)]; eauto 6.
        -- intros (o' & [<- | Hin] & Hx & Hdo); eauto.
    + eexists _, _. split; [reflexivity |]. split.
      * constructor; [| done]. split; [tauto | done].
      * intros x. simpl. rewrite Hev. split.
        -- intros (o' & Hin & Hx & Hdo); eauto 6.
        -- intros (o' & [<- | Hin] & Hx & Hdo); [tauto | eauto].
Qed.

Lemma same_ref_same_object (l : list obj) a b :
  NoDup (map ref l) -> In a l -> In b l -> ref a = ref b -> a = b.
Proof.
  induction l as [| x l IH]; simpl; [done |].
  intros Hnd [-> | Ha] [-> | Hb] E; try done.
  - apply NoDup_cons in Hnd as [Hx _]. exfalso. apply Hx.
    rewrite E. apply list_elem_of_In. by apply in_map.
  - apply NoDup_cons in Hnd as [Hx _]. exfalso. apply Hx.
    rewrite <- E. apply list_elem_of_In. by apply in_map.
  - apply NoDup_cons in Hnd as [_ Hnd]. by apply IH.
Qed.

Lemma reminded_objects_app es es' :
  reminded_objects (es ++ es') = (reminded_objects es ++ reminded_objects es')%list.
Proof. unfold reminded_objects. apply flat_map_app. Qed.

(** What [add_task] appends is a Task of the data model, when
    [fromisoformat] reads back what [isoformat] writes of the deadline
    and reads the reminder time as a datetime without offset. *)
Lemma new_task_is_task task_id task_text deadline reminder_time :
  fromisoformat (isoformat deadline) = Some deadline ->
  (forall d, fromisoformat (isoformat reminder_time) = Some d ->
             tzinfo d = None) ->
  is_task (new_task task_id task_text deadline reminder_time).
Proof.
  intros Hiso Hrt. unfold is_task, new_task.
  split; [by eexists |]. split; [by eexists |].
  split; [by eexists _, _ |].
  split; [| split; by eexists].
  eexists. split; [reflexivity | exact Hrt].
Qed.

(** ** The objects of the list stay distinct *)

Lemma refs_fresh_same (st st' : App) :
  map ref (tasks st') = map ref (tasks st) -> next_ref st' = next_ref st ->
  refs_fresh st -> refs_fresh st'.
Proof.
  unfold refs_fresh. intros Hr Hn [Hnd Hlt]. by rewrite Hr, Hn.
Qed.

Lemma remind_one_ref now task task' evs :
  remind_one now task = Ok (task', evs) -> ref task' = ref task.
Proof.
  intros H.
  by destruct (remind_one_fired _ _ _ _ H)
    as [[-> _] | (? & ? & ? & ? & _ & _ & _ & _ & _ & _ & _ & -> & _)].
Qed.

Lemma remind_all_refs now l :
  map ref (fst (fst (remind_all now l))) = map ref l.
Proof.
  induction l as [| o l IH]; simpl; [done |].
  destruct (remind_one now o) as [[o' evs] |] eqn:E; [| done].
  destruct (remind_all now l) as [[l' evs'] r]. simpl in *.
  by rewrite IH, (remind_one_ref _ _ _ _ E).
Qed.

Lemma check_reminders_refs_fresh now st :
  refs_fresh st -> refs_fresh (fst (check_reminders now st)).
Proof.
  destruct (check_reminders_log now st) as (tail & _ & _ & Ht).
  apply refs_fresh_same.
  - by rewrite Ht, remind_all_refs.
  - unfold check_reminders, bind, save_tasks, modify, emit.
    destruct (remind_all now (tasks st)) as [[l evs] r]. simpl.
    destruct r as [[] | e]; simpl; [| done].
    match goal with
    | |- context [refresh_task_list ?s] =>
        destruct (refresh_task_list_frame s) as (tree & r & ->)
    end.
    by destruct r.
Qed.

Lemma add_task_refs_fresh
    (task_entry deadline_entry : string) (reminder_hours reminder_minutes : Z)
    (now : datetime) (time_ms : Z) (st : App) :
  refs_fresh st ->
  refs_fresh (fst (add_task task_entry deadline_entry reminder_hours
                     reminder_minutes now time_ms st)).
Proof.
  intros Hf.
  destruct (String.eqb_spec (strip task_entry) "") as [Hempty | Hne].
  { unfold add_task. rewrite Hempty. simpl. exact Hf. }
  destruct (parse_deadline now (strip deadline_entry) reminder_hours
              reminder_minutes) as [[deadline reminder_time] | e] eqn:Hp.
  - destruct (tasks_is st) eqn:Hlist.
    2,3: unfold add_task, bind, get_state;
         destruct (String.eqb_spec (strip task_entry) ""); [done |];
         rewrite Hp; simpl; rewrite Hlist; exact Hf.
    destruct (add_task_appends task_entry deadline_entry reminder_hours
                reminder_minutes now time_ms st deadline reminder_time
                Hlist Hne Hp)
      as (Ht & Hn & _).
    destruct Hf as [Hnd Hlt]. unfold refs_fresh. rewrite Ht, Hn. split.
    + rewrite map_app. simpl. apply NoDup_app. split; [done |].
      split; [| apply NoDup_singleton].
      intros x Hx Hx'. apply list_elem_of_singleton in Hx'. subst x.
      rewrite Forall_forall in Hlt. specialize (Hlt _ Hx). lia.
    + rewrite map_app. apply Forall_app. split.
      * eapply Forall_impl; [exact Hlt |]. simpl. lia.
      * constructor; [simpl; lia | constructor].
  - unfold add_task. destruct (String.eqb_spec (strip task_entry) "");
      [contradiction |]. cbv zeta. rewrite Hp. by destruct e.
Qed.

Lemma save_edit_refs_fresh selected_task new_task_entry st :
  refs_fresh st -> refs_fresh (fst (save_edit selected_task new_task_entry st)).
Proof.
  intros Hf. unfold save_edit.
  destruct (String.eqb (strip new_task_entry) ""); [exact Hf |].
  cbv zeta. cbv beta iota delta [negb].
  match goal with
  | |- context [bind (modify ?f) _] =>
      destruct (mutate_save_refresh f
                  (ShowInfo "Success" "Task updated successfully!") st)
        as (Ht & Hn & _)
  end.
  refine (refs_fresh_same st _ _ Hn Hf).
  rewrite Ht. simpl. rewrite map_map. apply map_ext.
  intros o. by destruct (ref o =? selected_task)%nat.
Qed.

(** [load_tasks] writes nothing to the application. *)
Lemma load_tasks_state clock st : fst (load_tasks clock st) = st.
Proof.
  unfold load_tasks. destruct (task_file st) as [[| text] |]; [done | | done].
  by destruct (json_load text).
Qed.

Lemma install_refs_fresh records f : refs_fresh (install records (boot f)).
Proof.
  unfold refs_fresh, install, allocate. simpl. split.
  - rewrite fmap_imap. unfold compose. simpl.
    apply NoDup_alt. intros i j x. rewrite !list_lookup_imap.
    destruct (records !! i), (records !! j); simpl; congruence.
  - rewrite fmap_imap. unfold compose. simpl.
    apply Forall_forall. intros x Hx.
    apply list_elem_of_lookup in Hx as [i Hi].
    rewrite list_lookup_imap in Hi.
    destruct (records !! i) eqn:E; simpl in Hi; [| done].
    inversion Hi; subst. apply lookup_lt_Some in E. lia.
Qed.

Lemma refresh_then_refs_fresh (k : M unit) st :
  refs_fresh st ->
  (forall st', refs_fresh st' -> refs_fresh (fst (k st'))) ->
  refs_fresh (fst ((refresh_task_list;; k)%app st)).
Proof.
  intros H Hk. unfold bind.
  destruct (refresh_task_list_frame st) as (tree & r & ->).
  destruct r; [| exact H]. apply Hk. exact H.
Qed.

(** The objects [__init__] installs are distinct. *)
Lemma init_refs_fresh clock now f :
  refs_fresh (fst (init clock now (boot f))).
Proof.
  assert (refs_fresh (boot f)) as H0 by (split; constructor).
  assert (forall e st', refs_fresh st' ->
                        refs_fresh (fst (@raise unit e st'))) as Hraise
    by done.
  unfold init, bind at 1.
  pose proof (load_tasks_state clock (boot f)) as Hst.
  destruct (load_tasks clock (boot f)) as [st0 [loaded | e]];
    simpl in Hst; subst st0; [| exact H0].
  destruct loaded as [| b | n | x | s | l | d].
  1-4: by apply refresh_then_refs_fresh; [| apply Hraise].
  - destruct (String.eqb s "").
    + unfold bind at 1, modify.
      apply refresh_then_refs_fresh; [exact H0 |].
      apply check_reminders_refs_fresh.
    + by apply refresh_then_refs_fresh; [| apply Hraise].
  - destruct (dicts_of l) as [records |].
    + unfold bind at 1, modify.
      apply refresh_then_refs_fresh; [apply install_refs_fresh |].
      apply check_reminders_refs_fresh.
    + unfold bind at 1, modify.
      apply refresh_then_refs_fresh; [apply install_refs_fresh |].
      apply Hraise.
  - destruct (bool_decide (d = ∅)).
    + unfold bind at 1, modify.
      apply refresh_then_refs_fresh; [exact H0 |].
      apply check_reminders_refs_fresh.
    + by apply refresh_then_refs_fresh; [| apply Hraise].
Qed.



(** * More of the handlers *)

(** ** What [refresh_task_list] shows *)

Lemma readable_fields (task : dict) :
  readable task <->
  exists c n ds dd rs rd,
    task !! "completed" = Some c /\ task !! "task" = Some n
    /\ task !! "deadline" = Some (PStr ds) /\ fromisoformat ds = Some dd
    /\ task !! "reminder_time" = Some (PStr rs) /\ fromisoformat rs = Some rd.
Proof.
  unfold readable, row_of, rbind, getitem, parse_iso. split.
  - intros [r H].
    destruct (task !! "completed") as [c |]; [| done].
    destruct (task !! "task") as [n |]; [| done].
    destruct (task !! "deadline") as [[| | | | ds | |] |]; try done.
    destruct (fromisoformat ds) as [dd |] eqn:Ed; [| done].
    destruct (task !! "reminder_time") as [[| | | | rs | |] |]; try done.
    destruct (fromisoformat rs) as [rd |] eqn:Er; [| done].
    by exists c, n, ds, dd, rs, rd.
  - intros (c & n & ds & dd & rs & rd & -> & -> & -> & Hd & -> & Hr).
    rewrite Hd, Hr. eauto.
Qed.

Lemma insert_rows_app l : forall tree,
  insert_rows l tree
  = (let '(rows, r) := insert_rows l [] in ((tree ++ rows)%list, r)).
Proof.
  induction l as [| o l IH]; intros tree; simpl.
  - by rewrite app_nil_r.
  - destruct (row_of (fields o)) as [r | e]; [| by rewrite app_nil_r].
    rewrite (IH (tree ++ [r])%list), (IH [r]).
    destruct (insert_rows l []) as [rows res]. by rewrite <- app_assoc.
Qed.

Lemma insert_rows_spec l :
  let '(rows, r) := insert_rows l [] in
  (r = Ok tt /\ length rows = length l
   /\ Forall (fun o => readable (fields o)) l)
  \/ (exists e o,
        r = Raise e /\ l !! length rows = Some o
        /\ row_of (fields o) = Raise e
        /\ Forall (fun o => readable (fields o)) (take (length rows) l)).
Proof.
  induction l as [| o l IH]; simpl.
  - left. repeat split. constructor.
  - destruct (row_of (fields o)) as [r | e] eqn:Er.
    + rewrite insert_rows_app. destruct (insert_rows l []) as [rows res].
      destruct IH as [(-> & Hlen & Hall) | (e & o' & -> & Hl & Hrow & Hall)].
      * left. repeat split; [simpl; by rewrite Hlen |].
        constructor; [by exists r | done].
      * right. exists e, o'. repeat split; try done.
        simpl. constructor; [by exists r | done].
    + right. exists e, o. repeat split; try done; simpl; constructor.
Qed.

(** X1 (refresh_task_list).  [refresh_task_list] touches nothing but the
    tree.  When every task can be shown the tree gets one row per task;
    otherwise it is left by the exception of the first task that cannot
    be shown, and the tree holds the rows of the tasks before that one
    only. *)
Theorem refresh_task_list_rows (st : App) :
  let st' := fst (refresh_task_list st) in
  let r := snd (refresh_task_list st) in
  tasks st' = tasks st /\ task_file st' = task_file st /\ log st' = log st
  /\ ((r = Ok tt /\ length (task_tree st') = length (tasks st)
       /\ Forall (fun o => readable (fields o)) (tasks st))
      \/ (exists e o,
            r = Raise e
            /\ tasks st !! length (task_tree st') = Some o
            /\ row_of (fields o) = Raise e
            /\ Forall (fun o => readable (fields o))
                 (take (length (task_tree st')) (tasks st)))).
Proof.
  unfold refresh_task_list. pose proof (insert_rows_spec (tasks st)) as H.
  destruct (insert_rows (tasks st) []) as [rows r]. simpl. auto.
Qed.

Lemma refresh_task_list_readable st :
  Forall (fun o => readable (fields o)) (tasks st) ->
  exists rows,
    refresh_task_list st = (set_task_tree rows st, Ok tt)
    /\ length rows = length (tasks st).
Proof.
  intros Hall. unfold refresh_task_list.
  pose proof (insert_rows_spec (tasks st)) as H.
  destruct (insert_rows (tasks st) []) as [rows r].
  destruct H as [(-> & Hlen & _) | (e & o & -> & Hl & Hrow & _)]; [eauto |].
  rewrite Forall_lookup in Hall. destruct (Hall _ _ Hl) as [x Hx]. congruence.
Qed.

(** A mutation, [save_tasks], [refresh_task_list] and a message, when
    every task of the mutated list can be shown. *)
Lemma mutate_save_refresh_readable (f : App -> App) (e : event) st :
  Forall (fun o => readable (fields o)) (tasks (f st)) ->
  exists rows,
    (modify f;; save_tasks;; refresh_task_list;; emit e)%app st
    = (add_log [e]
         (set_task_tree rows
            (set_task_file (Some (Text (json_dump (stored (f st)))))
               (f st))), Ok tt)
    /\ length rows = length (tasks (f st)).
Proof.
  intros Hall. unfold bind, modify, save_tasks, emit. simpl.
  destruct (refresh_task_list_readable
              (set_task_file (Some (Text (json_dump (stored (f st)))))
                 (f st)) Hall) as (rows & -> & Hlen).
  eauto.
Qed.


(** ** [mark_completed] and [delete_task] *)

Lemma mark_completed_selected st i task :
  (i < length (task_tree st))%nat -> tasks st !! i = Some task ->
  mark_completed (Some i) st
  = match fields task !! "completed" with
    | Some completed =>
        (modify (set_tasks
           (<[i := setitem task "completed"
                     (PBool (negb (truthy completed)))]> (tasks st)));;
         save_tasks;;
         refresh_task_list;;
         emit (ShowInfo "Success"
                 ("Task marked as "
                  +:+ (if negb (truthy completed) then "completed"
                       else "pending") +:+ "!")))%app st
    | None => (st, Raise (KeyError "completed"))
    end.
Proof.
  intros Htree Hi. pose proof (lookup_lt_Some _ _ _ Hi) as Hlen.
  unfold mark_completed. unfold bind at 1.
  rewrite (selected_index_in_range st _ i Htree Hlen).
  unfold bind at 1, get_state. rewrite Hi.
  unfold bind at 1, lift, getitem.
  by destruct (fields task !! "completed").
Qed.


Lemma readable_setitem (task : obj) k v :
  k = "completed" \/ k = "reminded" \/ k = "task" ->
  readable (fields task) -> readable (fields (setitem task k v)).
Proof.
  intros Hk. rewrite !readable_fields.
  intros (c & n & ds & dd & rs & rd & Hc & Hn & Hd & Hdd & Hr & Hrd).
  simpl. destruct Hk as [-> | [-> | ->]].
  - exists v, n, ds, dd, rs, rd. by rewrite lookup_insert_eq, !lookup_insert_ne.
  - exists c, n, ds, dd, rs, rd. by rewrite !lookup_insert_ne.
  - exists c, v, ds, dd, rs, rd. by rewrite lookup_insert_eq, !lookup_insert_ne.
Qed.

(** X3 (mark_completed).  When every task can be shown and the selected
    task's [completed] field is a boolean, marking the same row twice
    gives back the list as it was. *)
Theorem mark_completed_twice (st : App) (i : nat) (task : obj) (b : bool) :
  Forall (fun o => readable (fields o)) (tasks st) ->
  (i < length (task_tree st))%nat ->
  tasks st !! i = Some task ->
  fields task !! "completed" = Some (PBool b) ->
  tasks (run (MarkCompleted (Some i)) (run (MarkCompleted (Some i)) st))
  = tasks st.
Proof.
  intros Hall Htree Hi Hc. simpl.
  pose proof (lookup_lt_Some _ _ _ Hi) as Hlen.
  set (task1 := setitem task "completed" (PBool (negb b))).
  assert (Forall (fun o => readable (fields o)) (<[i := task1]> (tasks st)))
    as Hall1.
  { apply Forall_insert; [done |]. apply readable_setitem; [auto |].
    rewrite Forall_lookup in Hall. by apply (Hall i). }
  rewrite (mark_completed_selected st i task Htree Hi), Hc. simpl truthy.
  match goal with
  | |- context [bind (modify ?f) _ ] =>
      match goal with
      | |- context [emit ?e] =>
          destruct (mutate_save_refresh_readable f e st Hall1)
            as (rows & -> & Hrows)
      end
  end.
  cbn [fst]. simpl in Hrows. rewrite length_insert in Hrows.
  set (st1 := add_log _ _).
  assert (tasks st1 !! i = Some task1) as Hi1.
  { subst st1. simpl. by apply list_lookup_insert_eq. }
  assert ((i < length (task_tree st1))%nat) as Htree1.
  { subst st1. simpl. lia. }
  rewrite (mark_completed_selected st1 i task1 Htree1 Hi1).
  subst task1. simpl fields at 1. rewrite lookup_insert_eq. simpl truthy.
  match goal with
  | |- context [bind (modify ?f) _ ] =>
      match goal with
      | |- context [emit ?e] =>
          destruct (mutate_save_refresh f e st1) as (Ht & _)
      end
  end.
  rewrite Ht. subst st1. simpl.
  rewrite list_insert_insert_eq, negb_involutive.
  unfold setitem. simpl. rewrite insert_insert_eq.
  rewrite (insert_id _ _ _ Hc). destruct task. simpl.
  by apply list_insert_id.
Qed.

Lemma delete_task_selected st i task confirmed :
  (i < length (task_tree st))%nat -> tasks st !! i = Some task ->
  delete_task (Some i) confirmed st
  = match fields task !! "task" with
    | Some _ =>
        if confirmed then
          (modify (set_tasks (delete i (tasks st)));;
           save_tasks;;
           refresh_task_list;;
           emit (ShowInfo "Success" "Task deleted successfully!"))%app st
        else (st, Ok tt)
    | None => (st, Raise (KeyError "task"))
    end.
Proof.
  intros Htree Hi. pose proof (lookup_lt_Some _ _ _ Hi) as Hlen.
  unfold delete_task. unfold bind at 1.
  rewrite (selected_index_in_range st _ i Htree Hlen).
  unfold bind at 1, get_state. rewrite Hi.
  unfold bind at 1, lift, getitem.
  destruct (fields task !! "task"); [| done]. by destruct confirmed.
Qed.

(** X4 (delete_task).  On the selected task (one that has a description):
    when the question is answered yes, that task and no other leaves the
    list, the rest keeps its order, and the list is written to the file;
    when it is answered no, nothing at all changes. *)
Theorem delete_task_removes (st : App) (i : nat) (task : obj)
    (name : pyval) (confirmed : bool) :
  (i < length (task_tree st))%nat ->
  tasks st !! i = Some task ->
  fields task !! "task" = Some name ->
  if confirmed then
    let st' := fst (delete_task (Some i) true st) in
    tasks st' = (take i (tasks st) ++ drop (S i) (tasks st))%list
    /\ S (length (tasks st')) = length (tasks st)
    /\ synced st'
  else delete_task (Some i) false st = (st, Ok tt).
Proof.
  intros Htree Hi Hn. pose proof (lookup_lt_Some _ _ _ Hi) as Hlen.
  destruct confirmed.
  - intros st'. subst st'.
    rewrite (delete_task_selected st i task true Htree Hi), Hn.
    match goal with
    | |- context [bind (modify ?f) _ ] =>
        match goal with
        | |- context [emit ?e] =>
            destruct (mutate_save_refresh f e st) as (Ht & _ & Hf & _)
        end
    end.
    unfold synced. rewrite Ht. simpl. split; [| split; [| exact Hf]].
    + by rewrite delete_take_drop.
    + rewrite length_delete by eauto. lia.
  - by rewrite (delete_task_selected st i task false Htree Hi), Hn.
Qed.

(** ** Handlers on a task that misses a field *)

(** X5 (mark_completed, delete_task, edit_task).  On a selected task
    without a [completed] field [mark_completed] is left by [KeyError];
    on one without a [task] field so are [delete_task], before it asks
    for confirmation, and [edit_task], before it opens its window.
    Nothing is changed, written or shown. *)
Theorem handlers_missing_key (st : App) (i : nat) (task : obj)
    (confirmed : bool) :
  (i < length (task_tree st))%nat ->
  tasks st !! i = Some task ->
  (fields task !! "completed" = None ->
   mark_completed (Some i) st = (st, Raise (KeyError "completed")))
  /\ (fields task !! "task" = None ->
      delete_task (Some i) confirmed st = (st, Raise (KeyError "task"))
      /\ edit_task (Some i) st = (st, Raise (KeyError "task"))).
Proof.
  intros Htree Hi. split.
  - intros Hc. by rewrite (mark_completed_selected st i task Htree Hi), Hc.
  - intros Ht. split.
    + by rewrite (delete_task_selected st i task confirmed Htree Hi), Ht.
    + by rewrite (edit_task_selected st i task Htree Hi), Ht.
Qed.

(** ** Handlers without a usable selection *)

(** X6 (edit_task, delete_task, mark_completed, reset_reminder).
    Whenever the selection gives no task (nothing selected, or a row
    beyond the tree or beyond the list), each of the four handlers
    returns after one dialog (a warning or an error message), and
    leaves the list, the file and the tree as they were. *)
Theorem handlers_refuse_unusable_selection (st : App)
    (selection : option nat) (confirmed : bool) :
  get_selected_task selection st = None ->
  (exists title m,
     edit_task selection st = (add_log [ShowWarning title m] st, Ok None)
     \/ edit_task selection st = (add_log [ShowError title m] st, Ok None))
  /\ (exists title m,
        delete_task selection confirmed st
        = (add_log [ShowWarning title m] st, Ok tt)
        \/ delete_task selection confirmed st
           = (add_log [ShowError title m] st, Ok tt))
  /\ (exists title m,
        mark_completed selection st
        = (add_log [ShowWarning title m] st, Ok tt)
        \/ mark_completed selection st
           = (add_log [ShowError title m] st, Ok tt))
  /\ (exists title m,
        reset_reminder selection st
        = (add_log [ShowWarning title m] st, Ok tt)
        \/ reset_reminder selection st
           = (add_log [ShowError title m] st, Ok tt)).
Proof.
  unfold get_selected_task, edit_task, delete_task, mark_completed,
    reset_reminder, selected_index, bind, get_state, emit, modify, ret.
  destruct selection as [i |].
  2:{ intros _. repeat split; eexists _, _; left; reflexivity. }
  destruct (Nat.leb_spec (length (task_tree st)) i) as [Ht | Ht].
  { intros _. repeat split; eexists _, _; right; reflexivity. }
  destruct (Nat.ltb_spec i (length (tasks st))) as [Hl | Hl].
  { intros Hi. apply lookup_ge_None in Hi. lia. }
  intros _. destruct (Nat.leb_spec (length (tasks st)) i); [| lia].
  repeat split; eexists _, _; right; reflexivity.
Qed.

(** X7 (get_selected_task).  [get_selected_task] gives a task exactly when
    the handlers accept the selection, and then it is the object that
    [edit_task] hands to its edit window; [edit_task] opens no window on
    a task that has no text, which it leaves with a [KeyError]. *)
Theorem get_selected_task_agrees (st : App) (selection : option nat) :
  match get_selected_task selection st with
  | Some task =>
      exists i, selection = Some i /\ tasks st !! i = Some task
                /\ edit_task selection st
                   = (st, match fields task !! "task" with
                          | Some _ => Ok (Some (ref task))
                          | None => Raise (KeyError "task")
                          end)
  | None =>
      exists st', edit_task selection st = (st', Ok None)
                  /\ tasks st' = tasks st /\ task_file st' = task_file st
  end.
Proof.
  unfold get_selected_task. destruct selection as [i |].
  2:{ eexists. split; [reflexivity | done]. }
  destruct (Nat.leb_spec (length (task_tree st)) i) as [Ht | Ht].
  { unfold edit_task, selected_index, bind, get_state, emit, modify, ret.
    destruct (Nat.leb_spec (length (task_tree st)) i); [| lia].
    eexists. split; [reflexivity | done]. }
  destruct (Nat.ltb_spec i (length (tasks st))) as [Hl | Hl].
  - destruct (tasks st !! i) as [task |] eqn:Hi.
    + exists i. repeat split; [done |]. by apply edit_task_selected.
    + apply lookup_ge_None in Hi. lia.
  - unfold edit_task, selected_index, bind, get_state, emit, modify, ret.
    destruct (Nat.leb_spec (length (task_tree st)) i); [lia |].
    destruct (Nat.leb_spec (length (tasks st)) i); [| lia].
    eexists. split; [reflexivity | done].
Qed.

(** ** Editing *)



(** ** More on the tick *)

Lemma trigger_reminder_event task ev :
  trigger_reminder task = Ok ev ->
  exists name deadline, ev = Reminder (ref task) name deadline.
Proof.
  unfold trigger_reminder, rbind. intros Et.
  destruct (getitem (fields task) "task") as [n |]; [| done].
  destruct (getitem (fields task) "deadline") as [dl |]; [| done].
  destruct (parse_iso dl) as [d |]; [| done]. inversion Et. eauto.
Qed.

Lemma remind_one_frame now task task' evs :
  remind_one now task = Ok (task', evs) ->
  (task' = task /\ evs = [])
  \/ (task' = setitem task "reminded" (PBool true)
      /\ (exists name deadline, evs = [Reminder (ref task) name deadline])
      /\ exists c, fields task !! "completed" = Some c /\ truthy c = false).
Proof.
  intros H.
  destruct (remind_one_fired _ _ _ _ H)
    as [? | (c & rs & rt & ev & Hc & Tc & _ & _ & _ & _ & Ht & -> & ->)];
    [by left |].
  right. split; [done |]. split; [| eauto].
  destruct (trigger_reminder_event _ _ Ht) as (n & d & ->). eauto.
Qed.

Lemma remind_all_frame now l :
  let '(l', evs, r) := remind_all now l in
  Forall2 (fun o o' =>
             o' = o
             \/ (o' = setitem o "reminded" (PBool true)
                 /\ In (ref o) (reminded_objects evs)
                 /\ exists c, fields o !! "completed" = Some c
                              /\ truthy c = false)) l l'.
Proof.
  induction l as [| o l IH]; simpl; [constructor |].
  destruct (remind_one now o) as [[o' e1] |] eqn:E1.
  - destruct (remind_all now l) as [[l' e2] r].
    constructor.
    + destruct (remind_one_frame _ _ _ _ E1)
        as [[-> ->] | (-> & (n & d & ->) & Hc)]; [by left |].
      right. repeat split; [| done]. simpl. by left.
    + eapply Forall2_impl; [exact IH |]. simpl.
      intros a b [-> | (-> & Hin & Hc)]; [by left |].
      right. repeat split; [| done].
      rewrite reminded_objects_app. apply in_or_app. by right.
  - apply Forall2_same_length_lookup_2; [done |].
    intros i a b Ha Hb. left. congruence.
Qed.

(** A reminder is for a task of the list that was not completed. *)
Lemma remind_all_fired now l x :
  In x (reminded_objects (snd (fst (remind_all now l)))) ->
  exists o c, In o l /\ ref o = x
              /\ fields o !! "completed" = Some c /\ truthy c = false.
Proof.
  induction l as [| o l IH]; simpl; [done |].
  destruct (remind_one now o) as [[o' e1] |] eqn:E1; [| done].
  destruct (remind_all now l) as [[l' e2] r]. simpl in *.
  rewrite reminded_objects_app. intros Hin.
  apply in_app_or in Hin as [Hin | Hin].
  - destruct (remind_one_frame _ _ _ _ E1)
      as [[_ ->] | (_ & (n & d & ->) & c & Hc & Tc)]; [done |].
    simpl in Hin. destruct Hin as [<- | []]. exists o, c. auto.
  - destruct (IH Hin) as (o2 & c & ? & ? & ? & ?). exists o2, c. auto.
Qed.

(** X9 (check_reminders).  In every state, whatever a tick runs into: the
    list keeps its length and its order, and each task is either left
    exactly as it was or gets [reminded = True] and nothing else; a task
    is changed only if it was not completed, and then a reminder for it
    is in the log. *)
Theorem check_reminders_only_sets_reminded (now : datetime) (st : App) :
  let st' := fst (check_reminders now st) in
  exists fired,
    log st' = (log st ++ fired)%list
    /\ length (tasks st') = length (tasks st)
    /\ forall (i : nat) (o : obj),
         tasks st !! i = Some o ->
         tasks st' !! i = Some o
         \/ (tasks st' !! i = Some (setitem o "reminded" (PBool true))
             /\ In (ref o) (reminded_objects fired)
             /\ exists c, fields o !! "completed" = Some c
                          /\ truthy c = false).
Proof.
  intros st'.
  destruct (check_reminders_log now st) as (tail & Hlog & Htail & Hts).
  fold st' in Hlog, Hts.
  pose proof (remind_all_frame now (tasks st)) as HF.
  destruct (remind_all now (tasks st)) as [[l evs] r]. simpl in Hlog, Hts.
  exists (evs ++ tail)%list. split; [done |]. rewrite Hts.
  split; [symmetry; by eapply Forall2_length |].
  intros i o Hi.
  destruct (Forall2_lookup_l _ _ _ _ _ HF Hi) as (o' & Hi' & Ho').
  destruct Ho' as [-> | (-> & Hin & Hc)]; [by left |].
  right. repeat split; try done.
  rewrite reminded_objects_app. apply in_or_app. by left.
Qed.

Lemma readable_remind_one now task :
  tzinfo now = None ->
  readable (fields task) -> naive_time "reminder_time" (fields task) ->
  exists task' evs, remind_one now task = Ok (task', evs).
Proof.
  intros Hnow Hread Hnaive. revert Hread. rewrite readable_fields.
  intros (c & n & ds & dd & rs & rd & Hc & Hn & Hd & Hdd & Hr & Hrd).
  unfold remind_one, trigger_reminder, rbind, getitem, parse_iso.
  rewrite Hc, Hr, Hrd, Hn, Hd, Hdd.
  destruct (negb (truthy c) && _); [| eauto].
  rewrite (dt_leb_naive rd now (Hnaive rs rd Hr Hrd) Hnow).
  destruct (tuple_compare rd now); eauto.
Qed.

Lemma naive_time_setitem k k' v task :
  k <> k' -> naive_time k task -> naive_time k (<[k' := v]> task).
Proof.
  intros Hk H s d. rewrite lookup_insert_ne by done. apply H.
Qed.

Lemma remind_all_naive k now l :
  k <> "reminded" ->
  Forall (fun o => naive_time k (fields o)) l ->
  Forall (fun o => naive_time k (fields o)) (fst (fst (remind_all now l))).
Proof.
  intros Hk Hall. pose proof (remind_all_frame now l) as HF.
  destruct (remind_all now l) as [[l' evs] r]. simpl.
  apply Forall_forall. intros o' Ho'.
  apply list_elem_of_lookup in Ho' as [i Hi].
  destruct (Forall2_lookup_r _ _ _ _ _ HF Hi) as (o & Ho & Hcase).
  rewrite Forall_forall in Hall.
  assert (naive_time k (fields o)) as Hn
    by (apply Hall, list_elem_of_lookup; eauto).
  destruct Hcase as [-> | (-> & _)]; [done |].
  by apply naive_time_setitem.
Qed.

Lemma readable_remind_all now l :
  tzinfo now = None ->
  Forall (fun o => readable (fields o)) l ->
  Forall (fun o => naive_time "reminder_time" (fields o)) l ->
  exists l' evs,
    remind_all now l = (l', evs, Ok tt)
    /\ Forall (fun o => readable (fields o)) l'
    /\ map ref l' = map ref l.
Proof.
  intros Hnow.
  induction 1 as [| o l Ho Hl IH]; simpl; intros Hnaive.
  - exists [], []. repeat split. constructor.
  - apply Forall_cons in Hnaive as [Hno Hnl].
    destruct (IH Hnl) as (l' & evs & E & Hall & Hrefs).
    destruct (readable_remind_one now o Hnow Ho Hno) as (o' & e1 & E1).
    rewrite E1, E. eexists _, _. split; [reflexivity |].
    destruct (remind_one_frame _ _ _ _ E1) as [[-> ->] | (-> & _)].
    + split; [by constructor | simpl; by rewrite Hrefs].
    + split; [| simpl; by rewrite Hrefs].
      constructor; [| done]. apply readable_setitem; [auto | done].
Qed.

Lemma check_reminders_readable (now : datetime) (st : App) :
  tzinfo now = None ->
  Forall (fun o => readable (fields o)) (tasks st) ->
  Forall (fun o => naive_time "reminder_time" (fields o)) (tasks st) ->
  exists l' evs rows,
    remind_all now (tasks st) = (l', evs, Ok tt)
    /\ Forall (fun o => readable (fields o)) l'
    /\ map ref l' = map ref (tasks st)
    /\ check_reminders now st
       = (add_log [After 1000]
            (set_task_tree rows
               (set_task_file
                  (Some (Text (json_dump
                                 (stored (add_log evs (set_tasks l' st))))))
                  (add_log evs (set_tasks l' st)))), Ok tt).
Proof.
  intros Hnow Hall Hnaive.
  destruct (readable_remind_all now (tasks st) Hnow Hall Hnaive)
    as (l' & evs & E & Hall' & Hrefs).
  unfold check_reminders, bind, save_tasks, modify, emit. rewrite E. simpl.
  match goal with
  | |- context [refresh_task_list ?s] =>
      destruct (refresh_task_list_readable s Hall') as (rows & -> & _)
  end.
  by exists l', evs, rows.
Qed.

(** X10 (check_reminders).  At a clock without offset, when every task
    can be shown and no reminder time carries an offset, the tick runs to
    its end: it returns normally, the file mirrors the list, the last
    thing it did is to arm the timer again, and every task can still be
    shown, its reminder time still without offset. *)
Theorem check_reminders_completes (now : datetime) (st : App) :
  tzinfo now = None ->
  Forall (fun o => readable (fields o)) (tasks st) ->
  Forall (fun o => naive_time "reminder_time" (fields o)) (tasks st) ->
  exists st',
    check_reminders now st = (st', Ok tt)
    /\ synced st'
    /\ last (log st') = Some (After 1000)
    /\ map ref (tasks st') = map ref (tasks st)
    /\ Forall (fun o => readable (fields o)) (tasks st')
    /\ Forall (fun o => naive_time "reminder_time" (fields o)) (tasks st').
Proof.
  intros Hnow Hall Hnaive.
  destruct (check_reminders_readable now st Hnow Hall Hnaive)
    as (l' & evs & rows & E & Hall' & Hrefs & ->).
  eexists. split; [reflexivity |]. unfold synced. simpl.
  repeat split; try done; [by rewrite last_snoc |].
  pose proof (remind_all_naive "reminder_time" now (tasks st)
                ltac:(done) Hnaive) as H.
  by rewrite E in H.
Qed.

Lemma remind_all_only_reminders now l :
  Forall (fun e => exists r n d, e = Reminder r n d)
    (snd (fst (remind_all now l))).
Proof.
  induction l as [| o l IH]; simpl; [constructor |].
  destruct (remind_one now o) as [[o' e1] |] eqn:E1; [| constructor].
  destruct (remind_all now l) as [[l' e2] r]. simpl in *.
  apply Forall_app. split; [| done].
  destruct (remind_one_frame _ _ _ _ E1)
    as [[_ ->] | (_ & (n & d & ->) & _)]; repeat constructor. eauto.
Qed.

Lemma remind_all_no_after now l :
  ~ In (After 1000) (snd (fst (remind_all now l))).
Proof.
  intros Hin. pose proof (remind_all_only_reminders now l) as H.
  rewrite Forall_forall in H.
  destruct (H (After 1000)) as (r & n & d & Hr); [| done].
  by apply list_elem_of_In.
Qed.

(** X11 (check_reminders).  At a clock without offset, when the loop
    comes to a task without a
    [completed] field (the tasks before it being Tasks of the data
    model), the tick is left by [KeyError]: the tasks before it that
    were due have had their reminder and their flag, but the file is not
    written and the timer is not armed again. *)
Theorem check_reminders_missing_completed (now : datetime) (st : App)
    (before rest : list obj) (task : obj) :
  tzinfo now = None ->
  tasks st = (before ++ task :: rest)%list ->
  Forall (fun o => is_task (fields o)) before ->
  fields task !! "completed" = None ->
  exists before' fired,
    check_reminders now st
    = (add_log fired (set_tasks (before' ++ task :: rest)%list st),
       Raise (KeyError "completed"))
    /\ Forall2 (fun o o' =>
                  (due now (fields o) ->
                   o' = setitem o "reminded" (PBool true))
                  /\ (~ due now (fields o) -> o' = o)) before before'
    /\ (forall x, In x (reminded_objects fired)
                  <-> exists o, In o before /\ ref o = x
                                /\ due now (fields o))
    /\ ~ In (After 1000) fired.
Proof.
  intros Hnow Ht Hbefore Hc.
  destruct (remind_all_tasks now before Hnow Hbefore)
    as (before' & fired & E & HF & Hev).
  exists before', fired.
  assert (remind_all now (before ++ task :: rest)
          = ((before' ++ task :: rest)%list, fired, Raise (KeyError "completed")))
    as Hall.
  { clear Ht Hev HF Hbefore. revert before' fired E.
    induction before as [| o l IH]; simpl; intros before' fired E.
    - inversion E; subst. simpl.
      unfold remind_one, rbind, getitem. by rewrite Hc.
    - destruct (remind_one now o) as [[o' e1] |]; [| done].
      destruct (remind_all now l) as [[l' e2] r] eqn:El.
      inversion E; subst. rewrite (IH _ _ eq_refl). done. }
  unfold check_reminders, bind. rewrite Ht, Hall.
  repeat split; try done; try apply Hev.
  pose proof (remind_all_no_after now before) as Hno.
  by rewrite E in Hno.
Qed.

Lemma is_task_readable (task : dict) :
  is_task task ->
  (exists s, task !! "reminder_time" = Some (PStr s)
             /\ fromisoformat s = None /\ row_of task = Raise ValueError)
  \/ readable task.
Proof.
  intros (_ & (n & Hn) & (ds & dd & Hd & Hdd) & (rs & Hr & _) & (c & Hc) & _).
  destruct (fromisoformat rs) as [rd |] eqn:Er.
  - right. apply readable_fields. by exists (PBool c), (PStr n), ds, dd, rs, rd.
  - left. exists rs. repeat split; try done.
    unfold row_of, rbind, getitem, parse_iso.
    by rewrite Hc, Hn, Hd, Hdd, Hr, Er.
Qed.

Lemma is_task_setitem_reminded (task : obj) b :
  is_task (fields task) -> is_task (fields (setitem task "reminded" (PBool b))).
Proof.
  intros ((i & Hi) & (n & Hn) & (ds & dd & Hd & Hdd) & (rs & Hr) & (c & Hc)
          & _).
  unfold is_task. simpl. rewrite lookup_insert_eq, !lookup_insert_ne by done.
  repeat split; eauto.
Qed.

(** X12 (check_reminders, refresh_task_list).  At a clock without
    offset, over Tasks of the data
    model of which one has a [reminder_time] that does not read as a
    timestamp: the loop runs to its end and the file is written, but
    [refresh_task_list] is left by [ValueError], so the tick does not
    arm the timer again. *)
Theorem check_reminders_unreadable_reminder_time (now : datetime) (st : App)
    (task : obj) (s : string) :
  tzinfo now = None ->
  Forall (fun o => is_task (fields o)) (tasks st) ->
  In task (tasks st) ->
  fields task !! "reminder_time" = Some (PStr s) ->
  fromisoformat s = None ->
  exists fired,
    snd (check_reminders now st) = Raise ValueError
    /\ synced (fst (check_reminders now st))
    /\ log (fst (check_reminders now st)) = (log st ++ fired)%list
    /\ ~ In (After 1000) fired.
Proof.
  intros Hnow Hall Hin Hr Hs.
  destruct (remind_all_tasks now (tasks st) Hnow Hall)
    as (l' & evs & E & HF & Hev).
  exists evs.
  pose proof (remind_all_no_after now (tasks st)) as Hno.
  rewrite E in Hno. simpl in Hno.
  assert (Forall (fun o => is_task (fields o)) l') as Hall'.
  { apply Forall_forall. intros o' Ho'.
    apply list_elem_of_lookup in Ho' as [i Hi'].
    destruct (Forall2_lookup_r _ _ _ _ _ HF Hi') as (o & Hi & Hd & Hn).
    rewrite Forall_lookup in Hall. pose proof (Hall _ _ Hi) as Ho.
    destruct (remind_one_cases now o Hnow Ho) as [(Hdue & _) | (Hnd & _)].
    - rewrite (Hd Hdue). by apply is_task_setitem_reminded.
    - by rewrite (Hn Hnd). }
  assert (exists o', In o' l' /\ ~ readable (fields o')) as (o' & Hin' & Hbad).
  { apply list_elem_of_In, list_elem_of_lookup in Hin as [i Hi].
    destruct (Forall2_lookup_l _ _ _ _ _ HF Hi) as (o' & Hi' & Hd & Hn).
    exists o'. split.
    { apply list_elem_of_In, list_elem_of_lookup. eauto. }
    assert (fields o' !! "reminder_time" = Some (PStr s)) as Hr'.
    { assert (o' = task \/ o' = setitem task "reminded" (PBool true))
        as [-> | ->]; [| done |].
      - rewrite Forall_lookup in Hall. pose proof (Hall _ _ Hi) as Ho.
        destruct (remind_one_cases now task Hnow Ho)
          as [(Hdue & _) | (Hnd & _)];
          [right; by apply Hd | left; by apply Hn].
      - simpl. by rewrite lookup_insert_ne. }
    rewrite readable_fields.
    intros (c & n & ds & dd & rs & rd & _ & _ & _ & _ & Hrs & Hrd).
    congruence. }
  unfold check_reminders, bind, save_tasks, modify, emit. rewrite E. simpl.
  unfold refresh_task_list. simpl.
  pose proof (insert_rows_spec l') as Hrows.
  destruct (insert_rows l' []) as [rows r].
  destruct Hrows as [(-> & _ & Hreadable) | (e & o & -> & Hl & Hrow & _)].
  { exfalso. apply Hbad. rewrite Forall_forall in Hreadable.
    apply Hreadable. by apply list_elem_of_In. }
  simpl. rewrite Forall_lookup in Hall'.
  destruct (is_task_readable _ (Hall' _ _ Hl)) as [(s' & _ & _ & Hv) | [x Hx]];
    [| congruence].
  rewrite Hrow in Hv. inversion Hv; subst.
  unfold synced. simpl. repeat split; done.
Qed.


(** X13 (check_reminders, trigger_reminder).  A task that is not completed
    and not reminded, whose reminder time has come, but whose deadline
    does not read as a timestamp: [trigger_reminder] is left by
    [ValueError] before any channel fires, the loop catches it, and the
    task goes on unreminded and unflagged. *)
Theorem remind_one_unreadable_deadline (now : datetime) (task : obj)
    (name : pyval) (rs ds : string) (reminder_time : datetime) :
  fields task !! "completed" = Some (PBool false) ->
  fields task !! "reminded" = Some (PBool false) ->
  fields task !! "reminder_time" = Some (PStr rs) ->
  fromisoformat rs = Some reminder_time ->
  dt_leb reminder_time now = Ok true ->
  fields task !! "task" = Some name ->
  fields task !! "deadline" = Some (PStr ds) ->
  fromisoformat ds = None ->
  trigger_reminder task = Raise ValueError
  /\ remind_one now task = Ok (task, []).
Proof.
  intros Hc Hr Hrt Hp Hle Hn Hd Hdp.
  assert (trigger_reminder task = Raise ValueError) as Ht.
  { unfold trigger_reminder, rbind, getitem, parse_iso.
    by rewrite Hn, Hd, Hdp. }
  split; [exact Ht |].
  unfold remind_one, rbind, getitem, get_default, parse_iso.
  rewrite Hc, Hr, Hrt, Hp. simpl. by rewrite Hle, Ht.
Qed.

Lemma is_task_setitem (task : obj) k b :
  k = "completed" \/ k = "reminded" ->
  is_task (fields task) -> is_task (fields (setitem task k (PBool b))).
Proof.
  intros Hk ((i & Hi) & (n & Hn) & (ds & dd & Hd & Hdd) & (rs & Hr)
             & (c & Hc) & (r & Hrm)).
  unfold is_task. simpl. destruct Hk as [-> | ->];
    rewrite lookup_insert_eq, !lookup_insert_ne by done;
    repeat split; eauto.
Qed.

Lemma reset_reminder_selected st i task :
  (i < length (task_tree st))%nat -> tasks st !! i = Some task ->
  reset_reminder (Some i) st
  = if truthy (get_default (fields task) "reminded" (PBool false)) then
      (modify (set_tasks
         (<[i := setitem task "reminded" (PBool false)]> (tasks st)));;
       save_tasks;;
       refresh_task_list;;
       emit (ShowInfo "Reminder Reset"
               "Reminder status has been reset. You will be reminded again when the time comes."))%app st
    else
      emit (ShowInfo "No Action Needed"
              "This task hasn't been reminded yet.") st.
Proof.
  intros Htree Hi. pose proof (lookup_lt_Some _ _ _ Hi) as Hlen.
  unfold reset_reminder. unfold bind at 1.
  rewrite (selected_index_in_range st _ i Htree Hlen).
  unfold bind at 1, get_state. rewrite Hi.
  by destruct (truthy _).
Qed.

(** X14 (reset_reminder, check_reminders).  At a clock without offset,
    over Tasks of the data model:
    after [reset_reminder] on a reminded task that is not completed and
    whose reminder time has come, the next tick sends its reminder
    again and flags it again. *)
Theorem reset_then_tick_fires_again (now : datetime) (st : App) (i : nat)
    (task : obj) (s : string) (reminder_time : datetime) :
  tzinfo now = None ->
  Forall (fun o => is_task (fields o)) (tasks st) ->
  (i < length (task_tree st))%nat ->
  tasks st !! i = Some task ->
  fields task !! "reminded" = Some (PBool true) ->
  fields task !! "completed" = Some (PBool false) ->
  fields task !! "reminder_time" = Some (PStr s) ->
  fromisoformat s = Some reminder_time ->
  dt_leb reminder_time now = Ok true ->
  let st1 := run (ResetReminder (Some i)) st in
  let st2 := run (Tick now) st1 in
  tasks st1 !! i = Some (setitem task "reminded" (PBool false))
  /\ exists fired,
       log st2 = (log st1 ++ fired)%list
       /\ In (ref task) (reminded_objects fired)
       /\ tasks st2 !! i = Some task.
Proof.
  intros Hnow Hall Htree Hi Hrem Hc Hrt Hp Hle st1 st2. subst st2. cbn [run].
  pose proof (lookup_lt_Some _ _ _ Hi) as Hlen.
  set (task1 := setitem task "reminded" (PBool false)).
  assert (tasks st1 = <[i := task1]> (tasks st)) as Ht1.
  { subst st1. simpl. rewrite (reset_reminder_selected st i task Htree Hi).
    unfold get_default. rewrite Hrem. simpl truthy. cbv iota.
    match goal with
    | |- context [bind (modify ?f) _ ] =>
        match goal with
        | |- context [emit ?e] =>
            destruct (mutate_save_refresh f e st) as (Ht & _)
        end
    end.
    by rewrite Ht. }
  assert (tasks st1 !! i = Some task1) as Hi1.
  { rewrite Ht1. by apply list_lookup_insert_eq. }
  split; [exact Hi1 |].
  assert (Forall (fun o => is_task (fields o)) (tasks st1)) as Hall1.
  { rewrite Ht1. apply Forall_insert; [done |].
    apply is_task_setitem; [auto |]. rewrite Forall_lookup in Hall.
    by apply (Hall i). }
  assert (due now (fields task1)) as Hdue.
  { subst task1. unfold due. simpl.
    rewrite lookup_insert_eq, !lookup_insert_ne by done.
    repeat split; try done. by exists s, reminder_time. }
  destruct (check_reminders_log now st1) as (tail & Hlog & Htail & Hts).
  destruct (remind_all_tasks now (tasks st1) Hnow Hall1)
    as (l' & evs & E & HF & Hev).
  rewrite E in Hlog, Hts. simpl in Hlog, Hts.
  exists (evs ++ tail)%list. split; [done |]. split.
  - rewrite reminded_objects_app, Htail, app_nil_r. apply Hev.
    exists task1. split; [| split; [reflexivity | exact Hdue]].
    apply list_elem_of_In, list_elem_of_lookup. eauto.
  - destruct (Forall2_lookup_l _ _ _ _ _ HF Hi1) as (o' & Hi' & Hd & _).
    rewrite Hts, Hi', (Hd Hdue). subst task1. unfold setitem. simpl.
    rewrite insert_insert_eq, (insert_id _ _ _ Hrem). by destruct task.
Qed.

(** X15 (mark_completed, check_reminders).  Over Tasks of the data model
    held as distinct objects: once a task that was not completed has
    been marked completed, the next tick sends no reminder for it and
    leaves it as it is. *)
Theorem mark_completed_then_tick_silent (now : datetime) (st : App) (i : nat)
    (task : obj) :
  Forall (fun o => is_task (fields o)) (tasks st) ->
  NoDup (map ref (tasks st)) ->
  (i < length (task_tree st))%nat ->
  tasks st !! i = Some task ->
  fields task !! "completed" = Some (PBool false) ->
  let st1 := run (MarkCompleted (Some i)) st in
  let st2 := run (Tick now) st1 in
  tasks st1 !! i = Some (setitem task "completed" (PBool true))
  /\ exists fired,
       log st2 = (log st1 ++ fired)%list
       /\ ~ In (ref task) (reminded_objects fired)
       /\ tasks st2 !! i = tasks st1 !! i.
Proof.
  intros Hall Hnd Htree Hi Hc st1 st2. subst st2. cbn [run].
  pose proof (lookup_lt_Some _ _ _ Hi) as Hlen.
  set (task1 := setitem task "completed" (PBool true)).
  assert (tasks st1 = <[i := task1]> (tasks st)) as Ht1.
  { subst st1. simpl.
    rewrite (mark_completed_selected st i task Htree Hi), Hc. simpl truthy.
    match goal with
    | |- context [bind (modify ?f) _ ] =>
        match goal with
        | |- context [emit ?e] =>
            destruct (mutate_save_refresh f e st) as (Ht & _)
        end
    end.
    by rewrite Ht. }
  assert (tasks st1 !! i = Some task1) as Hi1.
  { rewrite Ht1. by apply list_lookup_insert_eq. }
  split; [exact Hi1 |].
  assert (Forall (fun o => is_task (fields o)) (tasks st1)) as Hall1.
  { rewrite Ht1. apply Forall_insert; [done |].
    apply is_task_setitem; [auto |]. rewrite Forall_lookup in Hall.
    by apply (Hall i). }
  assert (NoDup (map ref (tasks st1))) as Hnd1.
  { rewrite Ht1. replace (map ref (<[i := task1]> (tasks st)))
      with (map ref (tasks st)); [done |].
    apply list_eq. intros j. rewrite !list_lookup_fmap.
    destruct (decide (i = j)) as [<- | Hij].
    - rewrite list_lookup_insert_eq by done. by rewrite Hi.
    - by rewrite list_lookup_insert_ne. }
  assert (~ due now (fields task1)) as Hnot.
  { subst task1. unfold due. simpl. rewrite lookup_insert_eq.
    intros (Hx & _). done. }
  destruct (check_reminders_log now st1) as (tail & Hlog & Htail & Hts).
  pose proof (remind_all_fired now (tasks st1)) as Hev.
  pose proof (remind_all_frame now (tasks st1)) as HF.
  destruct (remind_all now (tasks st1)) as [[l' evs] r].
  simpl in Hlog, Hts, Hev.
  exists (evs ++ tail)%list. split; [done |].
  assert (fields task1 !! "completed" = Some (PBool true)) as Hc1
    by (subst task1; simpl; by rewrite lookup_insert_eq).
  split.
  - rewrite reminded_objects_app, Htail, app_nil_r.
    intros Hx. apply Hev in Hx as (o2 & c & Hin2 & Href & Hc2 & Tc2).
    assert (In task1 (tasks st1)) as Hin1
      by (apply list_elem_of_In, list_elem_of_lookup; eauto).
    rewrite (same_ref_same_object _ _ _ Hnd1 Hin2 Hin1 Href) in Hc2.
    rewrite Hc1 in Hc2. by inversion Hc2; subst.
  - destruct (Forall2_lookup_l _ _ _ _ _ HF Hi1)
      as (o' & Hi' & [-> | (_ & _ & c & Hc2 & Tc2)]).
    + by rewrite Hts, Hi'.
    + rewrite Hc1 in Hc2. by inversion Hc2; subst.
Qed.

(** ** More on sorting *)

(** X16 (sort_tasks).  Where [self.tasks] is a list and the deadline of
    every task reads as a timestamp without offset, [sort_tasks] makes
    the list a rearrangement of itself in which each task's deadline is
    not later than that of the task after it. *)
Theorem sort_tasks_ascending (st : App) :
  tasks_is st = IsList ->
  Forall (fun o => exists k, deadline_key o = Ok k /\ tzinfo k = None)
    (tasks st) ->
  let st' := fst (sort_tasks st) in
  Permutation (tasks st') (tasks st)
  /\ Sorted (fun a b => exists ka kb,
                deadline_key a = Ok ka /\ deadline_key b = Ok kb
                /\ dt_leb ka kb = Ok true) (tasks st').
Proof.
  intros Hlist Hall st'. split; [apply sort_tasks_perm |].
  pose proof (sort_tasks_sorts st Hlist) as H. fold st' in H.
  destruct (with_keys (tasks st)) as [keyed | e] eqn:E.
  - destruct (with_keys_snd _ _ E) as [Hsnd Hkeys].
    assert (mixed (map fst keyed) = false) as Hm.
    { apply naive_not_mixed. apply Forall_forall. intros k Hk.
      apply list_elem_of_fmap in Hk as (p & -> & Hp).
      pose proof (proj1 (Forall_forall _ _) Hkeys p Hp) as Hkp.
      destruct (proj1 (Forall_forall _ _) Hall (snd p)) as (k' & Hk' & Hn).
      { rewrite <- Hsnd. apply list_elem_of_fmap. eauto. }
      congruence. }
    rewrite Hm in H. destruct H as (Ht & Hp & Hs & Hk). rewrite Ht.
    clear Ht Hp E Hm. induction Hs as [| p l Hs IH Hhd]; simpl; [constructor |].
    apply Forall_cons in Hk as [Hp Hk].
    constructor; [by apply IH |].
    destruct Hhd as [| q l Hpq]; simpl; constructor.
    apply Forall_cons in Hk as [Hq _]. eauto.
  - exfalso. clear H st'. revert e E.
    induction Hall as [| o l (k & Hk & _) Hl IH]; simpl; intros e E; [done |].
    unfold rbind in E. rewrite Hk in E.
    destruct (with_keys l) as [ks | e'] eqn:El; [done |].
    by eapply IH.
Qed.

(** X17 (sort_tasks).  When the deadline of some task cannot be read, an
    exception leaves [sort_tasks] before the list is touched: the whole
    state is as it was, and no message is shown. *)
Theorem sort_tasks_unreadable_deadline (st : App) (task : obj) (e : exn) :
  In task (tasks st) ->
  deadline_key task = Raise e ->
  exists e', sort_tasks st = (st, Raise e').
Proof.
  intros Hin Hk.
  assert (exists e', with_keys (tasks st) = Raise e') as [e' He].
  { induction (tasks st) as [| o l IH]; simpl in *; [done |].
    unfold rbind. destruct (deadline_key o) as [k |] eqn:Eo; [| eauto].
    destruct Hin as [-> | Hin]; [congruence |].
    destruct (IH Hin) as [e' ->]. eauto. }
  unfold sort_tasks, bind, get_state, lift, raise. rewrite He.
  destruct (tasks_is st); eauto.
Qed.

Lemma readable_deadline_key (o : obj) :
  readable (fields o) -> exists k, deadline_key o = Ok k.
Proof.
  rewrite readable_fields.
  intros (c & n & ds & dd & rs & rd & _ & _ & Hd & Hdd & _).
  exists dd. unfold deadline_key, rbind, getitem, parse_iso.
  by rewrite Hd, Hdd.
Qed.

Lemma deadline_key_naive o k :
  deadline_key o = Ok k -> naive_time "deadline" (fields o) -> tzinfo k = None.
Proof.
  unfold deadline_key, rbind, getitem, parse_iso. intros H Hn.
  destruct (fields o !! "deadline") as [[| | | | s | |] |] eqn:E; try done.
  destruct (fromisoformat s) as [d |] eqn:Ed; [| done].
  inversion H; subst. by apply (Hn s).
Qed.

(** Deadlines without offset give keys that compare. *)
Lemma with_keys_naive l keyed :
  with_keys l = Ok keyed ->
  Forall (fun o => naive_time "deadline" (fields o)) l ->
  mixed (map fst keyed) = false.
Proof.
  intros Hk Hall. destruct (with_keys_snd _ _ Hk) as [Hsnd Hkeys].
  apply naive_not_mixed. apply Forall_forall. intros k Hin.
  apply list_elem_of_fmap in Hin as (p & -> & Hp).
  pose proof (proj1 (Forall_forall _ _) Hkeys p Hp) as Hkp.
  apply (deadline_key_naive _ _ Hkp).
  apply (proj1 (Forall_forall _ _) Hall).
  rewrite <- Hsnd. apply list_elem_of_fmap. eauto.
Qed.

(** X18 (sort_tasks, check_reminders).  When every task can be shown
    and no reminder time carries an offset: [sort_tasks] leaves the file
    behind, and the tick that follows, at a clock without offset, writes
    the list to it in the order the sort left. *)
Theorem sort_then_tick_persists (now : datetime) (st : App) :
  tzinfo now = None ->
  Forall (fun o => readable (fields o)) (tasks st) ->
  Forall (fun o => naive_time "reminder_time" (fields o)) (tasks st) ->
  let st1 := run SortTasks st in
  let st2 := run (Tick now) st1 in
  task_file st1 = task_file st
  /\ synced st2
  /\ map ref (tasks st2) = map ref (tasks st1)
  /\ Permutation (tasks st1) (tasks st).
Proof.
  intros Hnow Hall Hnaive st1 st2. subst st1 st2. simpl.
  pose proof (sort_tasks_perm st) as Hp.
  assert (Forall (fun o => readable (fields o)) (tasks (fst (sort_tasks st))))
    as Hall1.
  { rewrite Forall_forall in *. intros o Ho. apply Hall. by rewrite <- Hp. }
  assert (Forall (fun o => naive_time "reminder_time" (fields o))
            (tasks (fst (sort_tasks st)))) as Hnaive1.
  { rewrite Forall_forall in *. intros o Ho. apply Hnaive. by rewrite <- Hp. }
  destruct (check_reminders_readable now _ Hnow Hall1 Hnaive1)
    as (l' & evs & rows & _ & _ & Hrefs & ->).
  unfold synced. simpl.
  by destruct (sort_tasks_leaves_file st) as (-> & _).
Qed.

(** ** More on loading and adding *)

(** X19 (load_tasks).  From a file whose text [json.load] reads as a
    list of objects,
    [load_tasks] returns one task per object, in order; each has an [id]
    and a [reminded] field and keeps every field the object had; a
    missing [reminded] becomes [False], a missing [id] becomes
    [legacy_<index>_<milliseconds>]. *)
Theorem load_tasks_backfills (clock : nat -> Z) (st : App)
    (text : string) (records : list dict) :
  task_file st = Some (Text text) ->
  json_load text = Some (PList (map PDict records)) ->
  exists loaded,
    load_tasks clock st = (st, Ok (PList (map PDict loaded)))
    /\ length loaded = length records
    /\ forall (i : nat) (d : dict),
         records !! i = Some d ->
         exists d',
           loaded !! i = Some d'
           /\ is_Some (d' !! "id") /\ is_Some (d' !! "reminded")
           /\ (forall k v, d !! k = Some v -> d' !! k = Some v)
           /\ (forall k, k <> "id" -> k <> "reminded" -> d' !! k = d !! k)
           /\ (d !! "reminded" = None -> d' !! "reminded" = Some (PBool false))
           /\ (d !! "id" = None ->
               d' !! "id"
               = Some (PStr ("legacy_" +:+ str_of_int (Z.of_nat i) +:+ "_"
                             +:+ str_of_int (clock i)))).
Proof.
  intros Hf Hj. unfold load_tasks. rewrite Hf, Hj, repair_dicts.
  eexists. split; [reflexivity |].
  split; [by rewrite length_imap |].
  intros i d Hi. rewrite list_lookup_imap, Hi. simpl.
  eexists. split; [reflexivity |]. unfold backfill.
  destruct (d !! "reminded") as [r |] eqn:Er; cbv zeta;
    [| rewrite lookup_insert_ne by done];
    destruct (d !! "id") as [x |] eqn:Ex.
  - rewrite Er, Ex. repeat split; eauto; congruence.
  - rewrite lookup_insert_eq, lookup_insert_ne, Er by done.
    repeat split; eauto; try congruence.
    + intros k v Hk. rewrite lookup_insert_ne; [done | congruence].
    + intros k Hk _. by rewrite lookup_insert_ne.
  - rewrite lookup_insert_eq, lookup_insert_ne, Ex by done.
    repeat split; eauto; try congruence.
    + intros k v Hk. rewrite lookup_insert_ne; [done | congruence].
    + intros k _ Hk. by rewrite lookup_insert_ne.
  - rewrite lookup_insert_eq, lookup_insert_ne, lookup_insert_eq by done.
    repeat split; eauto; try congruence.
    + intros k v Hk. rewrite !lookup_insert_ne; [done | congruence | congruence].
    + intros k Hk1 Hk2. by rewrite !lookup_insert_ne.
Qed.

(** X20 (add_task).  Where [self.tasks] is a list: when the description
    is not empty and the deadline
    is accepted, [add_task] leaves the tasks that were there untouched
    and appends one task: a new object, with the clock reading as id,
    the trimmed description, not completed, not reminded; and the file
    mirrors the list. *)
Theorem add_task_creates_pending_task
    (task_entry deadline_entry : string) (reminder_hours reminder_minutes : Z)
    (now : datetime) (time_ms : Z) (st : App) (deadline reminder_time : datetime) :
  tasks_is st = IsList ->
  strip task_entry <> "" ->
  strptime (str_of_int (year now) +:+ " " +:+ strip deadline_entry)
    "%Y %d/%m %H:%M" = Some deadline ->
  dt_sub deadline (timedelta reminder_hours reminder_minutes)
  = Ok reminder_time ->
  let st' := fst (add_task task_entry deadline_entry reminder_hours
                    reminder_minutes now time_ms st) in
  exists task,
    tasks st' = (tasks st ++ [task])%list
    /\ ref task = next_ref st
    /\ fields task !! "id" = Some (PStr (str_of_int time_ms))
    /\ fields task !! "task" = Some (PStr (strip task_entry))
    /\ fields task !! "completed" = Some (PBool false)
    /\ fields task !! "reminded" = Some (PBool false)
    /\ synced st'.
Proof.
  intros Hlist Hne Hparse Hsub st'.
  assert (parse_deadline now (strip deadline_entry) reminder_hours
            reminder_minutes = Ok (deadline, reminder_time)) as Hp.
  { unfold parse_deadline. rewrite Hparse, Hsub. reflexivity. }
  destruct (add_task_appends task_entry deadline_entry reminder_hours
              reminder_minutes now time_ms st deadline reminder_time
              Hlist Hne Hp)
    as (Ht & _ & Hf & _).
  fold st' in Ht, Hf. eexists. split; [exact Ht |].
  repeat split; done.
Qed.

(** ** What holds in every state the application goes through *)

Lemma selected_index_cases what selection st :
  (exists i,
     (i < length (task_tree st))%nat /\ (i < length (tasks st))%nat
     /\ selected_index what selection st = (st, Ok (Some i)))
  \/ (exists e, selected_index what selection st = (add_log [e] st, Ok None)).
Proof.
  unfold selected_index, bind, get_state, emit, modify, ret.
  destruct selection as [i |]; [| right; eauto].
  destruct (Nat.leb_spec (length (task_tree st)) i); [right; eauto |].
  destruct (Nat.leb_spec (length (tasks st)) i); [right; eauto |].
  left. exists i. auto.
Qed.

(** How one turn of the event loop changes the list: tasks are changed
    in place by writing one of three fields, or one task is appended, or
    one is removed, or the list is rearranged. *)
Lemma run_cases (a : action) (st : App) :
  (next_ref (run a st) = next_ref st
   /\ Forall2 (written_by a) (tasks st) (tasks (run a st)))
  \/ (exists id text now dtext h m deadline reminder_time,
        parse_deadline now dtext h m = Ok (deadline, reminder_time)
        /\ next_ref (run a st) = S (next_ref st)
        /\ tasks (run a st)
           = (tasks st ++ [mkobj (next_ref st)
                             (new_task id text deadline reminder_time)])%list
        /\ tasks_is st = IsList)
  \/ (next_ref (run a st) = next_ref st
      /\ exists i, tasks (run a st) = delete i (tasks st))
  \/ (next_ref (run a st) = next_ref st
      /\ Permutation (tasks (run a st)) (tasks st)).
Proof.
  assert (forall l : list obj, Forall2 (written_by a) l l) as Hrefl.
  { intros l. apply Forall2_same_length_lookup_2; [done |].
    intros i x y Hx Hy. left. congruence. }
  assert (forall (l : list obj) i task o',
            l !! i = Some task -> written_by a task o' ->
            Forall2 (written_by a) l (<[i := o']> l)) as Hins.
  { intros l i task o' Hi Hw.
    rewrite <- (list_insert_id l i task Hi) at 1.
    apply Forall2_insert; [apply Hrefl | done]. }
  destruct a as [te de h m now ms | sel | r text | sel c | sel | sel | | now];
    cbn [run].
  - (* add_task *)
    destruct (String.eqb_spec (strip te) "") as [Hempty | Hne].
    { left. unfold add_task. rewrite Hempty. simpl. auto. }
    destruct (parse_deadline now (strip de) h m) as [[dl rt] | e] eqn:Hp.
    + destruct (tasks_is st) eqn:Hlist.
      2,3: left; unfold add_task, bind, get_state;
           destruct (String.eqb_spec (strip te) ""); [contradiction |];
           rewrite Hp; simpl; rewrite Hlist; simpl; auto.
      right. left.
      destruct (add_task_appends te de h m now ms st dl rt Hlist Hne Hp)
        as (Ht & Hn & _).
      exists (str_of_int ms), (strip te), now, (strip de), h, m, dl, rt. auto.
    + left. unfold add_task.
      destruct (String.eqb_spec (strip te) ""); [contradiction |].
      cbv zeta. rewrite Hp. destruct e; simpl; auto.
  - (* edit_task *)
    left. unfold edit_task, bind.
    destruct (selected_index_cases "edit" sel st)
      as [(i & _ & _ & ->) | (e & ->)]; simpl; [| auto].
    unfold get_state, lift, getitem, ret.
    destruct (tasks st !! i) as [task |]; [| auto].
    destruct (fields task !! "task"); auto.
  - (* save_edit *)
    left. unfold save_edit.
    destruct (String.eqb (strip text) ""); [simpl; auto |].
    cbv zeta. cbv beta iota delta [negb].
    match goal with
    | |- context [bind (modify ?f) _ ] =>
        match goal with
        | |- context [emit ?e] =>
            destruct (mutate_save_refresh f e st) as (Ht & Hn & _)
        end
    end.
    rewrite Ht, Hn. simpl. split; [done |].
    apply Forall2_fmap_r, Forall2_same_length_lookup_2; [done |].
    intros i x y Hx Hy. assert (x = y) as -> by congruence.
    unfold compose, written_by.
    destruct (ref y =? r)%nat; [| by left].
    right. right. left. by eexists.
  - (* delete_task *)
    destruct (selected_index_cases "delete" sel st)
      as [(i & Htree & Hlen & Hs) | (e & Hs)].
    2:{ left. unfold delete_task, bind. rewrite Hs. simpl. auto. }
    destruct (lookup_lt_is_Some_2 _ _ Hlen) as [task Hi].
    assert (sel = Some i) as ->.
    { unfold selected_index, bind, get_state, emit, modify, ret in Hs.
      destruct sel as [j |]; [| done].
      destruct (length (task_tree st) <=? j)%nat; [done |].
      destruct (length (tasks st) <=? j)%nat; [done |]. congruence. }
    rewrite (delete_task_selected st i task c Htree Hi).
    destruct (fields task !! "task"); [| left; auto].
    destruct c; [| left; auto].
    right. right. left.
    match goal with
    | |- context [bind (modify ?f) _ ] =>
        match goal with
        | |- context [emit ?e] =>
            destruct (mutate_save_refresh f e st) as (Ht & Hn & _)
        end
    end.
    rewrite Ht, Hn. simpl. eauto.
  - (* mark_completed *)
    left.
    destruct (selected_index_cases "mark as completed" sel st)
      as [(i & Htree & Hlen & Hs) | (e & Hs)].
    2:{ unfold mark_completed, bind. rewrite Hs. simpl. auto. }
    destruct (lookup_lt_is_Some_2 _ _ Hlen) as [task Hi].
    assert (sel = Some i) as ->.
    { unfold selected_index, bind, get_state, emit, modify, ret in Hs.
      destruct sel as [j |]; [| done].
      destruct (length (task_tree st) <=? j)%nat; [done |].
      destruct (length (tasks st) <=? j)%nat; [done |]. congruence. }
    rewrite (mark_completed_selected st i task Htree Hi).
    destruct (fields task !! "completed"); [| auto].
    match goal with
    | |- context [bind (modify ?f) _ ] =>
        match goal with
        | |- context [emit ?e] =>
            destruct (mutate_save_refresh f e st) as (Ht & Hn & _)
        end
    end.
    rewrite Ht, Hn. simpl. split; [done |].
    apply (Hins _ _ task); [done |]. right. left. by eexists.
  - (* reset_reminder *)
    left.
    destruct (selected_index_cases "reset reminder" sel st)
      as [(i & Htree & Hlen & Hs) | (e & Hs)].
    2:{ unfold reset_reminder, bind. rewrite Hs. simpl. auto. }
    destruct (lookup_lt_is_Some_2 _ _ Hlen) as [task Hi].
    assert (sel = Some i) as ->.
    { unfold selected_index, bind, get_state, emit, modify, ret in Hs.
      destruct sel as [j |]; [| done].
      destruct (length (task_tree st) <=? j)%nat; [done |].
      destruct (length (tasks st) <=? j)%nat; [done |]. congruence. }
    rewrite (reset_reminder_selected st i task Htree Hi).
    destruct (truthy _); [| simpl; auto].
    match goal with
    | |- context [bind (modify ?f) _ ] =>
        match goal with
        | |- context [emit ?e] =>
            destruct (mutate_save_refresh f e st) as (Ht & Hn & _)
        end
    end.
    rewrite Ht, Hn. simpl. split; [done |].
    apply (Hins _ _ task); [done |]. do 4 right. split; [done | by eexists].
  - (* sort_tasks *)
    right. right. right.
    destruct (sort_tasks_leaves_file st) as (_ & _ & Hn).
    split; [exact Hn | apply sort_tasks_perm].
  - (* check_reminders *)
    left.
    destruct (check_reminders_log now st) as (tail & _ & _ & Ht).
    pose proof (remind_all_frame now (tasks st)) as HF.
    assert (next_ref (fst (check_reminders now st)) = next_ref st) as Hn.
    { unfold check_reminders, bind, save_tasks, modify, emit.
      destruct (remind_all now (tasks st)) as [[l evs] r]. simpl.
      destruct r as [[] | e]; simpl; [| done].
      match goal with
      | |- context [refresh_task_list ?s] =>
          destruct (refresh_task_list_frame s) as (tree & r & ->)
      end.
      by destruct r. }
    rewrite Ht. destruct (remind_all now (tasks st)) as [[l evs] r].
    split; [done |]. simpl. eapply Forall2_impl; [exact HF |]. simpl.
    intros o o' [-> | (-> & _)]; [by left |].
    do 3 right. by left.
Qed.

(** What [self.tasks] is stays what [__init__] made it: a tick does not
    change it. *)
Lemma check_reminders_tasks_is now st :
  tasks_is (fst (check_reminders now st)) = tasks_is st.
Proof.
  unfold check_reminders, bind, save_tasks, modify, emit.
  destruct (remind_all now (tasks st)) as [[l evs] r]. simpl.
  destruct r as [[] | e]; simpl; [| done].
  match goal with
  | |- context [refresh_task_list ?s] =>
      destruct (refresh_task_list_frame s) as (tree & r & ->)
  end.
  by destruct r.
Qed.

(** No turn of the event loop changes what [self.tasks] is. *)
Lemma run_tasks_is (a : action) (st : App) :
  tasks_is (run a st) = tasks_is st.
Proof.
  destruct a as [te de h m now ms | sel | r text | sel c | sel | sel | | now];
    cbn [run].
  - (* add_task *)
    destruct (String.eqb_spec (strip te) "") as [Hempty | Hne].
    { unfold add_task. by rewrite Hempty. }
    destruct (parse_deadline now (strip de) h m) as [[dl rt] | e] eqn:Hp.
    + destruct (tasks_is st) eqn:Hlist.
      2,3: rewrite (add_task_no_list te de h m now ms st dl rt); try done;
           congruence.
      rewrite (add_task_accepted _ _ _ _ _ _ _ _ _ Hlist Hne Hp).
      by rewrite mutate_save_refresh_is.
    + unfold add_task.
      destruct (String.eqb_spec (strip te) ""); [contradiction |].
      cbv zeta. rewrite Hp. by destruct (is_ValueError e).
  - (* edit_task *)
    unfold edit_task, bind.
    destruct (selected_index_cases "edit" sel st)
      as [(i & _ & _ & ->) | (e & ->)]; simpl; [| done].
    unfold get_state, lift, getitem, ret.
    destruct (tasks st !! i) as [task |]; [| done].
    by destruct (fields task !! "task").
  - (* save_edit *)
    unfold save_edit.
    destruct (String.eqb (strip text) ""); [done |].
    cbv zeta. cbv beta iota delta [negb].
    by rewrite mutate_save_refresh_is.
  - (* delete_task *)
    destruct (selected_index_cases "delete" sel st)
      as [(i & Htree & Hlen & Hs) | (e & Hs)].
    2:{ unfold delete_task, bind. by rewrite Hs. }
    destruct (lookup_lt_is_Some_2 _ _ Hlen) as [task Hi].
    assert (sel = Some i) as ->.
    { unfold selected_index, bind, get_state, emit, modify, ret in Hs.
      destruct sel as [j |]; [| done].
      destruct (length (task_tree st) <=? j)%nat; [done |].
      destruct (length (tasks st) <=? j)%nat; [done |]. congruence. }
    rewrite (delete_task_selected st i task c Htree Hi).
    destruct (fields task !! "task"); [| done].
    destruct c; [| done]. by rewrite mutate_save_refresh_is.
  - (* mark_completed *)
    destruct (selected_index_cases "mark as completed" sel st)
      as [(i & Htree & Hlen & Hs) | (e & Hs)].
    2:{ unfold mark_completed, bind. by rewrite Hs. }
    destruct (lookup_lt_is_Some_2 _ _ Hlen) as [task Hi].
    assert (sel = Some i) as ->.
    { unfold selected_index, bind, get_state, emit, modify, ret in Hs.
      destruct sel as [j |]; [| done].
      destruct (length (task_tree st) <=? j)%nat; [done |].
      destruct (length (tasks st) <=? j)%nat; [done |]. congruence. }
    rewrite (mark_completed_selected st i task Htree Hi).
    destruct (fields task !! "completed"); [| done].
    by rewrite mutate_save_refresh_is.
  - (* reset_reminder *)
    destruct (selected_index_cases "reset reminder" sel st)
      as [(i & Htree & Hlen & Hs) | (e & Hs)].
    2:{ unfold reset_reminder, bind. by rewrite Hs. }
    destruct (lookup_lt_is_Some_2 _ _ Hlen) as [task Hi].
    assert (sel = Some i) as ->.
    { unfold selected_index, bind, get_state, emit, modify, ret in Hs.
      destruct sel as [j |]; [| done].
      destruct (length (task_tree st) <=? j)%nat; [done |].
      destruct (length (tasks st) <=? j)%nat; [done |]. congruence. }
    rewrite (reset_reminder_selected st i task Htree Hi).
    destruct (truthy _); [| done]. by rewrite mutate_save_refresh_is.
  - (* sort_tasks *)
    by destruct (sort_tasks_leaves_file st) as (_ & ? & _).
  - (* check_reminders *)
    apply check_reminders_tasks_is.
Qed.

(** Where [self.tasks] is no list it stays empty. *)
Lemma run_no_list (a : action) (st : App) :
  tasks_is st <> IsList -> tasks st = [] -> tasks (run a st) = [].
Proof.
  intros Hno Hnil.
  destruct (run_cases a st)
    as [[_ H]
       | [(id & text & now & dtext & h & m & dl & rt & _ & _ & _ & Hlist)
         | [[_ [i Ht]] | [_ Hperm]]]].
  - rewrite Hnil in H. by inversion H.
  - done.
  - by rewrite Ht, Hnil.
  - rewrite Hnil in Hperm. by apply Permutation_nil_r in Hperm.
Qed.

Lemma written_by_field_written a o o' :
  written_by a o o' -> field_written o o'.
Proof.
  intros [-> | [[v ->] | [[v ->] | [-> | [-> _]]]]];
    [by left | right ..]; eexists _, _; eauto.
Qed.


Lemma field_written_refs l l' :
  Forall2 field_written l l' -> map ref l' = map ref l.
Proof.
  induction 1 as [| o o' l l' [-> | (k & v & _ & ->)] _ IH]; simpl;
    by rewrite ?IH.
Qed.

Lemma field_written_Forall (P : obj -> Prop) l l' :
  (forall o o', field_written o o' -> P o -> P o') ->
  Forall2 field_written l l' -> Forall P l -> Forall P l'.
Proof.
  intros HP H. induction H; inversion 1; subst; constructor; eauto.
Qed.

(** A property of tasks that the writes to the three fields keep, and
    that the tasks [add_task] builds have, is kept by every turn of the
    event loop. *)
Lemma run_preserves (P : obj -> Prop) a st :
  (forall o o', field_written o o' -> P o -> P o') ->
  (forall r id text now dtext h m deadline reminder_time,
     parse_deadline now dtext h m = Ok (deadline, reminder_time) ->
     P (mkobj r (new_task id text deadline reminder_time))) ->
  Forall P (tasks st) -> Forall P (tasks (run a st)).
Proof.
  intros Hw Hnew Hall.
  destruct (run_cases a st)
    as [[_ H]
       | [(id & text & now & dtext & h & m & dl & rt & Hp & _ & -> & _)
         | [[_ [i ->]] | [_ Hperm]]]].
  - eapply field_written_Forall; [exact Hw | | exact Hall].
    eapply Forall2_impl; [exact H | apply written_by_field_written].
  - apply Forall_app. split; [done |]. constructor; [eauto | constructor].
  - by apply Forall_delete.
  - rewrite Forall_forall in *. intros o Ho. apply Hall. by rewrite <- Hperm.
Qed.

Lemma run_refs_fresh a st : refs_fresh st -> refs_fresh (run a st).
Proof.
  intros [Hnd Hlt]. unfold refs_fresh.
  destruct (run_cases a st)
    as [[Hn H]
       | [(id & text & now & dtext & h & m & dl & rt & _ & Hn & Ht & _)
         | [[Hn [i Ht]] | [Hn Hperm]]]]; rewrite Hn.
  - rewrite (field_written_refs (tasks st) (tasks (run a st))); [done |].
    eapply Forall2_impl; [exact H | apply written_by_field_written].
  - rewrite Ht, map_app. simpl. split.
    + apply NoDup_app. split; [done |]. split; [| apply NoDup_singleton].
      intros x Hx Hx'. apply list_elem_of_singleton in Hx'. subst x.
      rewrite Forall_forall in Hlt. specialize (Hlt _ Hx). lia.
    + apply Forall_app. split.
      * eapply Forall_impl; [exact Hlt |]. simpl. lia.
      * constructor; [simpl; lia | constructor].
  - rewrite Ht. change (map ref (delete i (tasks st)))
      with (ref <$> delete i (tasks st)).
    rewrite list_fmap_delete. split; [| by apply Forall_delete].
    eapply sublist_NoDup; [exact Hnd | apply sublist_delete].
  - pose proof (Permutation_map ref Hperm) as Hp.
    split.
    + by rewrite Hp.
    + rewrite Forall_forall in *. intros r Hr. apply Hlt. by rewrite <- Hp.
Qed.

Lemma field_written_keys o o' k :
  field_written o o' ->
  is_Some (fields o !! k) -> is_Some (fields o' !! k).
Proof.
  intros [-> | (k' & v & _ & ->)]; [done |]. simpl. intros H.
  destruct (decide (k' = k)) as [-> | Hk].
  - by rewrite lookup_insert_eq.
  - by rewrite lookup_insert_ne.
Qed.

Lemma backfill_keys ms i (task : dict) :
  is_Some (backfill ms i task !! "id")
  /\ is_Some (backfill ms i task !! "reminded").
Proof.
  unfold backfill.
  destruct (task !! "reminded") as [r |] eqn:Er; cbv zeta;
    [| rewrite lookup_insert_ne by done];
    destruct (task !! "id") as [x |] eqn:Ex.
  - by rewrite Er, Ex.
  - by rewrite lookup_insert_eq, lookup_insert_ne, Er.
  - by rewrite lookup_insert_eq, lookup_insert_ne, Ex.
  - by rewrite lookup_insert_eq, lookup_insert_ne, lookup_insert_eq.
Qed.

Lemma repair_items_keys clock l : forall i l',
  repair_items clock i l = Ok l' ->
  Forall (fun v => forall d, v = PDict d ->
                   is_Some (d !! "id") /\ is_Some (d !! "reminded")) l'.
Proof.
  induction l as [| v l IH]; simpl; intros i l' H.
  - inversion H. constructor.
  - destruct (repair_item (clock i) i v) as [v' |] eqn:Ev; [| done].
    destruct (repair_items clock (S i) l) as [l'' |] eqn:El; [| done].
    inversion H; subst. constructor; [| by eapply IH].
    intros d ->.
    destruct v; simpl in Ev; try done;
      try (destruct (_ && _); done).
    inversion Ev. apply backfill_keys.
Qed.

(** The dicts of the list [load_tasks] returns have their [id] and
    [reminded]. *)
Lemma load_tasks_keys clock st l :
  snd (load_tasks clock st) = Ok (PList l) ->
  Forall (fun v => forall d, v = PDict d ->
                   is_Some (d !! "id") /\ is_Some (d !! "reminded")) l.
Proof.
  unfold load_tasks. destruct (task_file st) as [[| text] |]; simpl.
  - done.
  - destruct (json_load text) as [v |]; [| done]. simpl.
    destruct v as [| | | | s | l0 | d0]; simpl; try done.
    + by destruct (String.eqb s "").
    + destruct (repair_items clock 0 l0) as [l' |] eqn:El; [| done].
      intros [= <-]. by eapply repair_items_keys.
    + by destruct (forallb _ _).
  - intros [= <-]. constructor.
Qed.

Lemma dicts_of_Some l records :
  dicts_of l = Some records -> l = map PDict records.
Proof.
  revert records. induction l as [| v l IH]; simpl; intros records H.
  - by inversion H.
  - destruct v; try done.
    destruct (dicts_of l) as [ds |]; [| done].
    inversion H; subst. simpl. by rewrite (IH ds).
Qed.

Lemma dicts_of_map records : dicts_of (map PDict records) = Some records.
Proof. induction records as [| d ds IH]; simpl; [done |]. by rewrite IH. Qed.

Lemma leading_dicts_in l d : In d (leading_dicts l) -> In (PDict d) l.
Proof.
  induction l as [| v l IH]; simpl; [done |].
  destruct v; try done. simpl. intros [-> | H]; auto.
Qed.

(** What holds of the state [__init__] leaves, however it ends. *)
Lemma init_invariant (Q : App -> Prop) clock now f :
  (forall tree s, Q s -> Q (set_task_tree tree s)) ->
  (forall s, Q s -> Q (fst (check_reminders now s))) ->
  Q (boot f) ->
  Q (set_tasks_is IsEmptyDict (boot f)) ->
  Q (set_tasks_is IsEmptyStr (boot f)) ->
  (forall l records,
     snd (load_tasks clock (boot f)) = Ok (PList l) ->
     (forall d, In d records -> In (PDict d) l) ->
     Q (install records (boot f))) ->
  Q (fst (init clock now (boot f))).
Proof.
  intros Htree Htick H0 Hd Hs Hl.
  assert (forall e st', Q st' -> Q (fst (@raise unit e st'))) as Hraise
    by done.
  assert (forall (k : M unit) st,
            Q st -> (forall st', Q st' -> Q (fst (k st'))) ->
            Q (fst ((refresh_task_list;; k)%app st))) as Hrefresh.
  { intros k st H Hk. unfold bind.
    destruct (refresh_task_list_frame st) as (tree & r & ->).
    destruct r; [| by apply Htree]. by apply Hk, Htree. }
  unfold init, bind at 1.
  pose proof (load_tasks_state clock (boot f)) as Hst.
  destruct (load_tasks clock (boot f)) as [st0 [loaded | e]] eqn:El;
    simpl in Hst; subst st0; [| exact H0].
  destruct loaded as [| b | n | x | s | l | d].
  1-4: by apply Hrefresh; [| apply Hraise].
  - destruct (String.eqb s "").
    + unfold bind at 1, modify. by apply Hrefresh.
    + by apply Hrefresh; [| apply Hraise].
  - destruct (dicts_of l) as [records |] eqn:Ed.
    + unfold bind at 1, modify. apply Hrefresh; [| done].
      apply (Hl l); [done |].
      intros d Hin. rewrite (dicts_of_Some _ _ Ed). by apply in_map.
    + unfold bind at 1, modify. apply Hrefresh; [| apply Hraise].
      apply (Hl l); [done |]. apply leading_dicts_in.
  - destruct (bool_decide (d = ∅)).
    + unfold bind at 1, modify. by apply Hrefresh.
    + by apply Hrefresh; [| apply Hraise].
Qed.

(** The tasks [__init__] installs have their [id] and [reminded]. *)
Lemma init_keys clock now f :
  Forall (fun o => is_Some (fields o !! "id")
                   /\ is_Some (fields o !! "reminded"))
    (tasks (fst (init clock now (boot f)))).
Proof.
  apply (init_invariant
           (fun s => Forall (fun o => is_Some (fields o !! "id")
                                      /\ is_Some (fields o !! "reminded"))
                       (tasks s))); try done; try by constructor.
  - intros s H.
    apply (run_preserves _ (Tick now) s); [| | exact H].
    + intros o o' Hw [Hid Hr]. split; eapply field_written_keys; eauto.
    + intros. split; by eexists.
  - intros l records Hload Hin. simpl. unfold allocate.
    apply Forall_lookup. intros i o. rewrite list_lookup_imap.
    destruct (records !! i) as [d |] eqn:Hi; simpl; [| done].
    intros [= <-]. simpl.
    pose proof (load_tasks_keys _ _ _ Hload) as Hk.
    rewrite Forall_forall in Hk. apply (Hk (PDict d)); [| done].
    apply list_elem_of_In, Hin, list_elem_of_In.
    by eapply list_elem_of_lookup_2.
Qed.

(** Where [self.tasks] is no list it is empty. *)
Lemma init_no_list clock now f :
  let st := fst (init clock now (boot f)) in
  tasks_is st <> IsList -> tasks st = [].
Proof.
  apply (init_invariant (fun s => tasks_is s <> IsList -> tasks s = []));
    try done.
  intros s H. rewrite check_reminders_tasks_is. intros Hno.
  destruct (check_reminders_log now s) as (tail & _ & _ & ->).
  rewrite (H Hno). done.
Qed.

(** A tick that returns has shown every task, written the file and armed
    the timer. *)
Lemma check_reminders_ok now st st' :
  check_reminders now st = (st', Ok tt) ->
  Forall (fun o => readable (fields o)) (tasks st')
  /\ synced st'
  /\ last (log st') = Some (After 1000).
Proof.
  unfold check_reminders, bind, save_tasks, modify, emit.
  destruct (remind_all now (tasks st)) as [[l evs] r]. simpl.
  destruct r as [[] | e]; simpl; [| done].
  unfold refresh_task_list. cbn [tasks set_task_file add_log set_tasks].
  pose proof (insert_rows_spec l) as H.
  destruct (insert_rows l []) as [rows r].
  destruct H as [(-> & _ & Hall) | (e & o & -> & _)]; [| done].
  intros [= <-]. split; [exact Hall |]. split; [reflexivity |].
  simpl. apply last_snoc.
Qed.

Lemma bind_ok {A B} (m : M A) (k : A -> M B) st st' b :
  bind m k st = (st', Ok b) ->
  exists st1 a, m st = (st1, Ok a) /\ k a st1 = (st', Ok b).
Proof.
  unfold bind. destruct (m st) as [st1 [a | e]]; [eauto | done].
Qed.

(** How [__init__] returns: [load_tasks] gave a list of dicts, or the
    empty dict, or the empty string; [refresh_task_list] showed it, and
    the first tick returned. *)
Lemma init_returns clock now f st :
  init clock now (boot f) = (st, Ok tt) ->
  exists st0 tree,
    ((exists records,
        load_tasks clock (boot f) = (boot f, Ok (PList (map PDict records)))
        /\ st0 = install records (boot f))
     \/ (load_tasks clock (boot f) = (boot f, Ok (PDict ∅))
         /\ st0 = set_tasks_is IsEmptyDict (boot f))
     \/ (load_tasks clock (boot f) = (boot f, Ok (PStr ""))
         /\ st0 = set_tasks_is IsEmptyStr (boot f)))
    /\ refresh_task_list st0 = (set_task_tree tree st0, Ok tt)
    /\ check_reminders now (set_task_tree tree st0) = (st, Ok tt).
Proof.
  assert (forall st0 (k : M unit),
            (refresh_task_list;; k)%app st0 = (st, Ok tt) ->
            exists tree,
              refresh_task_list st0 = (set_task_tree tree st0, Ok tt)
              /\ k (set_task_tree tree st0) = (st, Ok tt)) as Hrefresh.
  { intros st0 k H. unfold bind in H.
    destruct (refresh_task_list_frame st0) as (tree & r & E).
    rewrite E in H. destruct r as [[] |]; [eauto | done]. }
  assert (forall st0, ~ (refresh_task_list;; raise TypeError)%app st0
                        = (st, Ok tt)) as Hno.
  { intros st0 H. destruct (Hrefresh _ _ H) as (tree & _ & ?). done. }
  unfold init. intros H.
  apply bind_ok in H as (st1 & loaded & El & H).
  pose proof (load_tasks_state clock (boot f)) as Hst.
  rewrite El in Hst. simpl in Hst. subst st1.
  destruct loaded as [| b | n | x | s | l | d];
    try (by destruct (Hno _ H)).
  - destruct (String.eqb s "") eqn:Es; [| by destruct (Hno _ H)].
    apply String.eqb_eq in Es. subst s.
    unfold bind at 1, modify in H.
    destruct (Hrefresh _ _ H) as (tree & Hr & Hk).
    eexists _, tree. split; [| done]. right. right. done.
  - destruct (dicts_of l) as [records |] eqn:Ed.
    + unfold bind at 1, modify in H.
      destruct (Hrefresh _ _ H) as (tree & Hr & Hk).
      eexists _, tree. split; [| done]. left. exists records.
      by rewrite <- (dicts_of_Some _ _ Ed).
    + unfold bind at 1, modify in H. by destruct (Hno _ H).
  - destruct (bool_decide (d = ∅)) eqn:Ed; [| by destruct (Hno _ H)].
    apply bool_decide_eq_true in Ed. subst d.
    unfold bind at 1, modify in H.
    destruct (Hrefresh _ _ H) as (tree & Hr & Hk).
    eexists _, tree. split; [| done]. right. left. done.
Qed.

(** When [__init__] returns, every task can be shown and the file
    mirrors the list. *)
Lemma init_ok clock now f st :
  init clock now (boot f) = (st, Ok tt) ->
  Forall (fun o => readable (fields o)) (tasks st) /\ synced st.
Proof.
  intros H. destruct (init_returns _ _ _ _ H) as (st0 & tree & _ & _ & Hk).
  by destruct (check_reminders_ok _ _ _ Hk) as (? & ? & _).
Qed.

Lemma dt_sub_raises d td e : dt_sub d td = Raise e -> e = OverflowError.
Proof.
  unfold dt_sub.
  destruct ((0 <? _) && _); [| congruence].
  by destruct (ord2ymd _) as [[y m] dd].
Qed.

Lemma parse_deadline_raises now dtext h m e :
  parse_deadline now dtext h m = Raise e ->
  e = ValueError \/ e = OverflowError.
Proof.
  unfold parse_deadline.
  destruct (strptime _ _) as [dl |]; [| left; congruence].
  destruct (dt_sub dl (timedelta h m)) as [rt | e'] eqn:E; simpl; [done |].
  intros [= <-]. right. by eapply dt_sub_raises.
Qed.

Section Contracts.

(** What the two parsers of the [datetime] module give: [strptime], on
    the format of [add_task], returns dates that exist, without offset;
    and [fromisoformat] reads back what [isoformat] writes of such a
    date. *)
Hypothesis fromisoformat_isoformat :
  forall d, valid_datetime d -> tzinfo d = None ->
            fromisoformat (isoformat d) = Some d.
Hypothesis strptime_valid :
  forall s d, strptime s "%Y %d/%m %H:%M" = Some d ->
              valid_datetime d /\ tzinfo d = None.

Lemma new_task_readable id text now dtext h m deadline reminder_time :
  parse_deadline now dtext h m = Ok (deadline, reminder_time) ->
  readable (new_task id text deadline reminder_time)
  /\ naive_times (new_task id text deadline reminder_time).
Proof.
  unfold parse_deadline.
  destruct (strptime _ _) as [dl |] eqn:Es; [| done].
  destruct (dt_sub dl (timedelta h m)) as [rt |] eqn:E; simpl; [| done].
  intros [= <- <-].
  destruct (strptime_valid _ _ Es) as [Hv Hn].
  destruct (dt_sub_sound _ _ _ Hv E) as (Hv' & _).
  pose proof (dt_sub_tzinfo _ _ _ E) as Hn'. rewrite Hn in Hn'.
  split.
  - apply readable_fields.
    exists (PBool false), (PStr text), (isoformat dl), dl, (isoformat rt), rt.
    repeat split; auto.
  - split; intros s d; unfold new_task;
      rewrite ?lookup_insert_ne by done; rewrite lookup_insert_eq;
      intros [= <-].
    + rewrite (fromisoformat_isoformat _ Hv Hn). by intros [= <-].
    + rewrite (fromisoformat_isoformat _ Hv' Hn'). by intros [= <-].
Qed.

Lemma run_readable a st :
  Forall (fun o => readable (fields o)) (tasks st) ->
  Forall (fun o => readable (fields o)) (tasks (run a st)).
Proof.
  apply run_preserves.
  - intros o o' [-> | (k & v & Hk & ->)]; [done |]. by apply readable_setitem.
  - intros. simpl. by eapply new_task_readable.
Qed.

(** The handlers bring no offset in. *)
Lemma run_naive k a st :
  k = "deadline" \/ k = "reminder_time" ->
  Forall (fun o => naive_time k (fields o)) (tasks st) ->
  Forall (fun o => naive_time k (fields o)) (tasks (run a st)).
Proof.
  intros Hk. apply run_preserves.
  - intros o o' [-> | (k' & v & Hk' & ->)]; [done |]. simpl.
    apply naive_time_setitem.
    destruct Hk as [-> | ->], Hk' as [-> | [-> | ->]]; done.
  - intros r id text now dtext h m dl rt Hp. simpl.
    destruct (new_task_readable id text _ _ _ _ _ _ Hp) as [_ [Hd Hr]].
    by destruct Hk as [-> | ->].
Qed.

Lemma reachable_readable st :
  reachable st -> Forall (fun o => readable (fields o)) (tasks st).
Proof.
  induction 1 as [f clock now st Hinit | st a _ IH].
  - by destruct (init_ok _ _ _ _ Hinit).
  - by apply run_readable.
Qed.

Lemma with_keys_readable l :
  Forall (fun o => readable (fields o)) l -> exists keyed, with_keys l = Ok keyed.
Proof.
  induction 1 as [| o l Ho _ [keyed IH]]; simpl; [by eexists |].
  destruct (readable_deadline_key o Ho) as [k ->]. rewrite IH. simpl.
  by eexists.
Qed.

(** In a state that holds a list of tasks that can all be shown, their
    timestamps without offset, no handler is left by an exception, but
    for [add_task] by the [OverflowError] of the subtraction; the tick
    is at a clock without offset. *)
Lemma raised_readable a st :
  tasks_is st = IsList ->
  Forall (fun o => readable (fields o)) (tasks st) ->
  Forall (fun o => naive_times (fields o)) (tasks st) ->
  (forall now, a = Tick now -> tzinfo now = None) ->
  raised a st = None
  \/ (raised a st = Some OverflowError
      /\ exists te de h m now ms, a = AddTask te de h m now ms).
Proof.
  intros Hlist Hall Hnaive Hclock.
  destruct a as [te de h m now ms | sel | r text | sel c | sel | sel | | now];
    cbn [raised].
  - (* add_task *)
    destruct (String.eqb_spec (strip te) "") as [Hempty | Hne].
    { left. unfold add_task. by rewrite Hempty. }
    destruct (parse_deadline now (strip de) h m) as [[dl rt] | e] eqn:Hp.
    + left. rewrite (add_task_accepted _ _ _ _ _ _ _ _ _ Hlist Hne Hp).
      match goal with
      | |- context [bind (modify ?f) _ ] =>
          match goal with
          | |- context [emit ?e] =>
              destruct (mutate_save_refresh_readable f e st) as (rows & -> & _)
          end
      end; [| done].
      simpl. apply Forall_app. split; [done |].
      constructor; [| constructor]. simpl.
      by destruct (new_task_readable (str_of_int ms) (strip te) _ _ _ _ _ _ Hp).
    + unfold add_task.
      destruct (String.eqb_spec (strip te) ""); [contradiction |].
      cbv zeta. rewrite Hp.
      destruct (parse_deadline_raises _ _ _ _ _ Hp) as [-> | ->];
        [by left | right]. split; [done |]. by exists te, de, h, m, now, ms.
  - (* edit_task *)
    left. unfold edit_task, bind.
    destruct (selected_index_cases "edit" sel st)
      as [(i & _ & Hlen & ->) | (e & ->)]; simpl; [| done].
    unfold get_state, lift, getitem, ret.
    destruct (tasks st !! i) as [task |] eqn:Hi; [| done].
    rewrite Forall_lookup in Hall.
    apply (Hall _ _), readable_fields in Hi
      as (cc & n & ds & dd & rs & rd & _ & -> & _).
    done.
  - (* save_edit *)
    left. unfold save_edit.
    destruct (String.eqb (strip text) ""); [done |].
    cbv zeta. cbv beta iota delta [negb].
    match goal with
    | |- context [bind (modify ?f) _ ] =>
        match goal with
        | |- context [emit ?e] =>
            destruct (mutate_save_refresh_readable f e st) as (rows & -> & _)
        end
    end; [| done].
    simpl. apply Forall_fmap. eapply Forall_impl; [exact Hall |].
    intros o Ho. simpl.
    destruct (ref o =? r)%nat; [| done]. apply readable_setitem; auto.
  - (* delete_task *)
    left.
    destruct (selected_index_cases "delete" sel st)
      as [(i & Htree & Hlen & Hs) | (e & Hs)].
    2:{ unfold delete_task, bind. by rewrite Hs. }
    destruct (lookup_lt_is_Some_2 _ _ Hlen) as [task Hi].
    assert (sel = Some i) as ->.
    { unfold selected_index, bind, get_state, emit, modify, ret in Hs.
      destruct sel as [j |]; [| done].
      destruct (length (task_tree st) <=? j)%nat; [done |].
      destruct (length (tasks st) <=? j)%nat; [done |]. congruence. }
    rewrite (delete_task_selected st i task c Htree Hi).
    pose proof Hall as Hall'. rewrite Forall_lookup in Hall'.
    destruct (proj1 (readable_fields _) (Hall' _ _ Hi))
      as (cc & n & ds & dd & rs & rd & _ & -> & _).
    destruct c; [| done].
    match goal with
    | |- context [bind (modify ?f) _ ] =>
        match goal with
        | |- context [emit ?e] =>
            destruct (mutate_save_refresh_readable f e st) as (rows & -> & _)
        end
    end; [| done].
    simpl. by apply Forall_delete.
  - (* mark_completed *)
    left.
    destruct (selected_index_cases "mark as completed" sel st)
      as [(i & Htree & Hlen & Hs) | (e & Hs)].
    2:{ unfold mark_completed, bind. by rewrite Hs. }
    destruct (lookup_lt_is_Some_2 _ _ Hlen) as [task Hi].
    assert (sel = Some i) as ->.
    { unfold selected_index, bind, get_state, emit, modify, ret in Hs.
      destruct sel as [j |]; [| done].
      destruct (length (task_tree st) <=? j)%nat; [done |].
      destruct (length (tasks st) <=? j)%nat; [done |]. congruence. }
    rewrite (mark_completed_selected st i task Htree Hi).
    pose proof Hall as Hall'. rewrite Forall_lookup in Hall'.
    destruct (proj1 (readable_fields _) (Hall' _ _ Hi))
      as (cc & n & ds & dd & rs & rd & -> & _).
    match goal with
    | |- context [bind (modify ?f) _ ] =>
        match goal with
        | |- context [emit ?e] =>
            destruct (mutate_save_refresh_readable f e st) as (rows & -> & _)
        end
    end; [| done].
    simpl. apply Forall_insert; [done |].
    apply readable_setitem; [auto | by apply (Hall' i)].
  - (* reset_reminder *)
    left.
    destruct (selected_index_cases "reset reminder" sel st)
      as [(i & Htree & Hlen & Hs) | (e & Hs)].
    2:{ unfold reset_reminder, bind. by rewrite Hs. }
    destruct (lookup_lt_is_Some_2 _ _ Hlen) as [task Hi].
    assert (sel = Some i) as ->.
    { unfold selected_index, bind, get_state, emit, modify, ret in Hs.
      destruct sel as [j |]; [| done].
      destruct (length (task_tree st) <=? j)%nat; [done |].
      destruct (length (tasks st) <=? j)%nat; [done |]. congruence. }
    rewrite (reset_reminder_selected st i task Htree Hi).
    pose proof Hall as Hall'. rewrite Forall_lookup in Hall'.
    destruct (truthy _); [| done].
    match goal with
    | |- context [bind (modify ?f) _ ] =>
        match goal with
        | |- context [emit ?e] =>
            destruct (mutate_save_refresh_readable f e st) as (rows & -> & _)
        end
    end; [| done].
    simpl. apply Forall_insert; [done |].
    apply readable_setitem; [auto | by apply (Hall' i)].
  - (* sort_tasks *)
    left. destruct (with_keys_readable _ Hall) as [keyed Hk].
    assert (mixed (map fst keyed) = false) as Hm.
    { apply (with_keys_naive _ _ Hk).
      eapply Forall_impl; [exact Hnaive |]. by intros o [Hd _]. }
    unfold sort_tasks, bind, get_state, lift, modify, emit.
    rewrite Hlist, Hk. simpl. rewrite Hm.
    assert (Forall (fun o => readable (fields o))
              (tasks (set_tasks (map snd (sort_keyed keyed)) st))) as Hall'.
    { simpl. destruct (with_keys_snd _ _ Hk) as [Hs _].
      rewrite Forall_forall in *. intros o Ho. apply Hall.
      rewrite <- Hs.
      apply list_elem_of_fmap in Ho as (p & -> & Hp).
      apply list_elem_of_fmap. exists p. split; [done |].
      by rewrite <- (sort_keyed_perm keyed). }
    by destruct (refresh_task_list_readable _ Hall') as (rows & -> & _).
  - (* check_reminders *)
    left.
    assert (Forall (fun o => naive_time "reminder_time" (fields o)) (tasks st))
      as Hnr by (eapply Forall_impl; [exact Hnaive |]; by intros o [_ Hr]).
    by destruct (check_reminders_readable now st (Hclock now eq_refl) Hall Hnr)
      as (l' & evs & rows & _ & _ & _ & ->).
Qed.

End Contracts.

Lemma reachable_refs_fresh st : reachable st -> refs_fresh st.
Proof.
  induction 1 as [f clock now st Hinit | st a _ IH].
  - pose proof (init_refs_fresh clock now f) as H. by rewrite Hinit in H.
  - by apply run_refs_fresh.
Qed.

(** What a turn of the event loop has done to an object that is still in
    the list. *)
Lemma run_same_object a st o o' :
  refs_fresh st ->
  In o (tasks st) -> In o' (tasks (run a st)) -> ref o' = ref o ->
  written_by a o o'.
Proof.
  intros [Hnd Hlt] Ho Ho' Href.
  assert (forall x, In x (tasks st) -> ref x = ref o -> x = o) as Hsame.
  { intros x Hx E. by apply (same_ref_same_object (tasks st)). }
  destruct (run_cases a st)
    as [[_ H]
       | [(id & text & now & dtext & h & m & dl & rt & _ & _ & Ht & _)
         | [[_ [i Ht]] | [_ Hperm]]]].
  - apply list_elem_of_In, list_elem_of_lookup in Ho' as [j Hj].
    destruct (Forall2_lookup_r _ _ _ _ _ H Hj) as (o2 & Hj2 & Hw).
    assert (ref o' = ref o2) as E.
    { destruct (written_by_field_written _ _ _ Hw) as [-> | (k & v & _ & ->)];
        done. }
    rewrite (Hsame o2) in Hw; [done | | congruence].
    apply list_elem_of_In. by eapply list_elem_of_lookup_2.
  - rewrite Ht in Ho'. apply in_app_or in Ho' as [Hin | [<- | []]].
    + left. by apply Hsame.
    + simpl in Href. rewrite Forall_forall in Hlt.
      assert (ref o < next_ref st)%nat; [| lia].
      apply Hlt, list_elem_of_In. by apply in_map.
  - rewrite Ht in Ho'. left. apply Hsame; [| done].
    apply list_elem_of_In. eapply list_elem_of_delete_inv.
    apply list_elem_of_In. exact Ho'.
  - left. apply Hsame; [| done]. eapply Permutation_in; eauto.
Qed.

(** X26 (the handlers and the tick).  In every state the application
    goes through, a turn of the event loop leaves the [id], the
    [deadline] and the [reminder_time] of every task object (every field
    but its text, [completed] and [reminded]) as they were. *)
Theorem handlers_keep_other_fields (a : action) (st : App) (o o' : obj)
    (k : string) :
  reachable st ->
  In o (tasks st) -> In o' (tasks (run a st)) -> ref o' = ref o ->
  k <> "task" -> k <> "completed" -> k <> "reminded" ->
  fields o' !! k = fields o !! k.
Proof.
  intros Hr Ho Ho' Href H1 H2 H3.
  destruct (run_same_object a st o o' (reachable_refs_fresh st Hr) Ho Ho' Href)
    as [-> | [[v ->] | [[v ->] | [-> | [-> _]]]]]; simpl;
    by rewrite ?lookup_insert_ne.
Qed.

(** X27 (reset_reminder).  In every state the application goes through,
    a task whose [reminded] flag is [True] keeps it through every turn
    of the event loop that is not [reset_reminder]. *)
Theorem only_reset_reminder_clears_flag (a : action) (st : App)
    (o o' : obj) :
  reachable st ->
  (forall selection, a <> ResetReminder selection) ->
  In o (tasks st) -> In o' (tasks (run a st)) -> ref o' = ref o ->
  fields o !! "reminded" = Some (PBool true) ->
  fields o' !! "reminded" = Some (PBool true).
Proof.
  intros Hr Hnot Ho Ho' Href Hrem.
  destruct (run_same_object a st o o' (reachable_refs_fresh st Hr) Ho Ho' Href)
    as [-> | [[v ->] | [[v ->] | [-> | [_ [sel ->]]]]]]; simpl.
  - done.
  - by rewrite lookup_insert_ne.
  - by rewrite lookup_insert_ne.
  - by rewrite lookup_insert_eq.
  - by destruct (Hnot sel).
Qed.

(** X21 (__init__ and the handlers).  In every state the application goes
    through, the list holds each task object once and every task has its
    [id] and its [reminded] field; where [self.tasks] is no list it is
    empty, and no turn of the event loop changes what it is; and what
    [save_tasks] writes is read back by [load_tasks], in a new process,
    as the value that was in memory, given that [json.load] reads that
    value back from the text [json.dump] wrote for it. *)
Theorem reachable_store_well_formed (clock : nat -> Z) (st : App) :
  reachable st ->
  NoDup (map ref (tasks st))
  /\ Forall (fun o => is_Some (fields o !! "id")
                      /\ is_Some (fields o !! "reminded")) (tasks st)
  /\ (tasks_is st <> IsList -> tasks st = [])
  /\ (forall a, tasks_is (run a st) = tasks_is st)
  /\ (json_load (json_dump (stored st)) = Some (stored st) ->
      let restarted := boot (task_file (fst (save_tasks st))) in
      load_tasks clock restarted = (restarted, Ok (stored st))).
Proof.
  intros Hr.
  assert (Forall (fun o => is_Some (fields o !! "id")
                           /\ is_Some (fields o !! "reminded")) (tasks st))
    as Hkeys.
  { induction Hr as [f clock' now st Hinit | st a _ IH].
    - pose proof (init_keys clock' now f) as H. by rewrite Hinit in H.
    - apply run_preserves; [| | exact IH].
      + intros o o' Hw [Hid Hrem]. split; eapply field_written_keys; eauto.
      + intros. split; by eexists. }
  split; [by destruct (reachable_refs_fresh st Hr) |].
  split; [exact Hkeys |].
  split.
  { induction Hr as [f clock' now st Hinit | st a Hr IH].
    - pose proof (init_no_list clock' now f) as H. cbv zeta in H.
      by rewrite Hinit in H.
    - rewrite run_tasks_is. intros Hno. apply run_no_list; [done |].
      apply IH; [| done].
      clear IH Hno Hkeys. induction Hr as [f clock' now st Hinit | st b _ IH].
      + pose proof (init_keys clock' now f) as H. by rewrite Hinit in H.
      + apply run_preserves; [| | exact IH].
        * intros o o' Hw [Hid Hrem]. split; eapply field_written_keys; eauto.
        * intros. split; by eexists. }
  split; [intros a; apply run_tasks_is |].
  intros Hjson restarted. subst restarted.
  rewrite save_tasks_eq. unfold load_tasks. simpl.
  by rewrite Hjson, (repair_stored clock st Hkeys).
Qed.

(** X22 (check_reminders).  With parsers that do what the [datetime]
    module's do, in every state the application goes through every task
    can be shown; and where no reminder time carries an offset, none
    does after any turn of the event loop, and the tick, at a clock
    without offset, runs to its end: it writes the file and asks for
    the next tick in one second. *)
Theorem reachable_tick_rearms (now : datetime) (st : App) :
  (forall d, valid_datetime d -> tzinfo d = None ->
             fromisoformat (isoformat d) = Some d) ->
  (forall s d, strptime s "%Y %d/%m %H:%M" = Some d ->
               valid_datetime d /\ tzinfo d = None) ->
  reachable st ->
  Forall (fun o => naive_time "reminder_time" (fields o)) (tasks st) ->
  tzinfo now = None ->
  Forall (fun o => readable (fields o)) (tasks st)
  /\ (forall a, Forall (fun o => naive_time "reminder_time" (fields o))
                  (tasks (run a st)))
  /\ exists st',
       check_reminders now st = (st', Ok tt)
       /\ synced st'
       /\ last (log st') = Some (After 1000).
Proof.
  intros Hiso Hstrp Hr Hnaive Hnow.
  pose proof (reachable_readable Hiso Hstrp st Hr) as Hall.
  split; [exact Hall |].
  split; [intros a; apply (run_naive Hiso Hstrp); auto |].
  destruct (check_reminders_readable now st Hnow Hall Hnaive)
    as (l' & evs & rows & _ & _ & _ & ->).
  eexists. split; [reflexivity |]. split; [reflexivity |].
  simpl. apply last_snoc.
Qed.

(** X23 (the handlers).  With parsers that do what the [datetime] module's
    do, in every state the application goes through in which
    [self.tasks] is a list whose timestamps carry no offset, no handler
    is left by an exception, the one case apart of [add_task] with a
    reminder time before the first day of the calendar
    ([OverflowError]); the tick is at a clock without offset.  And
    after the turn [self.tasks] is again a list whose timestamps carry
    no offset. *)
Theorem reachable_handlers_raise_nothing (a : action) (st : App) :
  (forall d, valid_datetime d -> tzinfo d = None ->
             fromisoformat (isoformat d) = Some d) ->
  (forall s d, strptime s "%Y %d/%m %H:%M" = Some d ->
               valid_datetime d /\ tzinfo d = None) ->
  reachable st ->
  tasks_is st = IsList ->
  Forall (fun o => naive_times (fields o)) (tasks st) ->
  (forall now, a = Tick now -> tzinfo now = None) ->
  (raised a st = None
   \/ (raised a st = Some OverflowError
       /\ exists task_entry deadline_entry reminder_hours reminder_minutes
            now time_ms,
            a = AddTask task_entry deadline_entry reminder_hours
                  reminder_minutes now time_ms))
  /\ tasks_is (run a st) = IsList
  /\ Forall (fun o => naive_times (fields o)) (tasks (run a st)).
Proof.
  intros Hiso Hstrp Hr Hlist Hnaive Hclock.
  split.
  { apply (raised_readable Hiso Hstrp); try done.
    by apply reachable_readable. }
  split; [by rewrite run_tasks_is |].
  assert (Forall (fun o => naive_time "deadline" (fields o)) (tasks (run a st)))
    as Hd.
  { apply (run_naive Hiso Hstrp); [auto |].
    eapply Forall_impl; [exact Hnaive |]. by intros o [? _]. }
  assert (Forall (fun o => naive_time "reminder_time" (fields o))
            (tasks (run a st))) as Hrt.
  { apply (run_naive Hiso Hstrp); [auto |].
    eapply Forall_impl; [exact Hnaive |]. by intros o [_ ?]. }
  rewrite Forall_forall in *. intros o Ho. split; auto.
Qed.


(** ** Start-up *)

(** [__init__] on a file whose text reads as a list of objects. *)
Lemma init_on_list clock now text records :
  json_load text = Some (PList (map PDict records)) ->
  init clock now (boot (Some (Text text)))
  = (modify (install (imap (fun i d => backfill (clock i) i d) records));;
     refresh_task_list;;
     check_reminders now)%app (boot (Some (Text text))).
Proof.
  intros Hj. unfold init, bind at 1, load_tasks. simpl.
  rewrite Hj, repair_dicts. by rewrite dicts_of_map.
Qed.

(** X24 (__init__).  On a file that [json.load] reads as a list of
    records which, once repaired, can all be shown and whose reminder
    times carry no offset, the constructor, at a clock without offset,
    returns: the list has one object per record,
    in the order of the file, each the repaired record (with [reminded]
    set where the first tick has fired); the repaired list is written
    back to the file and the next tick is asked for. *)
Theorem init_installs_file (clock : nat -> Z) (now : datetime)
    (text : string) (records : list dict) :
  json_load text = Some (PList (map PDict records)) ->
  tzinfo now = None ->
  Forall readable (imap (fun i d => backfill (clock i) i d) records) ->
  Forall (naive_time "reminder_time")
    (imap (fun i d => backfill (clock i) i d) records) ->
  exists st,
    init clock now (boot (Some (Text text))) = (st, Ok tt)
    /\ tasks_is st = IsList
    /\ length (tasks st) = length records
    /\ synced st
    /\ last (log st) = Some (After 1000)
    /\ forall (i : nat) (d : dict),
         records !! i = Some d ->
         exists o,
           tasks st !! i = Some o /\ ref o = i
           /\ (fields o = backfill (clock i) i d
               \/ fields o
                  = <["reminded" := PBool true]> (backfill (clock i) i d)).
Proof.
  intros Hj Hnow Hall Hnaive. rewrite (init_on_list _ _ _ _ Hj).
  unfold bind at 1, modify.
  set (loaded := imap _ records) in *.
  set (st1 := install loaded _).
  assert (forall (P : dict -> Prop),
            Forall P loaded -> Forall (fun o => P (fields o)) (tasks st1))
    as Hlift.
  { intros P HP. subst st1. unfold install, allocate. simpl.
    apply Forall_lookup.
    intros i o. rewrite list_lookup_imap.
    destruct (loaded !! i) as [d |] eqn:Hi; simpl; [| done].
    intros [= <-]. simpl. rewrite Forall_lookup in HP. by apply (HP i). }
  pose proof (Hlift _ Hall) as Hall1.
  pose proof (Hlift _ Hnaive) as Hnaive1.
  unfold bind at 1.
  destruct (refresh_task_list_readable st1 Hall1) as (rows & -> & _).
  assert (Forall (fun o => readable (fields o))
            (tasks (set_task_tree rows st1))) as Hall2 by exact Hall1.
  assert (Forall (fun o => naive_time "reminder_time" (fields o))
            (tasks (set_task_tree rows st1))) as Hnaive2 by exact Hnaive1.
  pose proof (remind_all_frame now (tasks (set_task_tree rows st1))) as HF.
  destruct (check_reminders_readable now (set_task_tree rows st1)
              Hnow Hall2 Hnaive2)
    as (l' & evs & rows' & E & _ & _ & ->).
  rewrite E in HF. simpl in HF.
  eexists. split; [reflexivity |].
  pose proof (Forall2_length _ _ _ HF) as Hlen.
  unfold allocate in Hlen. rewrite length_imap in Hlen.
  subst loaded. rewrite length_imap in Hlen.
  split; [reflexivity |].
  split; [by simpl |]. split; [reflexivity |].
  split; [simpl; apply last_snoc |].
  intros i d Hi. simpl.
  assert (allocate 0 (imap (fun i d => backfill (clock i) i d) records) !! i
          = Some (mkobj i (backfill (clock i) i d))) as Ho.
  { unfold allocate. by rewrite !list_lookup_imap, Hi. }
  destruct (Forall2_lookup_l _ _ _ _ _ HF Ho) as (o & Ho' & Hrel).
  exists o. split; [exact Ho' |].
  destruct Hrel as [-> | (-> & _)]; simpl; auto.
Qed.

(** X25 (__init__).  One record of the file that cannot be shown, even
    once repaired, stops the constructor: it is left by an exception
    before the first tick, so no tick is ever asked for; the file is
    left as it was and nothing is shown. *)
Theorem init_unreadable_record (clock : nat -> Z) (now : datetime)
    (text : string) (records : list dict) (i : nat) (d : dict) (e : exn) :
  json_load text = Some (PList (map PDict records)) ->
  records !! i = Some d ->
  row_of (backfill (clock i) i d) = Raise e ->
  exists st e',
    init clock now (boot (Some (Text text))) = (st, Raise e')
    /\ task_file st = Some (Text text)
    /\ log st = []
    /\ (length (task_tree st) <= i)%nat.
Proof.
  intros Hj Hi Hrow. rewrite (init_on_list _ _ _ _ Hj).
  unfold bind at 1, modify.
  set (st1 := install _ _).
  assert (tasks st1 !! i = Some (mkobj i (backfill (clock i) i d))) as Ho.
  { subst st1. unfold install, allocate. simpl.
    by rewrite !list_lookup_imap, Hi. }
  unfold bind at 1, refresh_task_list.
  pose proof (insert_rows_spec (tasks st1)) as H.
  destruct (insert_rows (tasks st1) []) as [rows r].
  destruct H as [(-> & _ & Hall) | (e' & o & -> & Hl & _ & Hall)].
  - rewrite Forall_lookup in Hall. destruct (Hall _ _ Ho) as [x Hx].
    simpl in Hx. congruence.
  - exists (set_task_tree rows st1), e'. repeat split. simpl.
    destruct (Nat.le_gt_cases (length rows) i) as [Hle | Hgt]; [done |].
    rewrite Forall_lookup in Hall.
    assert (take (length rows) (tasks st1) !! i
            = Some (mkobj i (backfill (clock i) i d))) as Ht
      by (by rewrite lookup_take_lt).
    destruct (Hall _ _ Ht) as [x Hx]. simpl in Hx. congruence.
Qed.

(** Where [refresh_task_list] is followed by an exception, the
    constructor is left with the file and the log as they were. *)
Lemma refresh_then_raise e st :
  exists st' e',
    (refresh_task_list;; @raise unit e)%app st = (st', Raise e')
    /\ task_file st' = task_file st /\ log st' = log st
    /\ tasks st' = tasks st.
Proof.
  unfold bind, raise.
  destruct (refresh_task_list_frame st) as (tree & r & ->).
  destruct r as [[] | e']; eauto 10.
Qed.

(** The loop of [load_tasks] leaves what is no object in the list. *)
Lemma repair_items_no_dicts clock l : forall i l',
  repair_items clock i l = Ok l' -> dicts_of l = None -> dicts_of l' = None.
Proof.
  induction l as [| v l IH]; simpl; intros i l' H Hd; [done |].
  destruct (repair_item (clock i) i v) as [v' |] eqn:Ev; [| done].
  destruct (repair_items clock (S i) l) as [l'' |] eqn:El; [| done].
  inversion H; subst. clear H.
  destruct v; simpl in Ev; try done.
  - destruct (_ && _); [| done]. by inversion Ev.
  - destruct (_ && _); [| done]. by inversion Ev.
  - inversion Ev; subst. simpl.
    destruct (dicts_of l) as [ds |] eqn:E; [done |].
    by rewrite (IH _ _ El).
Qed.

(** C3, as the code has it.  A file that is there and does not hold a
    list of task objects is not handled anywhere.  Bytes that do not
    decode as text leave [load_tasks], and with it the constructor, by
    [UnicodeDecodeError]; text that is not JSON, by [JSONDecodeError];
    a JSON number, [true], [false] or [null], a string that is not
    empty and an object that is not empty, by [TypeError]; on a list
    with an element that is no object the constructor is left by an
    exception as well.  In each of these cases the constructor does not
    return, nothing has been shown or written, and no timer is armed.
    On the empty object and on the empty string the constructor
    returns, with no task, [self.tasks] being that object or that
    string, which the first tick writes back to the file. *)
Theorem load_tasks_unparsable_raises (clock : nat -> Z) (now : datetime)
    (f : file_content) :
  let st0 := boot (Some f) in
  let stops (e : exn) :=
    load_tasks clock st0 = (st0, Raise e)
    /\ init clock now st0 = (st0, Raise e) in
  match f with
  | Undecodable => stops UnicodeDecodeError
  | Text text =>
      match json_load text with
      | None => stops JSONDecodeError
      | Some (PDict d) =>
          if bool_decide (d = ∅) then
            init clock now st0
            = (mkApp [] 0 (Some (Text (json_dump (PDict ∅)))) []
                 [After 1000] IsEmptyDict, Ok tt)
          else init clock now st0 = (st0, Raise TypeError)
      | Some (PStr s) =>
          if String.eqb s "" then
            init clock now st0
            = (mkApp [] 0 (Some (Text (json_dump (PStr "")))) []
                 [After 1000] IsEmptyStr, Ok tt)
          else init clock now st0 = (st0, Raise TypeError)
      | Some (PList l) =>
          match dicts_of l with
          | Some _ => True
          | None =>
              exists st e,
                init clock now st0 = (st, Raise e)
                /\ task_file st = Some f /\ log st = []
          end
      | Some _ => stops TypeError
      end
  end.
Proof.
  intros st0 stops. subst stops. cbv beta.
  destruct f as [| text].
  { split; reflexivity. }
  assert (load_tasks clock st0
          = (st0, match json_load text with
                  | Some loaded => repair clock loaded
                  | None => Raise JSONDecodeError
                  end)) as Hload.
  { unfold load_tasks. simpl. by destruct (json_load text). }
  assert (forall e, load_tasks clock st0 = (st0, Raise e) ->
                    init clock now st0 = (st0, Raise e)) as Hinit.
  { intros e H. unfold init, bind at 1. by rewrite H. }
  destruct (json_load text) as [[| b | n | x | s | l | d] |] eqn:Hj;
    try (split; [exact Hload | by apply Hinit]).
  - (* a string *)
    simpl in Hload. destruct (String.eqb s "") eqn:Es.
    + apply String.eqb_eq in Es. subst s.
      unfold init, bind at 1. rewrite Hload. reflexivity.
    + by apply Hinit.
  - (* a list *)
    destruct (dicts_of l) as [records |] eqn:Ed; [done |].
    simpl in Hload.
    destruct (repair_items clock 0 l) as [l' |] eqn:El.
    2:{ exists st0, e. split; [by apply Hinit | done]. }
    unfold init, bind at 1. rewrite Hload.
    rewrite (repair_items_no_dicts _ _ _ _ El Ed).
    unfold bind at 1, modify.
    destruct (refresh_then_raise TypeError (install (leading_dicts l') st0))
      as (st' & e' & -> & Hf & Hlog & _).
    exists st', e'. by split.
  - (* an object *)
    simpl in Hload.
    destruct (bool_decide (d = ∅)) eqn:Ed.
    + apply bool_decide_eq_true in Ed. subst d.
      unfold init, bind at 1. rewrite Hload. reflexivity.
    + destruct (forallb _ _).
      * unfold init, bind at 1. rewrite Hload, Ed. reflexivity.
      * by apply Hinit.
Qed.


End ToDoApp.

(** * The reference parsers *)

Lemma digit_val_char d : 0 <= d < 10 -> digit_val (digit_char d) = Some d.
Proof.
  intros H.
  assert (d = 0 \/ d = 1 \/ d = 2 \/ d = 3 \/ d = 4 \/ d = 5 \/ d = 6
          \/ d = 7 \/ d = 8 \/ d = 9) as Hc by lia.
  repeat destruct Hc as [-> | Hc]; try subst d; reflexivity.
Qed.

Lemma append_cons x (a b : string) : String x a +:+ b = String x (a +:+ b).
Proof. reflexivity. Qed.

Lemma append_nil_l (b : string) : "" +:+ b = b.
Proof. reflexivity. Qed.

Lemma append_assoc (a b c : string) : (a +:+ b) +:+ c = a +:+ (b +:+ c).
Proof.
  induction a as [| x a IH]; [done |].
  by rewrite !append_cons, IH.
Qed.

Lemma append_nil_r (a : string) : a +:+ "" = a.
Proof.
  induction a as [| x a IH]; [done |]. by rewrite append_cons, IH.
Qed.

Lemma zfill_acc_app k : forall n s, zfill_acc k n s = zfill k n +:+ s.
Proof.
  unfold zfill. induction k as [| k IH]; intros n s; simpl; [done |].
  rewrite (IH (n / 10) (String _ s)), (IH (n / 10) (String _ "")).
  by rewrite append_assoc, append_cons, append_nil_l.
Qed.

Lemma read_digits_zfill_acc k : forall n acc s j,
  0 <= n ->
  read_digits (k + j) acc (zfill_acc k n s)
  = read_digits j (acc * 10 ^ Z.of_nat k + n mod 10 ^ Z.of_nat k) s.
Proof.
  induction k as [| k IH]; intros n acc s j Hn.
  - simpl. f_equal. rewrite Z.mod_1_r. lia.
  - cbn [zfill_acc].
    replace (S k + j)%nat with (k + S j)%nat by lia.
    rewrite IH by (apply Z.div_pos; lia).
    cbn [read_digits].
    rewrite digit_val_char by (apply Z.mod_pos_bound; lia).
    f_equal. rewrite Nat2Z.inj_succ, Z.pow_succ_r by lia.
    assert (0 < 10 ^ Z.of_nat k) by (apply Z.pow_pos_nonneg; lia).
    pose proof (Z.rem_mul_r n 10 (10 ^ Z.of_nat k) ltac:(lia) ltac:(lia)) as Hr.
    rewrite Hr. lia.
Qed.

(** Reading back the [k] digits [zfill] wrote. *)
Lemma read_digits_zfill k n rest :
  0 <= n < 10 ^ Z.of_nat k ->
  read_digits k 0 (zfill k n +:+ rest) = Some (n, rest).
Proof.
  intros Hn. rewrite <- zfill_acc_app.
  replace k with (k + 0)%nat at 1 by lia.
  rewrite read_digits_zfill_acc by lia. simpl.
  by rewrite Z.mod_small.
Qed.

Lemma valid_datetimeb_true d : valid_datetime d -> valid_datetimeb d = true.
Proof.
  intros (Hy & Hm & Hd & Hh & Hmi & Hs & Hus). unfold valid_datetimeb.
  repeat (apply andb_true_intro; split);
    first [apply Z.leb_le | apply Z.ltb_lt]; lia.
Qed.

Lemma option_bind_Some {A B} (x : A) (f : A -> option B) : Some x ≫= f = f x.
Proof. reflexivity. Qed.

Lemma expect_cons c rest : expect c (String c rest) = Some rest.
Proof. unfold expect. by rewrite Ascii.eqb_refl. Qed.

(** [fromisoformat_ref] reads back what [isoformat] writes of a date
    without offset. *)
Lemma fromisoformat_ref_isoformat d :
  valid_datetime d -> tzinfo d = None ->
  fromisoformat_ref (isoformat d) = Some d.
Proof.
  intros Hv Htz. pose proof (valid_datetimeb_true d Hv) as Hb.
  destruct Hv as (Hy & Hm & Hd & Hh & Hmi & Hs & Hus).
  assert (days_in_month (year d) (month d) <= 31) as Hdim.
  { rewrite days_in_month_alt.
    assert (month d = 1 \/ month d = 2 \/ month d = 3 \/ month d = 4
            \/ month d = 5 \/ month d = 6 \/ month d = 7 \/ month d = 8
            \/ month d = 9 \/ month d = 10 \/ month d = 11 \/ month d = 12)
      as Hc by lia.
    repeat destruct Hc as [-> | Hc]; try rewrite Hc; simpl;
      try lia; destruct (is_leap (year d)); lia. }
  destruct d as [y m dd hh mi ss us tz]. simpl in *. subst tz.
  unfold fromisoformat_ref, isoformat.
  cbn [year month day hour minute second microsecond tzinfo].
  rewrite (append_nil_r (if us =? 0 then _ else _)).
  rewrite ?append_cons, ?append_nil_l.
  do 5 (rewrite read_digits_zfill by (simpl; lia);
        rewrite option_bind_Some; cbv beta iota;
        rewrite expect_cons, option_bind_Some).
  destruct (Z.eqb_spec us 0) as [-> | Hne].
  - rewrite read_digits_zfill by (simpl; lia).
    rewrite option_bind_Some. cbv beta iota. simpl. by rewrite Hb.
  - rewrite read_digits_zfill by (simpl; lia).
    rewrite option_bind_Some. cbv beta iota.
    rewrite ?append_cons, ?append_nil_l.
    rewrite Ascii.eqb_refl.
    rewrite <- (append_nil_r (zfill 6 us)).
    rewrite read_digits_zfill by (simpl; lia).
    rewrite option_bind_Some. cbv beta iota. simpl. by rewrite Hb.
Qed.

Lemma valid_datetimeb_sound d : valid_datetimeb d = true -> valid_datetime d.
Proof.
  unfold valid_datetimeb, valid_datetime. rewrite !andb_true_iff.
  rewrite !Z.leb_le, !Z.ltb_lt. tauto.
Qed.

(** [strptime_ref] returns dates that exist, without offset. *)
Lemma strptime_ref_valid s fmt d :
  strptime_ref s fmt = Some d -> valid_datetime d /\ tzinfo d = None.
Proof.
  unfold strptime_ref.
  destruct (negb (fmt =? "%Y %d/%m %H:%M")%string); [done |].
  destruct (read_digits 4 0 s) as [[y s1] |]; simpl; [| done].
  destruct (skip_spaces1 s1) as [s2 |]; simpl; [| done].
  destruct (read_1or2 s2) as [[dd s3] |]; simpl; [| done].
  destruct (expect "/" s3) as [s4 |]; simpl; [| done].
  destruct (read_1or2 s4) as [[m s5] |]; simpl; [| done].
  destruct (skip_spaces1 s5) as [s6 |]; simpl; [| done].
  destruct (read_1or2 s6) as [[hh s7] |]; simpl; [| done].
  destruct (expect ":" s7) as [s8 |]; simpl; [| done].
  destruct (read_1or2 s8) as [[mi s9] |]; simpl; [| done].
  destruct (negb (s9 =? "")%string); [done |].
  destruct (valid_datetimeb _) eqn:E; [| done].
  intros [= <-]. split; [by apply valid_datetimeb_sound | done].
Qed.

(** * Runs on the sample data *)

Example started_is_init :
  init fromisoformat_ref json_load_ref json_dump_ref (fun _ => 0) new_years_eve
    (boot (file_of [task_later; task_sooner]))
  = (started, Ok tt).
Proof. vm_compute. reflexivity. Qed.

Example after_tick_is_tick :
  check_reminders fromisoformat_ref json_dump_ref half_past_eight started
  = (after_tick, Ok tt).
Proof. vm_compute. reflexivity. Qed.

Example started_empty_is_init :
  init fromisoformat_ref json_load_ref json_dump_ref (fun _ => 0) new_years_eve (boot None)
  = (started_empty, Ok tt).
Proof. vm_compute. reflexivity. Qed.

(** Scenario A on the reference parsers. *)
Example scenario_A :
  tasks (fst (add_task strptime_ref fromisoformat_ref json_dump_ref "Buy milk"
                "25/12 09:00" 1 0 half_past_eight 1767256200000 started_empty))
  = [mkobj 0 (new_task "1767256200000" "Buy milk"
                (mkdatetime 2026 12 25 9 0 0 0)
                (mkdatetime 2026 12 25 8 0 0 0))]
  /\ isoformat (mkdatetime 2026 12 25 8 0 0 0) = "2026-12-25T08:00:00".
Proof. split; vm_compute; reflexivity. Qed.

(** C1, on the code.  "Sort by Deadline" on the started application
    puts the sooner deadline first in memory; the file still holds the
    old order: [sort_tasks] does not call [save_tasks]. *)
Theorem sort_tasks_not_persisted :
  let st' := fst (sort_tasks fromisoformat_ref sort_interrupted_ref started) in
  tasks st' = [mkobj 1 task_sooner; mkobj 0 task_later]
  /\ task_file st' = file_of [task_later; task_sooner]
  /\ task_file st' <> Some (Text (json_dump_ref (stored st'))).
Proof.
  cbv zeta.
  split; [vm_compute; reflexivity |]. split; [vm_compute; reflexivity |].
  intros H. vm_compute in H. discriminate H.
Qed.

(** C2, on the code.  Two tasks added while the clock reads the same
    millisecond get the same id. *)
Theorem add_task_same_millisecond_same_id :
  let st1 := fst (add_task strptime_ref fromisoformat_ref json_dump_ref "Buy milk"
                    "25/12 09:00" 1 0 half_past_eight 1767256200000
                    started_empty) in
  let st2 := fst (add_task strptime_ref fromisoformat_ref json_dump_ref "Pay the rent"
                    "31/01 18:00" 0 30 half_past_eight 1767256200000 st1) in
  map (fun o => fields o !! "id") (tasks st2)
  = [Some (PStr "1767256200000"); Some (PStr "1767256200000")]
  /\ ~ NoDup (map (fun o => fields o !! "id") (tasks st2)).
Proof.
  cbv zeta.
  match goal with
  | |- ?l = _ /\ _ =>
      assert (l = [Some (PStr "1767256200000"); Some (PStr "1767256200000")])
        as -> by (vm_compute; reflexivity)
  end.
  split; [reflexivity |]. intros Hnd.
  apply NoDup_cons in Hnd as [Hx _]. apply Hx. by left.
Qed.

(** C3 fails on the code: with text in the file that is not JSON, the
    constructor does not return; it is left by the parser's exception,
    and nothing has been shown. *)
Lemma init_unparsable_file_not_handled :
  ~ (exists st',
       init fromisoformat_ref json_load_ref json_dump_ref (fun _ => 0) new_years_eve
         (boot (Some (Text "{not json"))) = (st', Ok tt))
  /\ init fromisoformat_ref json_load_ref json_dump_ref (fun _ => 0) new_years_eve
       (boot (Some (Text "{not json")))
     = (boot (Some (Text "{not json")), Raise JSONDecodeError)
  /\ log (boot (Some (Text "{not json"))) = [].
Proof.
  assert (init fromisoformat_ref json_load_ref json_dump_ref (fun _ => 0) new_years_eve
            (boot (Some (Text "{not json")))
          = (boot (Some (Text "{not json")), Raise JSONDecodeError)) as E
    by (vm_compute; reflexivity).
  split; [| split; [exact E | reflexivity]].
  intros (st' & H). rewrite E in H. discriminate.
Qed.

(** ** The sample state *)

Lemma started_readable :
  Forall (fun o => readable fromisoformat_ref (fields o)) (tasks started).
Proof. repeat constructor; eexists; vm_compute; reflexivity. Qed.

(** The sample tasks are Tasks of the data model. *)
Lemma sample_is_task id text deadline reminder_time :
  valid_datetime deadline -> tzinfo deadline = None ->
  valid_datetime reminder_time -> tzinfo reminder_time = None ->
  is_task fromisoformat_ref (new_task id text deadline reminder_time).
Proof.
  intros Hd Hdn Hr Hrn. apply new_task_is_task.
  - by apply fromisoformat_ref_isoformat.
  - intros d. rewrite (fromisoformat_ref_isoformat _ Hr Hrn). by intros [= <-].
Qed.

Ltac sample_task :=
  apply sample_is_task; try reflexivity;
  unfold valid_datetime; vm_compute; intuition discriminate.

Lemma started_is_task :
  Forall (fun o => is_task fromisoformat_ref (fields o)) (tasks started).
Proof. simpl. repeat (constructor; [sample_task |]). constructor. Qed.

Lemma sample_naive id text deadline reminder_time :
  valid_datetime deadline -> tzinfo deadline = None ->
  valid_datetime reminder_time -> tzinfo reminder_time = None ->
  naive_times fromisoformat_ref (new_task id text deadline reminder_time).
Proof.
  intros Hd Hdn Hr Hrn.
  split; intros s d; unfold new_task;
    rewrite ?lookup_insert_ne by done; rewrite lookup_insert_eq;
    intros [= <-].
  - rewrite (fromisoformat_ref_isoformat _ Hd Hdn). by intros [= <-].
  - rewrite (fromisoformat_ref_isoformat _ Hr Hrn). by intros [= <-].
Qed.

Lemma started_naive :
  Forall (fun o => naive_times fromisoformat_ref (fields o)) (tasks started).
Proof.
  simpl.
  repeat (constructor;
          [apply sample_naive; try reflexivity;
           unfold valid_datetime; vm_compute; intuition discriminate |]).
  constructor.
Qed.

Lemma started_naive_reminders :
  Forall (fun o => naive_time fromisoformat_ref "reminder_time" (fields o))
    (tasks started).
Proof.
  eapply Forall_impl; [exact started_naive |]. by intros o [_ ?].
Qed.

Lemma started_distinct : NoDup (map ref (tasks started)).
Proof.
  simpl. apply NoDup_cons. split; [| apply NoDup_singleton].
  rewrite list_elem_of_In. simpl. lia.
Qed.

Lemma started_reachable : reachable strptime_ref fromisoformat_ref json_load_ref json_dump_ref sort_interrupted_ref started.
Proof. eapply reachable_init. apply started_is_init. Qed.

(** * The theorems at work on the sample data *)

(** Files that hold bytes that are no text, [{not json], [42], [{}] and
    a list with a number in it. *)
Lemma load_tasks_unparsable_raises_witness :
  (load_tasks json_load_ref (fun _ => 0) (boot (Some Undecodable))
   = (boot (Some Undecodable), Raise UnicodeDecodeError)
   /\ init fromisoformat_ref json_load_ref json_dump_ref (fun _ => 0)
        new_years_eve (boot (Some Undecodable))
      = (boot (Some Undecodable), Raise UnicodeDecodeError))
  /\ (load_tasks json_load_ref (fun _ => 0) (boot (Some (Text "{not json")))
      = (boot (Some (Text "{not json")), Raise JSONDecodeError)
      /\ init fromisoformat_ref json_load_ref json_dump_ref (fun _ => 0)
           new_years_eve (boot (Some (Text "{not json")))
         = (boot (Some (Text "{not json")), Raise JSONDecodeError))
  /\ (load_tasks json_load_ref (fun _ => 0) (boot (Some (Text "42")))
      = (boot (Some (Text "42")), Raise TypeError)
      /\ init fromisoformat_ref json_load_ref json_dump_ref (fun _ => 0)
           new_years_eve (boot (Some (Text "42")))
         = (boot (Some (Text "42")), Raise TypeError))
  /\ init fromisoformat_ref json_load_ref json_dump_ref (fun _ => 0)
       new_years_eve (boot (Some (Text "{}")))
     = (mkApp [] 0 (Some (Text "{}")) [] [After 1000] IsEmptyDict, Ok tt)
  /\ exists st e,
       init fromisoformat_ref json_load_ref json_dump_ref (fun _ => 0)
         new_years_eve (boot (Some (Text "[1]")))
       = (st, Raise e)
       /\ task_file st = Some (Text "[1]") /\ log st = [].
Proof.
  split; [| split; [| split; [| split]]].
  - exact (load_tasks_unparsable_raises fromisoformat_ref json_load_ref
             json_dump_ref (fun _ => 0) new_years_eve Undecodable).
  - exact (load_tasks_unparsable_raises fromisoformat_ref json_load_ref
             json_dump_ref (fun _ => 0) new_years_eve (Text "{not json")).
  - exact (load_tasks_unparsable_raises fromisoformat_ref json_load_ref
             json_dump_ref (fun _ => 0) new_years_eve (Text "42")).
  - exact (load_tasks_unparsable_raises fromisoformat_ref json_load_ref
             json_dump_ref (fun _ => 0) new_years_eve (Text "{}")).
  - exact (load_tasks_unparsable_raises fromisoformat_ref json_load_ref
             json_dump_ref (fun _ => 0) new_years_eve (Text "[1]")).
Defined.

(** Saving the two sample tasks after the tick, and loading them in a
    new process. *)
Lemma save_load_roundtrip_witness :
  tasks_is after_tick = IsList
  /\ Forall (fun o => is_Some (fields o !! "id")
                      /\ is_Some (fields o !! "reminded")) (tasks after_tick)
  /\ json_load_ref
       (json_dump_ref (PList (map PDict (map fields (tasks after_tick)))))
     = Some (PList (map PDict (map fields (tasks after_tick))))
  /\ load_tasks json_load_ref (fun _ => 0)
       (boot (task_file (fst (save_tasks json_dump_ref after_tick))))
     = (boot (task_file (fst (save_tasks json_dump_ref after_tick))),
        Ok (PList (map PDict (map fields (tasks after_tick))))).
Proof.
  assert (Forall (fun o => is_Some (fields o !! "id")
                           /\ is_Some (fields o !! "reminded"))
            (tasks after_tick)) as H.
  { simpl. repeat (constructor; [split; eexists; reflexivity |]).
    constructor. }
  assert (json_load_ref
            (json_dump_ref (PList (map PDict (map fields (tasks after_tick)))))
          = Some (PList (map PDict (map fields (tasks after_tick))))) as Hj
    by (vm_compute; reflexivity).
  split; [reflexivity |]. split; [exact H |]. split; [exact Hj |].
  exact (save_load_roundtrip json_load_ref json_dump_ref (fun _ => 0)
           after_tick eq_refl H Hj).
Defined.

(** A description of blanks; and 31 February as the deadline. *)
Lemma add_task_invalid_input_unchanged_witness :
  (strip "   " = ""
   /\ exists message,
        add_task strptime_ref fromisoformat_ref json_dump_ref "   " "25/12 09:00" 1 0
          half_past_eight 1767256200000 started
        = (add_log [ShowWarning "Input Error" message] started, Ok tt)
        /\ tasks (add_log [ShowWarning "Input Error" message] started)
           = tasks started
        /\ task_file (add_log [ShowWarning "Input Error" message] started)
           = task_file started)
  /\ (strptime_ref (str_of_int (year half_past_eight) +:+ " "
                    +:+ strip "31/02 09:00") "%Y %d/%m %H:%M" = None
      /\ exists message,
           add_task strptime_ref fromisoformat_ref json_dump_ref "Buy milk" "31/02 09:00"
             1 0 half_past_eight 1767256200000 started
           = (add_log [ShowWarning "Input Error" message] started, Ok tt)
           /\ tasks (add_log [ShowWarning "Input Error" message] started)
              = tasks started
           /\ task_file (add_log [ShowWarning "Input Error" message] started)
              = task_file started).
Proof.
  split.
  - split; [reflexivity |].
    apply (add_task_invalid_input_unchanged strptime_ref fromisoformat_ref json_dump_ref).
    left. reflexivity.
  - split; [reflexivity |].
    apply (add_task_invalid_input_unchanged strptime_ref fromisoformat_ref json_dump_ref).
    right. reflexivity.
Defined.


(** Renaming the second sample task. *)
Lemma save_edit_frame_witness :
  strip "  Call the bank today " <> ""
  /\ length (tasks (fst (save_edit fromisoformat_ref json_dump_ref 1
                           "  Call the bank today " started)))
     = length (tasks started)
  /\ forall (i : nat) (o : obj),
       tasks started !! i = Some o ->
       exists o',
         tasks (fst (save_edit fromisoformat_ref json_dump_ref 1
                       "  Call the bank today " started)) !! i = Some o'
         /\ ref o' = ref o
         /\ (ref o <> 1%nat -> o' = o)
         /\ (ref o = 1%nat ->
             fields o' !! "task" = Some (PStr (strip "  Call the bank today ")))
         /\ (forall k, k <> "task" -> fields o' !! k = fields o !! k).
Proof.
  assert (strip "  Call the bank today " <> "") as H
    by (vm_compute; discriminate).
  split; [exact H |].
  apply (save_edit_frame fromisoformat_ref json_dump_ref started 1
           "  Call the bank today " H).
Defined.

(** Scenario A in 2026. *)
Lemma add_task_reminder_time_exact_witness :
  tasks_is started_empty = IsList
  /\ strip "Buy milk" <> ""
  /\ strptime_ref (str_of_int (year half_past_eight) +:+ " "
                   +:+ strip "25/12 09:00") "%Y %d/%m %H:%M"
     = Some (mkdatetime 2026 12 25 9 0 0 0)
  /\ valid_datetime (mkdatetime 2026 12 25 9 0 0 0)
  /\ 86400 <= timeline (mkdatetime 2026 12 25 9 0 0 0) - timedelta 1 0
  /\ exists reminder_time task,
       tasks (fst (add_task strptime_ref fromisoformat_ref json_dump_ref "Buy milk"
                     "25/12 09:00" 1 0 half_past_eight 1767256200000
                     started_empty))
       = (tasks started_empty ++ [task])%list
       /\ fields task !! "deadline"
          = Some (PStr (isoformat (mkdatetime 2026 12 25 9 0 0 0)))
       /\ fields task !! "reminder_time" = Some (PStr (isoformat reminder_time))
       /\ valid_datetime reminder_time
       /\ timeline reminder_time
          = timeline (mkdatetime 2026 12 25 9 0 0 0) - timedelta 1 0
       /\ microsecond reminder_time = 0
       /\ (mkdatetime 2026 12 25 9 0 0 0
           = mkdatetime (year half_past_eight) 12 25 9 0 0 0 ->
           1 = 1 -> 0 = 0 ->
           reminder_time = mkdatetime (year half_past_eight) 12 25 8 0 0 0).
Proof.
  assert (strip "Buy milk" <> "") as H1 by (vm_compute; discriminate).
  assert (valid_datetime (mkdatetime 2026 12 25 9 0 0 0)) as H3
    by (unfold valid_datetime; vm_compute; intuition discriminate).
  assert (86400 <= timeline (mkdatetime 2026 12 25 9 0 0 0) - timedelta 1 0)
    as H4 by (vm_compute; discriminate).
  split; [reflexivity |].
  split; [exact H1 |]. split; [reflexivity |].
  split; [exact H3 |]. split; [exact H4 |].
  apply (add_task_reminder_time_exact strptime_ref fromisoformat_ref json_dump_ref
           "Buy milk" "25/12 09:00" 1 0 half_past_eight 1767256200000
           started_empty (mkdatetime 2026 12 25 9 0 0 0) eq_refl H1 eq_refl H3
           ltac:(lia) ltac:(lia) H4).
Defined.


(** ** The further properties at work *)


(** A task without [completed] at the first row, one without text at
    the second. *)
Lemma handlers_missing_key_witness :
  mark_completed fromisoformat_ref json_dump_ref (Some 0%nat)
    (holding [task_no_completed; task_no_text])
  = (holding [task_no_completed; task_no_text], Raise (KeyError "completed"))
  /\ delete_task fromisoformat_ref json_dump_ref (Some 1%nat) true
       (holding [task_no_completed; task_no_text])
     = (holding [task_no_completed; task_no_text], Raise (KeyError "task"))
  /\ edit_task (Some 1%nat) (holding [task_no_completed; task_no_text])
     = (holding [task_no_completed; task_no_text], Raise (KeyError "task")).
Proof.
  split.
  - apply (handlers_missing_key fromisoformat_ref json_dump_ref
             (holding [task_no_completed; task_no_text]) 0
             (mkobj 0 task_no_completed) true).
    + simpl. lia.
    + reflexivity.
    + reflexivity.
  - apply (handlers_missing_key fromisoformat_ref json_dump_ref
             (holding [task_no_completed; task_no_text]) 1
             (mkobj 1 task_no_text) true).
    + simpl. lia.
    + reflexivity.
    + reflexivity.
Defined.

Lemma mark_completed_twice_witness :
  tasks (run strptime_ref fromisoformat_ref json_dump_ref sort_interrupted_ref (MarkCompleted (Some 0%nat))
           (run strptime_ref fromisoformat_ref json_dump_ref sort_interrupted_ref (MarkCompleted (Some 0%nat))
              started))
  = tasks started.
Proof.
  apply (mark_completed_twice strptime_ref fromisoformat_ref json_dump_ref sort_interrupted_ref started 0
           (mkobj 0 task_later) false).
  - exact started_readable.
  - simpl. lia.
  - reflexivity.
  - reflexivity.
Defined.

(** Deleting the first row of [started], confirmed. *)
Lemma delete_task_removes_witness :
  let st' := fst (delete_task fromisoformat_ref json_dump_ref (Some 0%nat) true started) in
  tasks st' = (take 0 (tasks started) ++ drop 1 (tasks started))%list
  /\ S (length (tasks st')) = length (tasks started)
  /\ synced json_dump_ref st'.
Proof.
  apply (delete_task_removes fromisoformat_ref json_dump_ref started 0 (mkobj 0 task_later)
           (PStr "Write report") true).
  - simpl. lia.
  - reflexivity.
  - reflexivity.
Defined.

(** A row beyond the two of the tree. *)
Lemma handlers_refuse_unusable_selection_witness :
  get_selected_task (Some 5%nat) started = None
  /\ exists title m,
       mark_completed fromisoformat_ref json_dump_ref (Some 5%nat) started
       = (add_log [ShowWarning title m] started, Ok tt)
       \/ mark_completed fromisoformat_ref json_dump_ref (Some 5%nat) started
          = (add_log [ShowError title m] started, Ok tt).
Proof.
  split; [reflexivity |].
  apply (handlers_refuse_unusable_selection fromisoformat_ref json_dump_ref started
           (Some 5%nat) true).
  reflexivity.
Defined.


Lemma check_reminders_completes_witness :
  exists st',
    check_reminders fromisoformat_ref json_dump_ref half_past_eight started
    = (st', Ok tt)
    /\ synced json_dump_ref st'
    /\ last (log st') = Some (After 1000)
    /\ map ref (tasks st') = map ref (tasks started)
    /\ Forall (fun o => readable fromisoformat_ref (fields o)) (tasks st')
    /\ Forall (fun o => naive_time fromisoformat_ref "reminder_time"
                          (fields o)) (tasks st').
Proof.
  apply (check_reminders_completes fromisoformat_ref json_dump_ref
           half_past_eight started).
  - reflexivity.
  - exact started_readable.
  - exact started_naive_reminders.
Defined.

(** The tick of 08:30 on a list whose second task has no [completed]
    field: the first task is due and gets its reminder, then the tick
    stops. *)
Lemma check_reminders_missing_completed_witness :
  exists before' fired,
    check_reminders fromisoformat_ref json_dump_ref half_past_eight
      (holding [task_sooner; task_no_completed; task_later])
    = (add_log fired
         (set_tasks
            (before' ++ mkobj 1 task_no_completed :: [mkobj 2 task_later])%list
            (holding [task_sooner; task_no_completed; task_later])),
       Raise (KeyError "completed"))
    /\ Forall2 (fun o o' =>
                  (due fromisoformat_ref half_past_eight (fields o) ->
                   o' = setitem o "reminded" (PBool true))
                  /\ (~ due fromisoformat_ref half_past_eight (fields o) ->
                      o' = o)) [mkobj 0 task_sooner] before'
    /\ (forall x, In x (reminded_objects fired)
                  <-> exists o, In o [mkobj 0 task_sooner] /\ ref o = x
                                /\ due fromisoformat_ref half_past_eight
                                     (fields o))
    /\ ~ In (After 1000) fired.
Proof.
  apply (check_reminders_missing_completed strptime_ref fromisoformat_ref json_load_ref json_dump_ref
           half_past_eight
           (holding [task_sooner; task_no_completed; task_later])
           [mkobj 0 task_sooner] [mkobj 2 task_later]
           (mkobj 1 task_no_completed)).
  - reflexivity.
  - reflexivity.
  - constructor; [sample_task | constructor].
  - reflexivity.
Defined.

Lemma task_bad_reminder_is_task : is_task fromisoformat_ref task_bad_reminder.
Proof.
  split; [by eexists |]. split; [by eexists |].
  split; [eexists _, _; split; reflexivity |].
  split; [| split; by eexists].
  eexists. split; [reflexivity |]. intros d H. vm_compute in H. discriminate.
Qed.

(** The tick of 08:30 on a list whose second task has a reminder time
    that is no timestamp. *)
Lemma check_reminders_unreadable_reminder_time_witness :
  exists fired,
    snd (check_reminders fromisoformat_ref json_dump_ref half_past_eight
           (holding [task_sooner; task_bad_reminder]))
    = Raise ValueError
    /\ synced json_dump_ref (fst (check_reminders fromisoformat_ref json_dump_ref half_past_eight
                      (holding [task_sooner; task_bad_reminder])))
    /\ log (fst (check_reminders fromisoformat_ref json_dump_ref half_past_eight
                   (holding [task_sooner; task_bad_reminder])))
       = (log (holding [task_sooner; task_bad_reminder]) ++ fired)%list
    /\ ~ In (After 1000) fired.
Proof.
  apply (check_reminders_unreadable_reminder_time strptime_ref fromisoformat_ref json_load_ref json_dump_ref half_past_eight
           (holding [task_sooner; task_bad_reminder])
           (mkobj 1 task_bad_reminder) "soon").
  - reflexivity.
  - constructor; [sample_task |].
    constructor; [exact task_bad_reminder_is_task | constructor].
  - simpl. auto.
  - reflexivity.
  - reflexivity.
Defined.

(** A due task whose deadline is no timestamp. *)
Lemma remind_one_unreadable_deadline_witness :
  trigger_reminder fromisoformat_ref (mkobj 1 task_bad_deadline)
  = Raise ValueError
  /\ remind_one fromisoformat_ref half_past_eight (mkobj 1 task_bad_deadline)
     = Ok (mkobj 1 task_bad_deadline, []).
Proof.
  apply (remind_one_unreadable_deadline fromisoformat_ref half_past_eight
           (mkobj 1 task_bad_deadline) (PStr "Call the bank")
           "2026-01-01T08:00:00" "tomorrow" (mkdatetime 2026 1 1 8 0 0 0));
    reflexivity.
Defined.

(** Scenario D on [after_tick]: the reminded task is reset and the tick
    of 08:30 reminds again. *)
Lemma reset_then_tick_fires_again_witness :
  let st1 := run strptime_ref fromisoformat_ref json_dump_ref sort_interrupted_ref (ResetReminder (Some 1%nat))
               after_tick in
  let st2 := run strptime_ref fromisoformat_ref json_dump_ref sort_interrupted_ref (Tick half_past_eight) st1 in
  tasks st1 !! 1%nat
  = Some (setitem (mkobj 1 (<["reminded" := PBool true]> task_sooner))
            "reminded" (PBool false))
  /\ exists fired,
       log st2 = (log st1 ++ fired)%list
       /\ In 1%nat (reminded_objects fired)
       /\ tasks st2 !! 1%nat
          = Some (mkobj 1 (<["reminded" := PBool true]> task_sooner)).
Proof.
  apply (reset_then_tick_fires_again strptime_ref fromisoformat_ref json_load_ref json_dump_ref sort_interrupted_ref
           half_past_eight after_tick 1
           (mkobj 1 (<["reminded" := PBool true]> task_sooner))
           "2026-01-01T08:00:00" (mkdatetime 2026 1 1 8 0 0 0)).
  - reflexivity.
  - constructor; [sample_task |].
    constructor; [| constructor].
    apply (is_task_setitem_reminded fromisoformat_ref (mkobj 1 task_sooner) true).
    sample_task.
  - simpl. lia.
  - reflexivity.
  - reflexivity.
  - reflexivity.
  - reflexivity.
  - reflexivity.
  - reflexivity.
Defined.

(** Scenario C on [started]: the task due at 08:30 is marked completed
    before the tick. *)
Lemma mark_completed_then_tick_silent_witness :
  let st1 := run strptime_ref fromisoformat_ref json_dump_ref sort_interrupted_ref (MarkCompleted (Some 1%nat))
               started in
  let st2 := run strptime_ref fromisoformat_ref json_dump_ref sort_interrupted_ref (Tick half_past_eight) st1 in
  tasks st1 !! 1%nat
  = Some (setitem (mkobj 1 task_sooner) "completed" (PBool true))
  /\ exists fired,
       log st2 = (log st1 ++ fired)%list
       /\ ~ In 1%nat (reminded_objects fired)
       /\ tasks st2 !! 1%nat = tasks st1 !! 1%nat.
Proof.
  apply (mark_completed_then_tick_silent strptime_ref fromisoformat_ref json_dump_ref sort_interrupted_ref
           half_past_eight started 1 (mkobj 1 task_sooner)).
  - exact started_is_task.
  - exact started_distinct.
  - simpl. lia.
  - reflexivity.
  - reflexivity.
Defined.

Lemma sort_tasks_ascending_witness :
  let st' := fst (sort_tasks fromisoformat_ref sort_interrupted_ref started) in
  Permutation (tasks st') (tasks started)
  /\ Sorted (fun a b => exists ka kb,
                deadline_key fromisoformat_ref a = Ok ka
                /\ deadline_key fromisoformat_ref b = Ok kb
                /\ dt_leb ka kb = Ok true) (tasks st').
Proof.
  apply (sort_tasks_ascending fromisoformat_ref sort_interrupted_ref started).
  - reflexivity.
  - repeat constructor; eexists; split; vm_compute; reflexivity.
Defined.

Lemma sort_tasks_unreadable_deadline_witness :
  exists e',
    sort_tasks fromisoformat_ref sort_interrupted_ref
      (holding [task_later; task_bad_deadline])
    = (holding [task_later; task_bad_deadline], Raise e').
Proof.
  apply (sort_tasks_unreadable_deadline fromisoformat_ref sort_interrupted_ref
           (holding [task_later; task_bad_deadline])
           (mkobj 1 task_bad_deadline) ValueError).
  - simpl. auto.
  - reflexivity.
Defined.

Lemma sort_then_tick_persists_witness :
  let st1 := run strptime_ref fromisoformat_ref json_dump_ref
               sort_interrupted_ref SortTasks started in
  let st2 := run strptime_ref fromisoformat_ref json_dump_ref
               sort_interrupted_ref (Tick half_past_eight) st1 in
  task_file st1 = task_file started
  /\ synced json_dump_ref st2
  /\ map ref (tasks st2) = map ref (tasks st1)
  /\ Permutation (tasks st1) (tasks started).
Proof.
  apply (sort_then_tick_persists strptime_ref fromisoformat_ref json_dump_ref
           sort_interrupted_ref half_past_eight started).
  - reflexivity.
  - exact started_readable.
  - exact started_naive_reminders.
Defined.

(** A file with one record from before the [id] and [reminded] fields. *)
Lemma load_tasks_backfills_witness :
  exists loaded,
    load_tasks json_load_ref (fun _ => 1767256200000)
      (boot (file_of [task_legacy]))
    = (boot (file_of [task_legacy]), Ok (PList (map PDict loaded)))
    /\ length loaded = length [task_legacy]
    /\ forall (i : nat) (d : dict),
         [task_legacy] !! i = Some d ->
         exists d',
           loaded !! i = Some d'
           /\ is_Some (d' !! "id") /\ is_Some (d' !! "reminded")
           /\ (forall k v, d !! k = Some v -> d' !! k = Some v)
           /\ (forall k, k <> "id" -> k <> "reminded" -> d' !! k = d !! k)
           /\ (d !! "reminded" = None -> d' !! "reminded" = Some (PBool false))
           /\ (d !! "id" = None ->
               d' !! "id"
               = Some (PStr ("legacy_" +:+ str_of_int (Z.of_nat i) +:+ "_"
                             +:+ str_of_int 1767256200000))).
Proof.
  apply (load_tasks_backfills json_load_ref (fun _ => 1767256200000)
           (boot (file_of [task_legacy]))
           (json_dump_ref (PList (map PDict [task_legacy]))) [task_legacy]).
  - reflexivity.
  - vm_compute. reflexivity.
Defined.

Lemma add_task_creates_pending_task_witness :
  let st' := fst (add_task strptime_ref fromisoformat_ref json_dump_ref
                    "  Buy milk " "25/12 09:00" 1 0 half_past_eight
                    1767256200000 started) in
  exists task,
    tasks st' = (tasks started ++ [task])%list
    /\ ref task = next_ref started
    /\ fields task !! "id" = Some (PStr (str_of_int 1767256200000))
    /\ fields task !! "task" = Some (PStr (strip "  Buy milk "))
    /\ fields task !! "completed" = Some (PBool false)
    /\ fields task !! "reminded" = Some (PBool false)
    /\ synced json_dump_ref st'.
Proof.
  apply (add_task_creates_pending_task strptime_ref fromisoformat_ref
           json_dump_ref
           "  Buy milk " "25/12 09:00" 1 0 half_past_eight 1767256200000
           started (mkdatetime 2026 12 25 9 0 0 0)
           (mkdatetime 2026 12 25 8 0 0 0)).
  - reflexivity.
  - vm_compute. discriminate.
  - vm_compute. reflexivity.
  - vm_compute. reflexivity.
Defined.

Lemma reachable_store_well_formed_witness :
  NoDup (map ref (tasks started))
  /\ Forall (fun o => is_Some (fields o !! "id")
                      /\ is_Some (fields o !! "reminded")) (tasks started)
  /\ (tasks_is started <> IsList -> tasks started = [])
  /\ (forall a, tasks_is (run strptime_ref fromisoformat_ref json_dump_ref
                            sort_interrupted_ref a started)
                = tasks_is started)
  /\ (json_load_ref (json_dump_ref (stored started)) = Some (stored started) ->
      let restarted :=
        boot (task_file (fst (save_tasks json_dump_ref started))) in
      load_tasks json_load_ref (fun _ => 0) restarted
      = (restarted, Ok (stored started))).
Proof.
  apply (reachable_store_well_formed strptime_ref fromisoformat_ref
           json_load_ref json_dump_ref sort_interrupted_ref
           (fun _ => 0) started).
  exact started_reachable.
Defined.

Lemma reachable_tick_rearms_witness :
  Forall (fun o => readable fromisoformat_ref (fields o)) (tasks started)
  /\ (forall a,
        Forall (fun o => naive_time fromisoformat_ref "reminder_time"
                           (fields o))
          (tasks (run strptime_ref fromisoformat_ref json_dump_ref
                    sort_interrupted_ref a started)))
  /\ exists st',
       check_reminders fromisoformat_ref json_dump_ref half_past_eight started
       = (st', Ok tt)
       /\ synced json_dump_ref st'
       /\ last (log st') = Some (After 1000).
Proof.
  apply (reachable_tick_rearms strptime_ref fromisoformat_ref json_load_ref
           json_dump_ref sort_interrupted_ref half_past_eight started).
  - exact fromisoformat_ref_isoformat.
  - intros s d. apply strptime_ref_valid.
  - exact started_reachable.
  - exact started_naive_reminders.
  - reflexivity.
Defined.

Lemma reachable_handlers_raise_nothing_witness :
  (raised strptime_ref fromisoformat_ref json_dump_ref sort_interrupted_ref
     (Tick half_past_eight) started
   = None
   \/ (raised strptime_ref fromisoformat_ref json_dump_ref
         sort_interrupted_ref (Tick half_past_eight) started
       = Some OverflowError
       /\ exists task_entry deadline_entry reminder_hours reminder_minutes
            now time_ms,
            Tick half_past_eight
            = AddTask task_entry deadline_entry reminder_hours
                reminder_minutes now time_ms))
  /\ tasks_is (run strptime_ref fromisoformat_ref json_dump_ref
                 sort_interrupted_ref (Tick half_past_eight) started)
     = IsList
  /\ Forall (fun o => naive_times fromisoformat_ref (fields o))
       (tasks (run strptime_ref fromisoformat_ref json_dump_ref
                 sort_interrupted_ref (Tick half_past_eight) started)).
Proof.
  apply (reachable_handlers_raise_nothing strptime_ref fromisoformat_ref
           json_load_ref json_dump_ref sort_interrupted_ref
           (Tick half_past_eight) started).
  - exact fromisoformat_ref_isoformat.
  - intros s d. apply strptime_ref_valid.
  - exact started_reachable.
  - reflexivity.
  - exact started_naive.
  - intros now [= <-]. reflexivity.
Defined.

(** Start-up on a file with an old record and a current one. *)
Lemma init_installs_file_witness :
  exists st,
    init fromisoformat_ref json_load_ref json_dump_ref
      (fun _ => 1767256200000) new_years_eve
      (boot (file_of [task_legacy; task_later]))
    = (st, Ok tt)
    /\ tasks_is st = IsList
    /\ length (tasks st) = length [task_legacy; task_later]
    /\ synced json_dump_ref st
    /\ last (log st) = Some (After 1000)
    /\ forall (i : nat) (d : dict),
         [task_legacy; task_later] !! i = Some d ->
         exists o,
           tasks st !! i = Some o /\ ref o = i
           /\ (fields o = backfill 1767256200000 i d
               \/ fields o
                  = <["reminded" := PBool true]> (backfill 1767256200000 i d)).
Proof.
  apply (init_installs_file fromisoformat_ref json_load_ref json_dump_ref
           (fun _ => 1767256200000) new_years_eve
           (json_dump_ref (PList (map PDict [task_legacy; task_later])))
           [task_legacy; task_later]).
  - vm_compute. reflexivity.
  - reflexivity.
  - repeat constructor; eexists; vm_compute; reflexivity.
  - repeat constructor; intros s d Hs Hd; vm_compute in Hs;
      injection Hs as <-; vm_compute in Hd; by injection Hd as <-.
Defined.

(** Start-up on a file whose second record has a deadline that is no
    timestamp. *)
Lemma init_unreadable_record_witness :
  exists st e',
    init fromisoformat_ref json_load_ref json_dump_ref (fun _ => 0)
      new_years_eve (boot (file_of [task_later; task_bad_deadline]))
    = (st, Raise e')
    /\ task_file st = file_of [task_later; task_bad_deadline]
    /\ log st = []
    /\ (length (task_tree st) <= 1)%nat.
Proof.
  apply (init_unreadable_record fromisoformat_ref json_load_ref json_dump_ref
           (fun _ => 0) new_years_eve
           (json_dump_ref (PList (map PDict [task_later; task_bad_deadline])))
           [task_later; task_bad_deadline] 1 task_bad_deadline ValueError).
  - vm_compute. reflexivity.
  - reflexivity.
  - vm_compute. reflexivity.
Defined.

Lemma after_tick_reachable :
  reachable strptime_ref fromisoformat_ref json_load_ref json_dump_ref
    sort_interrupted_ref after_tick.
Proof.
  pose proof (reachable_run strptime_ref fromisoformat_ref json_load_ref
                json_dump_ref sort_interrupted_ref started
                (Tick half_past_eight) started_reachable) as H.
  simpl in H. by rewrite after_tick_is_tick in H.
Qed.

(** The id of the task that the tick of 08:30 reminds. *)
Lemma handlers_keep_other_fields_witness :
  fields (mkobj 1 (<["reminded" := PBool true]> task_sooner)) !! "id"
  = fields (mkobj 1 task_sooner) !! "id".
Proof.
  apply (handlers_keep_other_fields strptime_ref fromisoformat_ref
           json_load_ref json_dump_ref sort_interrupted_ref
           (Tick half_past_eight) started (mkobj 1 task_sooner)
           (mkobj 1 (<["reminded" := PBool true]> task_sooner)) "id").
  - exact started_reachable.
  - simpl. auto.
  - cbn [run]. rewrite after_tick_is_tick. simpl. auto.
  - reflexivity.
  - discriminate.
  - discriminate.
  - discriminate.
Defined.

(** The reminded task of [after_tick] is marked completed. *)
Lemma only_reset_reminder_clears_flag_witness :
  fields (setitem (mkobj 1 (<["reminded" := PBool true]> task_sooner))
            "completed" (PBool true)) !! "reminded"
  = Some (PBool true).
Proof.
  apply (only_reset_reminder_clears_flag strptime_ref fromisoformat_ref
           json_load_ref json_dump_ref sort_interrupted_ref
           (MarkCompleted (Some 1%nat)) after_tick
           (mkobj 1 (<["reminded" := PBool true]> task_sooner))
           (setitem (mkobj 1 (<["reminded" := PBool true]> task_sooner))
              "completed" (PBool true))).
  - exact after_tick_reachable.
  - discriminate.
  - simpl. auto.
  - cbn [run].
    rewrite (mark_completed_selected fromisoformat_ref json_dump_ref
               after_tick 1
               (mkobj 1 (<["reminded" := PBool true]> task_sooner)));
      [| simpl; lia | reflexivity].
    vm_compute. auto.
  - reflexivity.
  - reflexivity.
Defined.
